(** * External commerce synchronisation engine: a shallow embedding

    The services of the warehouse API that talk to the external commerce
    platforms, embedded as functions over an explicit store:

    - [OrderStatusSyncService]   (services/order-status-sync.service.ts)
    - [OrderImportService]       (services/order-import.service.ts)
    - [InventorySyncService]     (services/inventory-sync.service.ts)
    - [IntegrationService]       (services/integration.service.ts)
    - [WooCommerceClient]        (services/woocommerce-client.ts)
    - the webhook route          (routes/webhooks.routes.ts)

    Every [async] method is a computation in the monad [Async]: it reads an
    environment (what the relational store, the clock and the remote platforms
    answer), threads the store, and completes normally or by throwing.  The
    store is one list of rows per table, oldest row first; the requests sent to
    a remote platform are recorded in the store's [requests] trace, so that
    "no platform call is made" is a statement about that trace.

    What lies outside the repository is an oracle of the environment:
    - the relational store may refuse a query; [db_error] says so per table and
      per kind of query, and a refused query changes nothing.  The
      supabase-js client reports such a failure in the [error] field of its
      answer and does not throw;
    - the primary key of a new row is the store's choice ([gen_id]);
    - the storefront and the wholesale application answer each request
      ([woo_...], [kubacco_fetch]);
    - HMAC-SHA256 with base64 output and [JSON.stringify] are functions of the
      environment.
    Strings are byte strings (UTF-8) and are compared byte by byte; the
    string-keyed tables of the code (status maps, channel map) are looked up
    by their own keys, a key that names a member inherited from
    [Object.prototype] being outside the model.  Numbers are integers; an id
    is written in decimal, as JavaScript writes an integer below 1e21, and
    amounts of money stay the text they arrive as. *)

From Stdlib Require Import String Ascii ZArith List Bool Lia Sorting.Sorted.
From stdpp Require Import base option list strings pretty gmap.

Open Scope string_scope.
Open Scope Z_scope.
Open Scope list_scope.

(** ** JavaScript values *)

(** The empty string, which JavaScript treats as falsy. *)
Definition empty : string := EmptyString.

(** [!s] for a string. *)
Definition falsy (s : string) : bool := String.eqb s empty.

(** [!x] for a string that may be [null] or [undefined]. *)
Definition falsy_opt (x : option string) : bool :=
  match x with
  | None => true
  | Some s => falsy s
  end.

(** [x || d] on strings that may be [null]. *)
Definition or_default (x : option string) (d : string) : string :=
  match x with
  | None => d
  | Some s => if falsy s then d else s
  end.

(** A template literal's rendering of a value that may be [null]. *)
Definition show_null (x : option string) : string :=
  match x with
  | None => "null"
  | Some s => s
  end.

(** A template literal's rendering of a value that may be [undefined]. *)
Definition show_undefined (x : option string) : string :=
  match x with
  | None => "undefined"
  | Some s => s
  end.

(** [haystack.includes(needle)]. *)
Fixpoint includes (haystack needle : string) : bool :=
  String.prefix needle haystack ||
  match haystack with
  | EmptyString => false
  | String _ rest => includes rest needle
  end.

(** *** Numbers

    A JavaScript number is a double: it holds every integer of magnitude
    below 2^53, writes such an integer in decimal, and [parseInt] reads that
    text back exactly.  Beyond, integers are rounded. *)
Definition safe_integer (z : Z) : Prop := Z.abs z < 2 ^ 53.

(** *** [parseInt]

    Leading white space is skipped, a sign is accepted, a [0x] prefix
    selects base 16, and the longest prefix of digits is read; no digit at
    all is [NaN] ([None]).  The result is the exact integer, which is the
    JavaScript number as long as its magnitude is below 2^53, where a double
    holds every integer; what is proved of a number read back is stated for
    such numbers. *)

Definition is_space (c : ascii) : bool :=
  let n := N_of_ascii c in
  (N.eqb n 32 || (N.leb 9 n && N.leb n 13))%N.

Definition digit_of (base : Z) (c : ascii) : option Z :=
  let n := Z.of_N (N_of_ascii c) in
  let d := if (48 <=? n) && (n <=? 57) then n - 48
           else if (97 <=? n) && (n <=? 102) then n - 87
           else if (65 <=? n) && (n <=? 70) then n - 55
           else 16 in
  if d <? base then Some d else None.

Fixpoint skip_spaces (s : string) : string :=
  match s with
  | String c rest => if is_space c then skip_spaces rest else s
  | EmptyString => s
  end.

Fixpoint read_digits (base : Z) (acc : option Z) (s : string) : option Z :=
  match s with
  | EmptyString => acc
  | String c rest =>
      match digit_of base c with
      | Some d => read_digits base (Some (base * default 0 acc + d)) rest
      | None => acc
      end
  end.

Definition read_number (s : string) : option Z :=
  match s with
  | String "0" (String "x" rest) => read_digits 16 None rest
  | String "0" (String "X" rest) => read_digits 16 None rest
  | _ => read_digits 10 None s
  end.

Definition parseInt (s : string) : option Z :=
  match skip_spaces s with
  | String "-" rest => Z.opp <$> read_number rest
  | String "+" rest => read_number rest
  | rest => read_number rest
  end.

(** ** The environment and the store *)

(** What [await supabase.from(...)...] resolves to: supabase-js does not
    throw, it reports the failure in [error]. *)
Record PostgrestResponse (A : Type) : Type := {
  data : option A;
  error : option string
}.
Arguments data {A} _.
Arguments error {A} _.

Definition resolved {A : Type} (a : A) : PostgrestResponse A :=
  {| data := Some a; error := None |}.
Definition no_rows {A : Type} : PostgrestResponse A :=
  {| data := None; error := None |}.
Definition rejected {A : Type} (msg : string) : PostgrestResponse A :=
  {| data := None; error := Some msg |}.

(** [.maybeSingle()]: no row is [null] without error, several rows are an
    error. *)
Definition maybeSingle {A : Type} (rows : list A) : PostgrestResponse A :=
  match rows with
  | [] => no_rows
  | [r] => resolved r
  | _ => rejected "JSON object requested, multiple (or no) rows returned"
  end.

(** [.single()]: anything but exactly one row is an error. *)
Definition single {A : Type} (rows : list A) : PostgrestResponse A :=
  match rows with
  | [r] => resolved r
  | _ => rejected "JSON object requested, multiple (or no) rows returned"
  end.

Inductive verb : Type := SELECT | INSERT | UPDATE.

(** The opaque [config] blob of an integration. *)
Record IntegrationConfig : Type := {
  siteUrl : string;
  consumerKey : string;
  consumerSecret : string;
  version : option string;
  apiKey : option string;
  webhookSecret : option string
}.

Module OpsOrder.
Record t : Type := {
  id : string;
  order_code : string;
  channel : string;
  status : string;
  receiver : string;
  address : string;
  address_line2 : string;
  city : string;
  state : string;
  postal_code : string;
  country : string;
  email : string;
  phone : string;
  order_total : string;
  notes : option string;
  order_date : string;
  external_order_id : option string;
  integration_id : string
}.
End OpsOrder.

Module OrderItem.
Record t : Type := {
  order_id : string;
  sku : option string;
  item_name : string;
  quantity : Z;
  unit_price : string;
  total_price : string;
  is_gift : bool;
  external_product_id : string;
  external_variation_id : option string
}.
End OrderItem.

Module Integration.
Record t : Type := {
  id : string;
  platform_type : string;
  name : string;
  is_active : bool;
  config : IntegrationConfig;
  last_sync_at : option string;
  sync_status : string;
  error_message : option string
}.
End Integration.

Module OutboundSyncLog.
Record t : Type := {
  id : string;
  order_id : string;
  integration_id : string;
  platform_type : string;
  channel : string;
  old_status : string;
  new_status : string;
  result : string;
  error_message : option string;
  retry_count : Z;
  last_retry_at : option string;
  synced_at : option string
}.
End OutboundSyncLog.

(** What the import run returns and attaches to its log. *)
Module ImportResults.
Record t : Type := {
  total : Z;
  imported : Z;
  skipped : Z;
  failed : Z;
  errors : list string
}.
End ImportResults.

(** What the inventory export returns and attaches to its log. *)
Module InventorySyncResult.
Record t : Type := {
  total : Z;
  synced : Z;
  skipped : Z;
  failed : Z;
  errors : list string
}.
End InventorySyncResult.

(** What [importOrder] returns for one external order. *)
Record ImportOrderResult : Type := {
  io_success : bool;
  io_orderId : option string;
  externalOrderId : Z;
  io_error : option string
}.

(** The [details] and [error_details] payloads of a sync log. *)
Inductive Details : Type :=
| ImportDetails (r : ImportResults.t)
| ExportDetails (r : InventorySyncResult.t)
| OrderDetails (r : ImportOrderResult).

Inductive ErrorDetails : Type :=
| ErrorList (errors : list string)      (* [{ errors: [...] }] *)
| ErrorMessage (error : string).        (* [{ error: message }] *)

Module SyncLog.
Record t : Type := {
  id : string;
  integration_id : string;
  sync_type : string;
  direction : string;
  status : string;
  records_processed : Z;
  records_failed : Z;
  details : option Details;
  error_details : option ErrorDetails;
  started_at : string;
  completed_at : option string
}.
End SyncLog.

Module ProductMapping.
Record t : Type := {
  id : string;
  integration_id : string;
  warehouse_product_id : string;
  warehouse_product_type : string;
  warehouse_variation_id : option string;
  external_product_id : string;
  external_variation_id : option string;
  sku : option string;
  sync_inventory : bool;
  last_synced_at : option string
}.
End ProductMapping.

Module InventoryCigar.
Record t : Type := {
  product_id : string;
  variation_id : string;
  available : option Z
}.
End InventoryCigar.

(** A row of [bundles] or of [accessories]. *)
Module Stocked.
Record t : Type := {
  id : string;
  stock_quantity : option Z
}.
End Stocked.

(** The external order as the platform delivers it. *)
Module Billing.
Record t : Type := {
  first_name : string;
  last_name : string;
  address_1 : string;
  address_2 : string;
  city : string;
  state : string;
  postcode : string;
  country : string;
  email : string;
  phone : string
}.
End Billing.

Module Shipping.
Record t : Type := {
  first_name : string;
  last_name : string;
  address_1 : string;
  address_2 : string;
  city : string;
  state : string;
  postcode : string;
  country : string
}.
End Shipping.

Record WooLineItem : Type := {
  li_name : string;
  li_product_id : Z;
  li_variation_id : Z;
  li_quantity : Z;
  li_sku : string;
  li_price : string;
  li_total : string
}.

Record WooCommerceOrder : Type := {
  wo_id : Z;
  order_key : string;
  wo_status : string;
  wo_total : string;
  date_created : string;
  billing : Billing.t;
  shipping : Shipping.t;
  line_items : list WooLineItem;
  customer_note : string
}.

Module WebhookQueueEntry.
Record t : Type := {
  integration_id : string;
  event_type : string;
  payload : WooCommerceOrder;
  signature : option string;
  status : string
}.
End WebhookQueueEntry.

(** A request that left the process for a remote platform. *)
Inductive PlatformCall : Type :=
| WooUpdateOrderStatus (orderId : Z) (status : string)
| WooGetOrders (per_page : Z) (status after : option string)
| WooUpdateProductVariationStock (productId : option Z) (variationId stock : Z)
| WooBatchUpdateProducts (updates : list (option Z * Z))
| KubaccoUpdateOrderStatus (bearer order_id status : string).

(** What [fetch] resolves to; [body_error] is the [error] field of the JSON
    body, [None] when the body does not parse or has no such field. *)
Inductive FetchResult : Type :=
| FetchRejected (msg : string)
| FetchResponse (ok : bool) (http_status : Z) (body_error : option string).

Record Env : Type := {
  (* the store's failure, if any, for a kind of query on a table *)
  db_error : string → verb → option string;
  (* the primary key the store gives a new row, from the keys in use *)
  gen_id : string → list string → string;
  (* [new Date().toISOString()] *)
  now : string;
  (* the remote platforms: [Some msg] is a request that throws *)
  woo_updateOrderStatus : Z → string → option string;
  woo_getOrders : Z → option string → option string → string + list WooCommerceOrder;
  woo_updateProductVariationStock : option Z → Z → Z → option string;
  woo_batchUpdateProducts : list (option Z * Z) → option string;
  kubacco_fetch : string → string → string → FetchResult;
  (* [crypto.createHmac('sha256', key).update(msg).digest('base64')] *)
  hmac_sha256_base64 : string → string → string;
  (* [JSON.stringify] of a parsed request body *)
  JSON_stringify : WooCommerceOrder → string
}.

Record World : Type := {
  ops_orders : list OpsOrder.t;
  ops_order_items : list OrderItem.t;
  integrations : list Integration.t;
  integration_outbound_sync_logs : list OutboundSyncLog.t;
  integration_sync_logs : list SyncLog.t;
  product_mappings : list ProductMapping.t;
  inventory_cigars : list InventoryCigar.t;
  bundles : list Stocked.t;
  accessories : list Stocked.t;
  webhook_queue : list WebhookQueueEntry.t;
  requests : list PlatformCall
}.

Definition set_ops_orders (f : list OpsOrder.t → list OpsOrder.t) (w : World) : World :=
  {| ops_orders := f (ops_orders w); ops_order_items := ops_order_items w;
     integrations := integrations w;
     integration_outbound_sync_logs := integration_outbound_sync_logs w;
     integration_sync_logs := integration_sync_logs w;
     product_mappings := product_mappings w; inventory_cigars := inventory_cigars w;
     bundles := bundles w; accessories := accessories w;
     webhook_queue := webhook_queue w; requests := requests w |}.

Definition set_ops_order_items (f : list OrderItem.t → list OrderItem.t) (w : World) : World :=
  {| ops_orders := ops_orders w; ops_order_items := f (ops_order_items w);
     integrations := integrations w;
     integration_outbound_sync_logs := integration_outbound_sync_logs w;
     integration_sync_logs := integration_sync_logs w;
     product_mappings := product_mappings w; inventory_cigars := inventory_cigars w;
     bundles := bundles w; accessories := accessories w;
     webhook_queue := webhook_queue w; requests := requests w |}.

Definition set_integrations (f : list Integration.t → list Integration.t) (w : World) : World :=
  {| ops_orders := ops_orders w; ops_order_items := ops_order_items w;
     integrations := f (integrations w);
     integration_outbound_sync_logs := integration_outbound_sync_logs w;
     integration_sync_logs := integration_sync_logs w;
     product_mappings := product_mappings w; inventory_cigars := inventory_cigars w;
     bundles := bundles w; accessories := accessories w;
     webhook_queue := webhook_queue w; requests := requests w |}.

Definition set_outbound_logs (f : list OutboundSyncLog.t → list OutboundSyncLog.t)
    (w : World) : World :=
  {| ops_orders := ops_orders w; ops_order_items := ops_order_items w;
     integrations := integrations w;
     integration_outbound_sync_logs := f (integration_outbound_sync_logs w);
     integration_sync_logs := integration_sync_logs w;
     product_mappings := product_mappings w; inventory_cigars := inventory_cigars w;
     bundles := bundles w; accessories := accessories w;
     webhook_queue := webhook_queue w; requests := requests w |}.

Definition set_sync_logs (f : list SyncLog.t → list SyncLog.t) (w : World) : World :=
  {| ops_orders := ops_orders w; ops_order_items := ops_order_items w;
     integrations := integrations w;
     integration_outbound_sync_logs := integration_outbound_sync_logs w;
     integration_sync_logs := f (integration_sync_logs w);
     product_mappings := product_mappings w; inventory_cigars := inventory_cigars w;
     bundles := bundles w; accessories := accessories w;
     webhook_queue := webhook_queue w; requests := requests w |}.

Definition set_product_mappings (f : list ProductMapping.t → list ProductMapping.t)
    (w : World) : World :=
  {| ops_orders := ops_orders w; ops_order_items := ops_order_items w;
     integrations := integrations w;
     integration_outbound_sync_logs := integration_outbound_sync_logs w;
     integration_sync_logs := integration_sync_logs w;
     product_mappings := f (product_mappings w); inventory_cigars := inventory_cigars w;
     bundles := bundles w; accessories := accessories w;
     webhook_queue := webhook_queue w; requests := requests w |}.

Definition set_webhook_queue (f : list WebhookQueueEntry.t → list WebhookQueueEntry.t)
    (w : World) : World :=
  {| ops_orders := ops_orders w; ops_order_items := ops_order_items w;
     integrations := integrations w;
     integration_outbound_sync_logs := integration_outbound_sync_logs w;
     integration_sync_logs := integration_sync_logs w;
     product_mappings := product_mappings w; inventory_cigars := inventory_cigars w;
     bundles := bundles w; accessories := accessories w;
     webhook_queue := f (webhook_queue w); requests := requests w |}.

Definition set_requests (f : list PlatformCall → list PlatformCall) (w : World) : World :=
  {| ops_orders := ops_orders w; ops_order_items := ops_order_items w;
     integrations := integrations w;
     integration_outbound_sync_logs := integration_outbound_sync_logs w;
     integration_sync_logs := integration_sync_logs w;
     product_mappings := product_mappings w; inventory_cigars := inventory_cigars w;
     bundles := bundles w; accessories := accessories w;
     webhook_queue := webhook_queue w; requests := f (requests w) |}.

(** ** Asynchronous computations *)

Inductive Completion (A : Type) : Type :=
| Normal (a : A)
| Throw (message : string).
Arguments Normal {A} a.
Arguments Throw {A} message.

Definition Async (A : Type) : Type := Env → World → Completion A * World.

Definition ret {A : Type} (a : A) : Async A := fun _ w => (Normal a, w).

Definition throw {A : Type} (message : string) : Async A :=
  fun _ w => (Throw message, w).

Definition bind {A B : Type} (m : Async A) (k : A → Async B) : Async B :=
  fun env w =>
    match m env w with
    | (Normal a, w') => k a env w'
    | (Throw e, w') => (Throw e, w')
    end.

(** [try { body } catch (error) { handler }]: what [body] wrote before it
    threw stays written. *)
Definition try_catch {A : Type} (body : Async A) (handler : string → Async A) : Async A :=
  fun env w =>
    match body env w with
    | (Normal a, w') => (Normal a, w')
    | (Throw e, w') => handler e env w'
    end.

Notation "'let!' x ':=' m 'in' k" := (bind m (fun x => k))
  (at level 10, x pattern, m at level 100, k at level 200).
Notation "m ';;' k" := (bind m (fun _ => k))
  (at level 100, k at level 200, right associativity).

Definition ask : Async Env := fun env w => (Normal env, w).
Definition get : Async World := fun _ w => (Normal w, w).
Definition modify (f : World → World) : Async unit := fun _ w => (Normal tt, f w).

(** [if (cond) throw new Error(message)]. *)
Definition throw_if (cond : bool) (message : string) : Async unit :=
  if cond then throw message else ret tt.

(** *** Queries *)

(** A read: the rows the filter selects, or the store's failure. *)
Definition db_select {A B : Type} (table : string) (rows : World → list A)
    (finish : list A → PostgrestResponse B) : Async (PostgrestResponse B) :=
  fun env w =>
    match db_error env table SELECT with
    | Some msg => (Normal (rejected msg), w)
    | None => (Normal (finish (rows w)), w)
    end.

(** [.insert(row).select().single()]: the row is appended under a key the
    store chooses, and comes back with it. *)
Definition db_insert {A : Type} (table : string) (ids : World → list string)
    (row : string → A) (store : A → World → World) : Async (PostgrestResponse A) :=
  fun env w =>
    match db_error env table INSERT with
    | Some msg => (Normal (rejected msg), w)
    | None =>
        let r := row (gen_id env table (ids w)) in
        (Normal (resolved r), store r w)
    end.

(** [.update(changes).eq(...)]: every selected row is changed in place. *)
Definition db_update (table : string) (change : World → World)
    : Async (PostgrestResponse unit) :=
  fun env w =>
    match db_error env table UPDATE with
    | Some msg => (Normal (rejected msg), w)
    | None => (Normal (resolved tt), change w)
    end.

(** [.insert(rows)] with no [select]: only the failure comes back. *)
Definition db_insert_many (table : string) (store : World → World)
    : Async (PostgrestResponse unit) :=
  fun env w =>
    match db_error env table INSERT with
    | Some msg => (Normal (rejected msg), w)
    | None => (Normal (resolved tt), store w)
    end.

(** A request to a remote platform: it is recorded, then the platform
    answers. *)
Definition request {A : Type} (call : PlatformCall) (answer : Env → A) : Async A :=
  fun env w => (Normal (answer env), set_requests (fun l => l ++ [call]) w).

(** ** OrderStatusSyncService *)

Record SyncResult : Type := {
  success : bool;
  syncLogId : string;
  orderId : string;
  platformType : string;
  newStatus : string;
  sr_error : option string;
  retryCount : option Z
}.

(** The presence of the optional [wooCommerceClient] argument; what the
    platform answers is the environment's. *)
Record WooCommerceClient : Type := { client_config : IntegrationConfig }.

Module OrderStatusSyncService.

(** The table [validCombinations], as a lookup: [undefined] for any other
    channel. *)
Definition validCombinations (orderChannel : string) : option string :=
  if String.eqb orderChannel "WHOLESALE" then Some "KUBACCO_APP"
  else if String.eqb orderChannel "ONLINE" then Some "WOOCOMMERCE"
  else None.

(** [platformType !== expectedPlatform]. *)
Definition differs (platformType : string) (expectedPlatform : option string) : bool :=
  match expectedPlatform with
  | Some p => negb (String.eqb platformType p)
  | None => true
  end.

Definition validateChannelSegregation (orderChannel platformType : string) : Async unit :=
  let expectedPlatform := validCombinations orderChannel in
  throw_if (differs platformType expectedPlatform)
    ("Channel segregation violation: " +:+ orderChannel +:+ " orders cannot sync to "
       +:+ platformType +:+ ". Expected: " +:+ show_undefined expectedPlatform).

Definition mapToWooCommerceStatus (warehouseStatus : string) : string :=
  if String.eqb warehouseStatus "PROCESSING" then "processing"
  else if String.eqb warehouseStatus "READY_TO_SHIP" then "processing"
  else if String.eqb warehouseStatus "SHIPMENT_CREATED" then "processing"
  else if String.eqb warehouseStatus "PACKAGING" then "processing"
  else if String.eqb warehouseStatus "SHIPPED" then "completed"
  else if String.eqb warehouseStatus "IN_TRANSIT" then "completed"
  else if String.eqb warehouseStatus "DELIVERED" then "completed"
  else if String.eqb warehouseStatus "CANCELLED" then "cancelled"
  else if String.eqb warehouseStatus "RETURNED" then "refunded"
  else "processing".

Definition mapToKubaccoStatus (warehouseStatus : string) : string :=
  if String.eqb warehouseStatus "PROCESSING" then "processing"
  else if String.eqb warehouseStatus "READY_TO_SHIP" then "processing"
  else if String.eqb warehouseStatus "SHIPMENT_CREATED" then "processing"
  else if String.eqb warehouseStatus "PACKAGING" then "processing"
  else if String.eqb warehouseStatus "SHIPPED" then "completed"
  else if String.eqb warehouseStatus "IN_TRANSIT" then "in-transit"
  else if String.eqb warehouseStatus "DELIVERED" then "completed"
  else if String.eqb warehouseStatus "CANCELLED" then "cancelled"
  else if String.eqb warehouseStatus "RETURNED" then "refunded"
  else "processing".

(** The argument of [createSyncLog]. *)
Record LogData : Type := {
  ld_orderId : string;
  ld_integrationId : string;
  ld_platformType : string;
  ld_channel : string;
  ld_oldStatus : string;
  ld_newStatus : string;
  ld_result : string;
  ld_errorMessage : option string;
  ld_syncedAt : option string
}.

Definition log_ids (w : World) : list string :=
  map OutboundSyncLog.id (integration_outbound_sync_logs w).

Definition createSyncLog (d : LogData) : Async (PostgrestResponse OutboundSyncLog.t) :=
  db_insert "integration_outbound_sync_logs" log_ids
    (fun new_id =>
       {| OutboundSyncLog.id := new_id;
          OutboundSyncLog.order_id := ld_orderId d;
          OutboundSyncLog.integration_id := ld_integrationId d;
          OutboundSyncLog.platform_type := ld_platformType d;
          OutboundSyncLog.channel := ld_channel d;
          OutboundSyncLog.old_status := ld_oldStatus d;
          OutboundSyncLog.new_status := ld_newStatus d;
          OutboundSyncLog.result := ld_result d;
          OutboundSyncLog.error_message := ld_errorMessage d;
          OutboundSyncLog.synced_at := ld_syncedAt d;
          OutboundSyncLog.retry_count := 0;
          OutboundSyncLog.last_retry_at := None |})
    (fun row => set_outbound_logs (fun l => l ++ [row])).

(** [syncLog.data!.id]: reading [id] of [null] throws a [TypeError]. *)
Definition data_id (r : PostgrestResponse OutboundSyncLog.t) : Async string :=
  match data r with
  | Some row => ret (OutboundSyncLog.id row)
  | None => throw "Cannot read properties of null (reading 'id')"
  end.

Definition syncToWooCommerce (order : OpsOrder.t) (integration : Integration.t)
    (newStatus oldStatus : string) (wooCommerceClient : option WooCommerceClient)
    : Async SyncResult :=
  throw_if (negb (bool_decide (is_Some wooCommerceClient))) "WooCommerceClient not provided" ;;
  match parseInt (show_null (OpsOrder.external_order_id order)) with
  | None =>
      throw ("Invalid WooCommerce order ID: "
               +:+ show_null (OpsOrder.external_order_id order))
  | Some externalOrderId =>
      let wooStatus := mapToWooCommerceStatus newStatus in
      let! failure := request (WooUpdateOrderStatus externalOrderId wooStatus)
                        (fun env => woo_updateOrderStatus env externalOrderId wooStatus) in
      match failure with
      | Some msg => throw msg
      | None =>
          let! env := ask in
          let! syncLog := createSyncLog
            {| ld_orderId := OpsOrder.id order;
               ld_integrationId := Integration.id integration;
               ld_platformType := "WOOCOMMERCE";
               ld_channel := OpsOrder.channel order;
               ld_oldStatus := oldStatus;
               ld_newStatus := newStatus;
               ld_result := "SUCCESS";
               ld_errorMessage := None;
               ld_syncedAt := Some (now env) |} in
          let! log_id := data_id syncLog in
          ret {| success := true;
                 syncLogId := log_id;
                 orderId := OpsOrder.id order;
                 platformType := "WOOCOMMERCE";
                 newStatus := newStatus;
                 sr_error := None;
                 retryCount := None |}
      end
  end.

Definition syncToKubacco (order : OpsOrder.t) (integration : Integration.t)
    (newStatus oldStatus : string) : Async SyncResult :=
  match OpsOrder.external_order_id order with
  | None => throw ("No Kubacco order ID found for order " +:+ OpsOrder.id order)
  | Some kubaccoOrderId =>
      throw_if (falsy kubaccoOrderId)
        ("No Kubacco order ID found for order " +:+ OpsOrder.id order) ;;
      let kubacoStatus := mapToKubaccoStatus newStatus in
      match apiKey (Integration.config integration) with
      | None => throw "Kubacco API key not configured"
      | Some key =>
          throw_if (falsy key) "Kubacco API key not configured" ;;
          let! response := request (KubaccoUpdateOrderStatus key kubaccoOrderId kubacoStatus)
                             (fun env => kubacco_fetch env key kubaccoOrderId kubacoStatus) in
          match response with
          | FetchRejected msg => throw msg
          | FetchResponse false http_status body_error =>
              throw ("Kubacco API error: " +:+ pretty http_status +:+ " - "
                       +:+ or_default body_error "Unknown error")
          | FetchResponse true _ _ =>
              let! env := ask in
              let! syncLog := createSyncLog
                {| ld_orderId := OpsOrder.id order;
                   ld_integrationId := Integration.id integration;
                   ld_platformType := "KUBACCO_APP";
                   ld_channel := OpsOrder.channel order;
                   ld_oldStatus := oldStatus;
                   ld_newStatus := newStatus;
                   ld_result := "SUCCESS";
                   ld_errorMessage := None;
                   ld_syncedAt := Some (now env) |} in
              let! log_id := data_id syncLog in
              ret {| success := true;
                     syncLogId := log_id;
                     orderId := OpsOrder.id order;
                     platformType := "KUBACCO_APP";
                     newStatus := newStatus;
                     sr_error := None;
                     retryCount := None |}
          end
      end
  end.

(** The rows a lookup by primary key selects. *)
Definition orders_with_id (orderId : string) (w : World) : list OpsOrder.t :=
  List.filter (fun o => String.eqb (OpsOrder.id o) orderId) (ops_orders w).

Definition integrations_with_id (integrationId : string) (w : World) : list Integration.t :=
  List.filter (fun i => String.eqb (Integration.id i) integrationId) (integrations w).

Definition logs_with_id (syncLogId : string) (w : World) : list OutboundSyncLog.t :=
  List.filter (fun l => String.eqb (OutboundSyncLog.id l) syncLogId)
    (integration_outbound_sync_logs w).

Definition order_by_id (orderId : string) : Async (PostgrestResponse OpsOrder.t) :=
  db_select "ops_orders" (orders_with_id orderId) maybeSingle.

Definition integration_by_id (integrationId : string)
    : Async (PostgrestResponse Integration.t) :=
  db_select "integrations" (integrations_with_id integrationId) maybeSingle.

Definition log_by_id (syncLogId : string) : Async (PostgrestResponse OutboundSyncLog.t) :=
  db_select "integration_outbound_sync_logs" (logs_with_id syncLogId) maybeSingle.

(** [if (error || !data) throw new Error(message)], else the row. *)
Definition found {A : Type} (r : PostgrestResponse A) (message : string) : Async A :=
  match error r, data r with
  | None, Some row => ret row
  | _, _ => throw message
  end.

(** [if (!data) throw new Error(message)], else the row. *)
Definition present {A : Type} (r : PostgrestResponse A) (message : string) : Async A :=
  match data r with
  | Some row => ret row
  | None => throw message
  end.

(** The branch by platform type, shared by the first attempt and the
    retry; [unsupported] is the message of the last [else]. *)
Definition dispatch (platform_type : string) (order : OpsOrder.t)
    (integration : Integration.t) (newStatus oldStatus : string)
    (wooCommerceClient : option WooCommerceClient) (unsupported : string)
    : Async SyncResult :=
  if String.eqb platform_type "WOOCOMMERCE" then
    syncToWooCommerce order integration newStatus oldStatus wooCommerceClient
  else if String.eqb platform_type "KUBACCO_APP" then
    syncToKubacco order integration newStatus oldStatus
  else throw (unsupported +:+ platform_type).

(** The [try] block of [syncStatusToExternalPlatform]. *)
Definition sync_attempt (orderId newStatus : string)
    (wooCommerceClient : option WooCommerceClient) : Async SyncResult :=
  let! r := order_by_id orderId in
  let! order := found r ("Order not found: " +:+ orderId) in
  let! r := integration_by_id (OpsOrder.integration_id order) in
  let! integration := found r ("Integration not found for order " +:+ orderId) in
  validateChannelSegregation (OpsOrder.channel order)
    (Integration.platform_type integration) ;;
  let oldStatus := OpsOrder.status order in
  dispatch (Integration.platform_type integration) order integration newStatus
    oldStatus wooCommerceClient "Unsupported platform type: ".

(** Its [catch] block. *)
Definition sync_failure (orderId newStatus errorMessage : string) : Async SyncResult :=
  let! r := createSyncLog
    {| ld_orderId := orderId;
       ld_integrationId := empty;
       ld_platformType := "UNKNOWN";
       ld_channel := empty;
       ld_oldStatus := empty;
       ld_newStatus := newStatus;
       ld_result := "FAILED";
       ld_errorMessage := Some errorMessage;
       ld_syncedAt := None |} in
  ret {| success := false;
         syncLogId := default empty (OutboundSyncLog.id <$> data r);
         orderId := orderId;
         platformType := "UNKNOWN";
         newStatus := newStatus;
         sr_error := Some errorMessage;
         retryCount := None |}.

Definition syncStatusToExternalPlatform (orderId newStatus : string)
    (wooCommerceClient : option WooCommerceClient) : Async SyncResult :=
  try_catch (sync_attempt orderId newStatus wooCommerceClient)
    (sync_failure orderId newStatus).

(** The [update] of a retry: the rows with that id get the new count, the
    stamp and, on the failure path, the message. *)
Definition stamp (syncLogId : string) (count : Z) (at_time : string)
    (message : option string) (l : OutboundSyncLog.t) : OutboundSyncLog.t :=
  if String.eqb (OutboundSyncLog.id l) syncLogId then
    {| OutboundSyncLog.id := OutboundSyncLog.id l;
       OutboundSyncLog.order_id := OutboundSyncLog.order_id l;
       OutboundSyncLog.integration_id := OutboundSyncLog.integration_id l;
       OutboundSyncLog.platform_type := OutboundSyncLog.platform_type l;
       OutboundSyncLog.channel := OutboundSyncLog.channel l;
       OutboundSyncLog.old_status := OutboundSyncLog.old_status l;
       OutboundSyncLog.new_status := OutboundSyncLog.new_status l;
       OutboundSyncLog.result := OutboundSyncLog.result l;
       OutboundSyncLog.error_message :=
         match message with
         | Some m => Some m
         | None => OutboundSyncLog.error_message l
         end;
       OutboundSyncLog.retry_count := count;
       OutboundSyncLog.last_retry_at := Some at_time;
       OutboundSyncLog.synced_at := OutboundSyncLog.synced_at l |}
  else l.

Definition update_log (syncLogId : string) (count : Z) (message : option string)
    : Async (PostgrestResponse unit) :=
  let! env := ask in
  db_update "integration_outbound_sync_logs"
    (set_outbound_logs (map (stamp syncLogId count (now env) message))).

(** [data?.retry_count || 0 + 1]: the sum binds tighter than [||], so this
    is [data?.retry_count || 1]. *)
Definition count_or_one (r : PostgrestResponse OutboundSyncLog.t) : Z :=
  match data r with
  | Some row => if OutboundSyncLog.retry_count row =? 0 then 0 + 1
                else OutboundSyncLog.retry_count row
  | None => 0 + 1
  end.

(** The [try] block of [retrySyncLog]. *)
Definition retry_attempt (syncLogId : string)
    (wooCommerceClient : option WooCommerceClient) : Async SyncResult :=
  let! r := log_by_id syncLogId in
  let! syncLog := found r ("Sync log not found: " +:+ syncLogId) in
  throw_if (5 <=? OutboundSyncLog.retry_count syncLog)
    "Maximum retry attempts exceeded (5)" ;;
  let! r := order_by_id (OutboundSyncLog.order_id syncLog) in
  let! order := present r ("Order not found: " +:+ OutboundSyncLog.order_id syncLog) in
  let! r := integration_by_id (OutboundSyncLog.integration_id syncLog) in
  let! integration :=
    present r ("Integration not found: " +:+ OutboundSyncLog.integration_id syncLog) in
  let! result := dispatch (OutboundSyncLog.platform_type syncLog) order integration
                   (OutboundSyncLog.new_status syncLog)
                   (OutboundSyncLog.old_status syncLog)
                   wooCommerceClient "Unknown platform type: " in
  update_log syncLogId (OutboundSyncLog.retry_count syncLog + 1) None ;;
  ret result.

(** Its [catch] block. *)
Definition retry_failure (syncLogId errorMessage : string) : Async SyncResult :=
  let! r := log_by_id syncLogId in
  update_log syncLogId (count_or_one r) (Some errorMessage) ;;
  ret {| success := false;
         syncLogId := syncLogId;
         orderId := empty;
         platformType := empty;
         newStatus := empty;
         sr_error := Some errorMessage;
         retryCount := None |}.

Definition retrySyncLog (syncLogId : string) (wooCommerceClient : option WooCommerceClient)
    : Async SyncResult :=
  try_catch (retry_attempt syncLogId wooCommerceClient) (retry_failure syncLogId).

(** [getFailedSyncs]: the failed rows still below the ceiling, oldest
    first, at most [limit] of them. *)
Definition getFailedSyncs (limit : nat) : Async (list OutboundSyncLog.t) :=
  let! r := db_select "integration_outbound_sync_logs"
              (fun w => List.filter
                          (fun l => String.eqb (OutboundSyncLog.result l) "FAILED"
                                    && (OutboundSyncLog.retry_count l <? 5))
                          (integration_outbound_sync_logs w))
              (fun rows => resolved (take limit rows)) in
  match error r with
  | Some msg => throw msg
  | None => ret (default [] (data r))
  end.

End OrderStatusSyncService.

(** ** IntegrationService *)

Module IntegrationService.

(** [if (error) throw error; return data]. *)
Definition unwrap {A : Type} (r : PostgrestResponse A) : Async (option A) :=
  match error r with
  | Some msg => throw msg
  | None => ret (data r)
  end.

Definition with_id (id : string) (w : World) : list Integration.t :=
  List.filter (fun i => String.eqb (Integration.id i) id) (integrations w).

Definition getIntegration (id : string) : Async (option Integration.t) :=
  let! r := db_select "integrations" (with_id id) single in
  unwrap r.

(** [.update(updates).eq('id', id).select().single()]: the rows with that
    id are changed, and anything but one such row is an error. *)
Definition updateIntegration (id : string) (updates : Integration.t → Integration.t)
    : Async (option Integration.t) :=
  let! r := db_update "integrations"
              (set_integrations
                 (map (fun i => if String.eqb (Integration.id i) id then updates i else i))) in
  match error r with
  | Some msg => throw msg
  | None => let! w := get in unwrap (single (with_id id w))
  end.

Definition createSyncLog (row : string → SyncLog.t) : Async SyncLog.t :=
  let! r := db_insert "integration_sync_logs"
              (fun w => map SyncLog.id (integration_sync_logs w)) row
              (fun r => set_sync_logs (fun l => l ++ [r])) in
  match error r, data r with
  | None, Some log => ret log
  | Some msg, _ => throw msg
  | None, None => throw "JSON object requested, multiple (or no) rows returned"
  end.

Definition updateSyncLog (id : string) (updates : SyncLog.t → SyncLog.t)
    : Async (option SyncLog.t) :=
  let! r := db_update "integration_sync_logs"
              (set_sync_logs
                 (map (fun l => if String.eqb (SyncLog.id l) id then updates l else l))) in
  match error r with
  | Some msg => throw msg
  | None =>
      let! w := get in
      unwrap (single (List.filter (fun l => String.eqb (SyncLog.id l) id)
                        (integration_sync_logs w)))
  end.

Definition getProductMappings (integrationId : string) : Async (list ProductMapping.t) :=
  let! r := db_select "product_mappings"
              (fun w => List.filter
                          (fun m => String.eqb (ProductMapping.integration_id m) integrationId)
                          (product_mappings w))
              resolved in
  let! rows := unwrap r in
  ret (default [] rows).

Definition queueWebhook (integrationId eventType : string) (payload : WooCommerceOrder)
    (signature : option string) : Async unit :=
  let! r := db_insert "webhook_queue" (fun _ => [])
              (fun _ => {| WebhookQueueEntry.integration_id := integrationId;
                           WebhookQueueEntry.event_type := eventType;
                           WebhookQueueEntry.payload := payload;
                           WebhookQueueEntry.signature := signature;
                           WebhookQueueEntry.status := "PENDING" |})
              (fun r => set_webhook_queue (fun l => l ++ [r])) in
  match error r with
  | Some msg => throw msg
  | None => ret tt
  end.

End IntegrationService.

(** The log row a pipeline opens before it starts. *)
Definition running_log (integrationId sync_type direction started : string) (new_id : string)
    : SyncLog.t :=
  {| SyncLog.id := new_id;
     SyncLog.integration_id := integrationId;
     SyncLog.sync_type := sync_type;
     SyncLog.direction := direction;
     SyncLog.status := "RUNNING";
     SyncLog.records_processed := 0;
     SyncLog.records_failed := 0;
     SyncLog.details := None;
     SyncLog.error_details := None;
     SyncLog.started_at := started;
     SyncLog.completed_at := None |}.

(** The [updates] object a pipeline passes to [updateSyncLog]; a field that
    is [undefined] leaves its column as it is. *)
Definition close_log (status : string) (processed failed_count : option Z)
    (completed : string) (details : option Details) (error_details : option ErrorDetails)
    (l : SyncLog.t) : SyncLog.t :=
  {| SyncLog.id := SyncLog.id l;
     SyncLog.integration_id := SyncLog.integration_id l;
     SyncLog.sync_type := SyncLog.sync_type l;
     SyncLog.direction := SyncLog.direction l;
     SyncLog.status := status;
     SyncLog.records_processed := default (SyncLog.records_processed l) processed;
     SyncLog.records_failed := default (SyncLog.records_failed l) failed_count;
     SyncLog.details := match details with Some d => Some d | None => SyncLog.details l end;
     SyncLog.error_details :=
       match error_details with Some d => Some d | None => SyncLog.error_details l end;
     SyncLog.started_at := SyncLog.started_at l;
     SyncLog.completed_at := Some completed |}.

(** The [updates] objects passed to [updateIntegration]. *)
Definition mark_connected (at_time : string) (i : Integration.t) : Integration.t :=
  {| Integration.id := Integration.id i;
     Integration.platform_type := Integration.platform_type i;
     Integration.name := Integration.name i;
     Integration.is_active := Integration.is_active i;
     Integration.config := Integration.config i;
     Integration.last_sync_at := Some at_time;
     Integration.sync_status := "CONNECTED";
     Integration.error_message := Integration.error_message i |}.

Definition mark_error (message : string) (i : Integration.t) : Integration.t :=
  {| Integration.id := Integration.id i;
     Integration.platform_type := Integration.platform_type i;
     Integration.name := Integration.name i;
     Integration.is_active := Integration.is_active i;
     Integration.config := Integration.config i;
     Integration.last_sync_at := Integration.last_sync_at i;
     Integration.sync_status := "ERROR";
     Integration.error_message := Some message |}.

(** The summary status of a run: no failure is a success, otherwise some
    record done is partial. *)
Definition run_status (failed done : Z) : string :=
  if failed =? 0 then "SUCCESS" else if 0 <? done then "PARTIAL" else "FAILED".

(** [errors.length > 0 ? { errors } : undefined]. *)
Definition error_list (errors : list string) : option ErrorDetails :=
  match errors with
  | [] => None
  | l => Some (ErrorList l)
  end.

(** The end of a run that went through: close the log with the status, the
    counts and the details of the run, mark the integration, return the
    results. *)
Definition finish_run {A : Type} (logId integrationId status : string)
    (records_processed records_failed : Z) (details : Details)
    (error_details : option ErrorDetails) (results : A) : Async A :=
  let! env := ask in
  IntegrationService.updateSyncLog logId
    (close_log status (Some records_processed) (Some records_failed) (now env)
       (Some details) error_details) ;;
  IntegrationService.updateIntegration integrationId (mark_connected (now env)) ;;
  ret results.

(** The [catch] of a run: close the log as failed, mark the integration,
    and throw the error again. *)
Definition fail_run {A : Type} (logId integrationId message : string) : Async A :=
  let! env := ask in
  IntegrationService.updateSyncLog logId
    (close_log "FAILED" None None (now env) None (Some (ErrorMessage message))) ;;
  IntegrationService.updateIntegration integrationId (mark_error message) ;;
  throw message.

(** The head of both runs: the integration must exist and be a storefront. *)
Definition storefront_integration (integrationId : string) : Async Integration.t :=
  let! found := IntegrationService.getIntegration integrationId in
  match found with
  | None => throw "Integration not found"
  | Some integration =>
      throw_if (negb (String.eqb (Integration.platform_type integration) "WOOCOMMERCE"))
        "Integration is not a WooCommerce integration" ;;
      ret integration
  end.

(** The frame both runs share: load the integration, open the log row,
    then run the [try] block under the [catch] that closes the log and throws
    again. *)
Definition logged_run {A : Type} (integrationId sync_type direction : string)
    (body : string → Async A) : Async A :=
  let! integration := storefront_integration integrationId in
  let! env := ask in
  let! syncLog := IntegrationService.createSyncLog
                    (running_log integrationId sync_type direction (now env)) in
  try_catch (body (SyncLog.id syncLog)) (fail_run (SyncLog.id syncLog) integrationId).

(** A [for ... of] loop whose body updates an accumulator. *)
Fixpoint for_of {A S : Type} (items : list A) (body : A → S → Async S) (s : S) : Async S :=
  match items with
  | [] => ret s
  | x :: rest => let! s' := body x s in for_of rest body s'
  end.

(** ** OrderImportService *)

(** [s.trim()], for the ASCII white space. *)
Definition rev_string (s : string) : string :=
  string_of_list_ascii (rev (list_ascii_of_string s)).

Definition trim (s : string) : string :=
  rev_string (skip_spaces (rev_string (skip_spaces s))).

Module OrderImportService.
Import ImportResults.

Definition mapWooCommerceStatusToWarehouse (wooStatus : string) : string :=
  if String.eqb wooStatus "pending" then "PROCESSING"
  else if String.eqb wooStatus "processing" then "PROCESSING"
  else if String.eqb wooStatus "on-hold" then "PROCESSING"
  else if String.eqb wooStatus "completed" then "DELIVERED"
  else if String.eqb wooStatus "cancelled" then "CANCELLED"
  else if String.eqb wooStatus "refunded" then "RETURNED"
  else if String.eqb wooStatus "failed" then "CANCELLED"
  else "PROCESSING".

(** The rows [orderExists] selects: same external id, same integration. *)
Definition matching (externalOrderId : Z) (integrationId : string) (w : World)
    : list OpsOrder.t :=
  List.filter
    (fun o => match OpsOrder.external_order_id o with
              | Some e => String.eqb e (pretty externalOrderId)
              | None => false
              end && String.eqb (OpsOrder.integration_id o) integrationId)
    (ops_orders w).

Definition orderExists (externalOrderId : Z) (integrationId : string) : Async bool :=
  let! r := db_select "ops_orders" (matching externalOrderId integrationId) maybeSingle in
  match error r with
  | Some _ => ret false
  | None => ret (bool_decide (is_Some (data r)))
  end.

Definition orderData (wooOrder : WooCommerceOrder) (integrationId : string)
    (new_id : string) : OpsOrder.t :=
  let shippingAddress := shipping wooOrder in
  let billingAddress := billing wooOrder in
  let useShipping := negb (falsy (Shipping.address_1 shippingAddress))
                     && negb (falsy (Shipping.city shippingAddress)) in
  {| OpsOrder.id := new_id;
     OpsOrder.order_code :=
       if falsy (order_key wooOrder) then "WOO-" +:+ pretty (wo_id wooOrder)
       else order_key wooOrder;
     OpsOrder.channel := "ONLINE";
     OpsOrder.status := mapWooCommerceStatusToWarehouse (wo_status wooOrder);
     OpsOrder.receiver :=
       if useShipping
       then trim (Shipping.first_name shippingAddress +:+ " "
                    +:+ Shipping.last_name shippingAddress)
       else trim (Billing.first_name billingAddress +:+ " "
                    +:+ Billing.last_name billingAddress);
     OpsOrder.address :=
       if useShipping then Shipping.address_1 shippingAddress
       else Billing.address_1 billingAddress;
     OpsOrder.address_line2 :=
       if useShipping then Shipping.address_2 shippingAddress
       else Billing.address_2 billingAddress;
     OpsOrder.city :=
       if useShipping then Shipping.city shippingAddress else Billing.city billingAddress;
     OpsOrder.state :=
       if useShipping then Shipping.state shippingAddress else Billing.state billingAddress;
     OpsOrder.postal_code :=
       if useShipping then Shipping.postcode shippingAddress
       else Billing.postcode billingAddress;
     OpsOrder.country :=
       if useShipping then Shipping.country shippingAddress
       else Billing.country billingAddress;
     OpsOrder.email := Billing.email billingAddress;
     OpsOrder.phone := Billing.phone billingAddress;
     OpsOrder.order_total := wo_total wooOrder;
     OpsOrder.notes :=
       if falsy (customer_note wooOrder) then None else Some (customer_note wooOrder);
     OpsOrder.order_date := date_created wooOrder;
     OpsOrder.external_order_id := Some (pretty (wo_id wooOrder));
     OpsOrder.integration_id := integrationId |}.

Definition orderItem (order_id : string) (item : WooLineItem) : OrderItem.t :=
  {| OrderItem.order_id := order_id;
     OrderItem.sku := if falsy (li_sku item) then None else Some (li_sku item);
     OrderItem.item_name := li_name item;
     OrderItem.quantity := li_quantity item;
     OrderItem.unit_price := li_price item;
     OrderItem.total_price := li_total item;
     OrderItem.is_gift := false;
     OrderItem.external_product_id := pretty (li_product_id item);
     OrderItem.external_variation_id :=
       if li_variation_id item =? 0 then None else Some (pretty (li_variation_id item)) |}.

(** The [try] block of [importOrder]. *)
Definition import_attempt (wooOrder : WooCommerceOrder) (integrationId : string)
    : Async ImportOrderResult :=
  let! exists_already := orderExists (wo_id wooOrder) integrationId in
  if exists_already : bool then
    ret {| io_success := false; io_orderId := None;
           externalOrderId := wo_id wooOrder;
           io_error := Some "Order already imported" |}
  else
    let! r := db_insert "ops_orders" (fun w => map OpsOrder.id (ops_orders w))
                (orderData wooOrder integrationId)
                (fun row => set_ops_orders (fun l => l ++ [row])) in
    match error r, data r with
    | Some msg, _ => throw ("Failed to create order: " +:+ msg)
    | None, None => throw "Cannot read properties of null (reading 'id')"
    | None, Some order =>
        let orderItems := map (orderItem (OpsOrder.id order)) (line_items wooOrder) in
        match orderItems with
        | [] => ret tt
        | _ =>
            (* a failure to store the items is only logged *)
            let! _ := db_insert_many "ops_order_items"
                        (set_ops_order_items (fun l => l ++ orderItems)) in
            ret tt
        end ;;
        ret {| io_success := true; io_orderId := Some (OpsOrder.id order);
               externalOrderId := wo_id wooOrder; io_error := None |}
    end.

Definition importOrder (wooOrder : WooCommerceOrder) (integrationId : string)
    : Async ImportOrderResult :=
  try_catch (import_attempt wooOrder integrationId)
    (fun message =>
       ret {| io_success := false; io_orderId := None;
              externalOrderId := wo_id wooOrder; io_error := Some message |}).

Record Options : Type := {
  opt_status : option string;
  opt_after : option string;
  opt_limit : option Z
}.

(** [x ? x : undefined] for the optional filters of the page request. *)
Definition truthy_opt (x : option string) : option string :=
  if falsy_opt x then None else x.

(** [options?.limit || 100]. *)
Definition per_page (options : option Options) : Z :=
  match options ≫= opt_limit with
  | Some n => if n =? 0 then 100 else n
  | None => 100
  end.

(** The three branches of the loop body on the outcome of one import. *)
Definition tally (wooOrder : WooCommerceOrder) (result : ImportOrderResult)
    (results : ImportResults.t) : ImportResults.t :=
  if io_success result then
    {| total := total results; imported := imported results + 1;
       skipped := skipped results; failed := failed results;
       errors := errors results |}
  else if match io_error result with
          | Some e => includes e "already imported"
          | None => false
          end then
    {| total := total results; imported := imported results;
       skipped := skipped results + 1; failed := failed results;
       errors := errors results |}
  else
    {| total := total results; imported := imported results;
       skipped := skipped results; failed := failed results + 1;
       errors := errors results ++
                 ["Order " +:+ pretty (wo_id wooOrder) +:+ ": "
                    +:+ show_undefined (io_error result)] |}.

Definition import_one (integrationId : string) (wooOrder : WooCommerceOrder)
    (results : ImportResults.t) : Async ImportResults.t :=
  let! result := importOrder wooOrder integrationId in
  ret (tally wooOrder result results).

(** The [try] block of [importOrdersFromWooCommerce]. *)
Definition import_run (integrationId logId : string) (options : option Options)
    : Async ImportResults.t :=
  let status := truthy_opt (options ≫= opt_status) in
  let after := truthy_opt (options ≫= opt_after) in
  let! page := request (WooGetOrders (per_page options) status after)
                 (fun env => woo_getOrders env (per_page options) status after) in
  match page with
  | inl msg => throw msg
  | inr orders =>
      let results :=
        {| total := Z.of_nat (length orders); imported := 0; skipped := 0; failed := 0;
           errors := [] |} in
      let! results := for_of orders (import_one integrationId) results in
      finish_run logId integrationId (run_status (failed results) (imported results))
        (imported results + skipped results) (failed results) (ImportDetails results)
        (error_list (errors results)) results
  end.

Definition importOrdersFromWooCommerce (integrationId : string) (options : option Options)
    : Async ImportResults.t :=
  let! integration := storefront_integration integrationId in
  let! env := ask in
  let! syncLog := IntegrationService.createSyncLog
                    (running_log integrationId "ORDER_IMPORT" "INBOUND" (now env)) in
  try_catch (import_run integrationId (SyncLog.id syncLog) options)
    (fail_run (SyncLog.id syncLog) integrationId).

Definition processWebhookOrder (integrationId : string) (wooOrder : WooCommerceOrder)
    : Async ImportOrderResult :=
  let! env := ask in
  let! syncLog := IntegrationService.createSyncLog
                    (running_log integrationId "WEBHOOK" "INBOUND" (now env)) in
  try_catch
    (let! result := importOrder wooOrder integrationId in
     IntegrationService.updateSyncLog (SyncLog.id syncLog)
       (close_log (if io_success result then "SUCCESS" else "FAILED")
          (Some (if io_success result then 1 else 0))
          (Some (if io_success result then 0 else 1))
          (now env) (Some (OrderDetails result))
          (if falsy_opt (io_error result) then None
           else ErrorMessage <$> io_error result)) ;;
     ret result)
    (fun message =>
       IntegrationService.updateSyncLog (SyncLog.id syncLog)
         (close_log "FAILED" None (Some 1) (now env) None (Some (ErrorMessage message))) ;;
       throw message).

End OrderImportService.

(** ** InventorySyncService *)

Module InventorySyncService.
Import InventorySyncResult.

(** [data?.field ?? 0]: no row, or a row with a [null] field, is [0]. *)
Definition or_zero {A : Type} (field : A → option Z) (row : option A) : Z :=
  default 0 (row ≫= field).

(** [if (error) return null; return data?.field ?? 0]. *)
Definition quantity_of {A : Type} (field : A → option Z) (r : PostgrestResponse A)
    : option Z :=
  match error r with
  | Some _ => None
  | None => Some (or_zero field (data r))
  end.

Definition getWarehouseInventory (productId productType : string)
    (variationId : option string) : Async (option Z) :=
  if String.eqb productType "CIGAR" && negb (falsy_opt variationId) then
    let! r := db_select "inventory_cigars"
                (fun w => List.filter
                            (fun r => String.eqb (InventoryCigar.product_id r) productId
                                      && String.eqb (InventoryCigar.variation_id r)
                                           (default empty variationId))
                            (inventory_cigars w))
                maybeSingle in
    ret (quantity_of InventoryCigar.available r)
  else if String.eqb productType "BUNDLE" then
    let! r := db_select "bundles"
                (fun w => List.filter (fun r => String.eqb (Stocked.id r) productId)
                            (bundles w))
                maybeSingle in
    ret (quantity_of Stocked.stock_quantity r)
  else if String.eqb productType "ACCESSORY" then
    let! r := db_select "accessories"
                (fun w => List.filter (fun r => String.eqb (Stocked.id r) productId)
                            (accessories w))
                maybeSingle in
    ret (quantity_of Stocked.stock_quantity r)
  else ret None.

Record Options : Type := {
  warehouseProductIds : option (list string);
  forceSync : option bool
}.

(** The state of the loop: the running result and the batch [updates]. *)
Definition LoopState : Type := InventorySyncResult.t * list (option Z * Z).

Definition touch (mappingId at_time : string) (m : ProductMapping.t) : ProductMapping.t :=
  if String.eqb (ProductMapping.id m) mappingId then
    {| ProductMapping.id := ProductMapping.id m;
       ProductMapping.integration_id := ProductMapping.integration_id m;
       ProductMapping.warehouse_product_id := ProductMapping.warehouse_product_id m;
       ProductMapping.warehouse_product_type := ProductMapping.warehouse_product_type m;
       ProductMapping.warehouse_variation_id := ProductMapping.warehouse_variation_id m;
       ProductMapping.external_product_id := ProductMapping.external_product_id m;
       ProductMapping.external_variation_id := ProductMapping.external_variation_id m;
       ProductMapping.sku := ProductMapping.sku m;
       ProductMapping.sync_inventory := ProductMapping.sync_inventory m;
       ProductMapping.last_synced_at := Some at_time |}
  else m.

(** [external_variation_id ? parseInt(external_variation_id) : null], as
    the condition [if (variationId)] sees it: [null], [NaN] and [0] are
    falsy. *)
Definition variation_of (m : ProductMapping.t) : option Z :=
  match ProductMapping.external_variation_id m with
  | None => None
  | Some v =>
      if falsy v then None
      else match parseInt v with
           | Some 0 => None
           | other => other
           end
  end.

Definition count_skipped (message : string) (r : InventorySyncResult.t)
    : InventorySyncResult.t :=
  {| total := total r; synced := synced r; skipped := skipped r + 1;
     failed := failed r; errors := errors r ++ [message] |}.

Definition count_synced (r : InventorySyncResult.t) : InventorySyncResult.t :=
  {| total := total r; synced := synced r + 1; skipped := skipped r;
     failed := failed r; errors := errors r |}.

Definition count_failed (message : string) (r : InventorySyncResult.t)
    : InventorySyncResult.t :=
  {| total := total r; synced := synced r; skipped := skipped r;
     failed := failed r + 1; errors := errors r ++ [message] |}.

Definition note_error (message : string) (r : InventorySyncResult.t)
    : InventorySyncResult.t :=
  {| total := total r; synced := synced r; skipped := skipped r;
     failed := failed r; errors := errors r ++ [message] |}.

(** The body of the loop over the mappings, with its own [try]/[catch]. *)
Definition sync_one (mapping : ProductMapping.t) (s : LoopState) : Async LoopState :=
  let '(results, updates) := s in
  try_catch
    (let! inventory := getWarehouseInventory
                         (ProductMapping.warehouse_product_id mapping)
                         (ProductMapping.warehouse_product_type mapping)
                         (ProductMapping.warehouse_variation_id mapping) in
     match inventory with
     | None =>
         ret (count_skipped
                ("Product " +:+ ProductMapping.warehouse_product_id mapping
                   +:+ " not found in warehouse") results, updates)
     | Some stock =>
         let productId := parseInt (ProductMapping.external_product_id mapping) in
         let! updates' :=
           match variation_of mapping with
           | Some variationId =>
               let! failure :=
                 request (WooUpdateProductVariationStock productId variationId stock)
                   (fun env => woo_updateProductVariationStock env productId
                                 variationId stock) in
               match failure with
               | Some msg => throw msg
               | None => ret updates
               end
           | None => ret (updates ++ [(productId, stock)])
           end in
         let! env := ask in
         let! _ := db_update "product_mappings"
                     (set_product_mappings
                        (map (touch (ProductMapping.id mapping) (now env)))) in
         ret (count_synced results, updates')
     end)
    (fun message =>
       ret (count_failed ("Mapping " +:+ ProductMapping.id mapping +:+ ": " +:+ message)
              results, updates)).

(** The mappings of the run: those with inventory sync enabled, and, when
    product ids are given, those among them. *)
Definition selected (options : option Options) (mappings : list ProductMapping.t)
    : list ProductMapping.t :=
  let enabled := List.filter ProductMapping.sync_inventory mappings in
  match options ≫= warehouseProductIds with
  | Some (id :: ids) =>
      List.filter
        (fun m => existsb (String.eqb (ProductMapping.warehouse_product_id m)) (id :: ids))
        enabled
  | _ => enabled
  end.

(** The [try] block of [syncInventoryToWooCommerce]. *)
Definition export_run (integrationId logId : string) (options : option Options)
    : Async InventorySyncResult.t :=
  let! mappings := IntegrationService.getProductMappings integrationId in
  let mappings := selected options mappings in
  let results :=
    {| total := Z.of_nat (length mappings); synced := 0; skipped := 0; failed := 0;
       errors := [] |} in
  let! s := for_of mappings sync_one (results, []) in
  let '(results, updates) := s in
  let! results :=
    match updates with
    | [] => ret results
    | _ =>
        let! failure := request (WooBatchUpdateProducts updates)
                          (fun env => woo_batchUpdateProducts env updates) in
        match failure with
        | Some msg => ret (note_error ("Batch update failed: " +:+ msg) results)
        | None => ret results
        end
    end in
  finish_run logId integrationId (run_status (failed results) (synced results))
    (synced results + skipped results) (failed results) (ExportDetails results)
    (error_list (errors results)) results.

Definition syncInventoryToWooCommerce (integrationId : string) (options : option Options)
    : Async InventorySyncResult.t :=
  let! integration := storefront_integration integrationId in
  let! env := ask in
  let! syncLog := IntegrationService.createSyncLog
                    (running_log integrationId "INVENTORY_EXPORT" "OUTBOUND" (now env)) in
  try_catch (export_run integrationId (SyncLog.id syncLog) options)
    (fail_run (SyncLog.id syncLog) integrationId).

End InventorySyncService.

(** ** WooCommerceClient: the request signer *)

Module WooCommerceClient.

(** *** [encodeURIComponent]

    A string is its UTF-8 bytes; every byte but the unreserved ones
    ([A-Z a-z 0-9 - _ . ! ~ * ' ( )]) becomes [%XX], in upper-case
    hexadecimal. *)

Definition unreserved (c : ascii) : bool :=
  let n := N_of_ascii c in
  ((N.leb 65 n && N.leb n 90) || (N.leb 97 n && N.leb n 122)
   || (N.leb 48 n && N.leb n 57)
   || N.eqb n 45 || N.eqb n 95 || N.eqb n 46 || N.eqb n 33 || N.eqb n 126
   || N.eqb n 42 || N.eqb n 39 || N.eqb n 40 || N.eqb n 41)%N.

Definition hex_digit (n : N) : ascii :=
  if (n <? 10)%N then ascii_of_N (48 + n) else ascii_of_N (55 + n).

Definition percent (c : ascii) : string :=
  let n := N_of_ascii c in
  String "%" (String (hex_digit (n / 16)%N) (String (hex_digit (n mod 16)%N) EmptyString)).

Fixpoint encodeURIComponent (s : string) : string :=
  match s with
  | EmptyString => EmptyString
  | String c rest =>
      if unreserved c then String c (encodeURIComponent rest)
      else percent c +:+ encodeURIComponent rest
  end.

(** [s.toUpperCase()], for the ASCII letters: on ASCII text this is all
    of it; beyond, JavaScript maps other letters too. *)
Definition upper (c : ascii) : ascii :=
  let n := N_of_ascii c in
  if (N.leb 97 n && N.leb n 122)%N then ascii_of_N (n - 32) else c.

Fixpoint toUpperCase (s : string) : string :=
  match s with
  | EmptyString => EmptyString
  | String c rest => String (upper c) (toUpperCase rest)
  end.

(** [parts.join('&')]. *)
Fixpoint join (sep : string) (parts : list string) : string :=
  match parts with
  | [] => EmptyString
  | [p] => p
  | p :: rest => p +:+ sep +:+ join sep rest
  end.

(** [keys.sort()]: the keys of an object are distinct, so every sorting
    algorithm gives the one ascending list; insertion is the simplest.  The
    order is that of the bytes, which is the order of the UTF-16 code units
    JavaScript compares for keys within the Basic Multilingual Plane. *)
Fixpoint insert_sorted (k : string) (sorted : list string) : list string :=
  match sorted with
  | [] => [k]
  | x :: rest => if String.leb k x then k :: sorted else x :: insert_sorted k rest
  end.

Definition sort (keys : list string) : list string :=
  foldr insert_sorted [] keys.

(** [Object.keys(params)]. *)
Definition keys (params : gmap string string) : list string :=
  (map_to_list params).*1.

(** [params[key]]. *)
Definition value (params : gmap string string) (key : string) : string :=
  default "undefined" (params !! key).

Definition sortedParams (params : gmap string string) : string :=
  join "&"
    (map (fun key => encodeURIComponent key +:+ "=" +:+ encodeURIComponent (value params key))
       (sort (keys params))).

Definition signatureBaseString (method url : string) (params : gmap string string) : string :=
  join "&" [toUpperCase method; encodeURIComponent url;
            encodeURIComponent (sortedParams params)].

Definition signingKey (config : IntegrationConfig) : string :=
  encodeURIComponent (consumerSecret config) +:+ "&".

Definition generateOAuthSignature (env : Env) (config : IntegrationConfig)
    (method url : string) (params : gmap string string) : string :=
  hmac_sha256_base64 env (signingKey config) (signatureBaseString method url params).

Definition verifyWebhookSignature (env : Env) (payload signature secret : string) : bool :=
  String.eqb (hmac_sha256_base64 env secret payload) signature.

(** *** The canonical form as the specification words it

    Every key and every value is percent-encoded first, and the encoded
    entries are then sorted by their encoded key. *)

Fixpoint insert_entry (e : string * string) (sorted : list (string * string))
    : list (string * string) :=
  match sorted with
  | [] => [e]
  | x :: rest => if String.leb e.1 x.1 then e :: sorted else x :: insert_entry e rest
  end.

Definition spec_sortedParams (params : gmap string string) : string :=
  join "&"
    (map (fun e => e.1 +:+ "=" +:+ e.2)
       (foldr insert_entry []
          (map (fun e => (encodeURIComponent e.1, encodeURIComponent e.2))
             (map_to_list params)))).

Definition spec_signatureBaseString (method url : string) (params : gmap string string)
    : string :=
  join "&" [toUpperCase method; encodeURIComponent url;
            encodeURIComponent (spec_sortedParams params)].

Definition spec_signature (env : Env) (config : IntegrationConfig)
    (method url : string) (params : gmap string string) : string :=
  hmac_sha256_base64 env (signingKey config) (spec_signatureBaseString method url params).

End WooCommerceClient.

(** ** The webhook route *)

Module WebhooksRoutes.

Record Request : Type := {
  integrationId : string;                       (* [req.params] *)
  x_wc_webhook_signature : option string;       (* the headers *)
  x_wc_webhook_topic : option string;
  x_wc_webhook_event : option string;
  body : WooCommerceOrder
}.

Record Response : Type := {
  status : Z;
  json_success : bool;
  json_text : string      (* the [error] or the [message] of the body *)
}.

Definition respond (status : Z) (ok : bool) (text : string) : Async Response :=
  ret {| status := status; json_success := ok; json_text := text |}.

(** [webhookSecret && signature]: both present and non-empty. *)
Definition must_verify (webhookSecret signature : option string)
    : option (string * string) :=
  match webhookSecret, signature with
  | Some secret, Some sig =>
      if falsy secret || falsy sig then None else Some (secret, sig)
  | _, _ => None
  end.

(** [topic || event || 'unknown']. *)
Definition event_name (topic event : option string) : string :=
  if negb (falsy_opt topic) then default empty topic
  else if negb (falsy_opt event) then default empty event
  else "unknown".

Definition is_order_topic (topic : option string) : bool :=
  match topic with
  | Some t => String.eqb t "order.created" || String.eqb t "order.updated"
  | None => false
  end.

(** The end of the [try] block, past the gate: queue the delivery, import
    the order of an order topic (a failure there is only logged), answer. *)
Definition accept (req : Request) : Async Response :=
  let topic := x_wc_webhook_topic req in
  let event := x_wc_webhook_event req in
  IntegrationService.queueWebhook (integrationId req) (event_name topic event)
    (body req) (x_wc_webhook_signature req) ;;
  (if is_order_topic topic then
     try_catch
       (OrderImportService.processWebhookOrder (integrationId req) (body req) ;;
        ret tt)
       (fun _ => ret tt)
   else ret tt) ;;
  respond 200 true "Webhook received".

(** The [try] block of [POST /woocommerce/:integrationId]. *)
Definition receive (req : Request) : Async Response :=
  let signature := x_wc_webhook_signature req in
  let payload := body req in
  let! found := IntegrationService.getIntegration (integrationId req) in
  match found with
  | None => respond 404 false "Integration not found"
  | Some integration =>
      if negb (Integration.is_active integration) then
        respond 400 false "Integration is not active"
      else
        let! env := ask in
        let isValid :=
          match must_verify (webhookSecret (Integration.config integration)) signature with
          | Some (secret, sig) =>
              WooCommerceClient.verifyWebhookSignature env (JSON_stringify env payload)
                sig secret
          | None => true
          end in
        if negb isValid then respond 401 false "Invalid webhook signature"
        else accept req
  end.

Definition post_woocommerce (req : Request) : Async Response :=
  try_catch (receive req) (fun message => respond 500 false message).

End WebhooksRoutes.

(** ** Concrete stores and environments *)

Module Samples.

Definition config : IntegrationConfig :=
  {| siteUrl := "https://shop.example"; consumerKey := "ck_1"; consumerSecret := "cs_1";
     version := None; apiKey := Some "kb_key"; webhookSecret := Some "whsec" |}.

Definition client : WooCommerceClient := {| client_config := config |}.

(** A day on which the store and both platforms answer every request. *)
Definition calm : Env :=
  {| db_error := fun _ _ => None;
     gen_id := fun table ids => table +:+ "-" +:+ pretty (length ids);
     now := "2024-05-01T10:00:00.000Z";
     woo_updateOrderStatus := fun _ _ => None;
     woo_getOrders := fun _ _ _ => inr [];
     woo_updateProductVariationStock := fun _ _ _ => None;
     woo_batchUpdateProducts := fun _ => None;
     kubacco_fetch := fun _ _ _ => FetchResponse true 200 None;
     hmac_sha256_base64 := fun key msg => key +:+ "/" +:+ msg;
     JSON_stringify := fun o => pretty (wo_id o) |}.

(** The same day with the storefront unreachable. *)
Definition storefront_down : Env :=
  {| db_error := db_error calm; gen_id := gen_id calm; now := now calm;
     woo_updateOrderStatus := fun _ _ => Some "connect ECONNREFUSED";
     woo_getOrders := fun _ _ _ => inl "connect ECONNREFUSED";
     woo_updateProductVariationStock := fun _ _ _ => Some "connect ECONNREFUSED";
     woo_batchUpdateProducts := fun _ => Some "connect ECONNREFUSED";
     kubacco_fetch := kubacco_fetch calm;
     hmac_sha256_base64 := hmac_sha256_base64 calm;
     JSON_stringify := JSON_stringify calm |}.

(** The same day with the storefront delivering one order twice in a page. *)
Definition page_with_duplicate (wooOrder : WooCommerceOrder) : Env :=
  {| db_error := db_error calm; gen_id := gen_id calm; now := now calm;
     woo_updateOrderStatus := woo_updateOrderStatus calm;
     woo_getOrders := fun _ _ _ => inr [wooOrder; wooOrder];
     woo_updateProductVariationStock := woo_updateProductVariationStock calm;
     woo_batchUpdateProducts := woo_batchUpdateProducts calm;
     kubacco_fetch := kubacco_fetch calm;
     hmac_sha256_base64 := hmac_sha256_base64 calm;
     JSON_stringify := JSON_stringify calm |}.


Definition integration (id platform_type : string) : Integration.t :=
  {| Integration.id := id; Integration.platform_type := platform_type;
     Integration.name := "shop"; Integration.is_active := true;
     Integration.config := config; Integration.last_sync_at := None;
     Integration.sync_status := "CONNECTED"; Integration.error_message := None |}.

Definition order (id channel integration_id : string) (external : option string)
    : OpsOrder.t :=
  {| OpsOrder.id := id; OpsOrder.order_code := "WOO-" +:+ id;
     OpsOrder.channel := channel; OpsOrder.status := "PROCESSING";
     OpsOrder.receiver := "Ada Byron"; OpsOrder.address := "1 Mill Lane";
     OpsOrder.address_line2 := empty; OpsOrder.city := "Leeds";
     OpsOrder.state := empty; OpsOrder.postal_code := "LS1"; OpsOrder.country := "GB";
     OpsOrder.email := "ada@example.org"; OpsOrder.phone := "0113";
     OpsOrder.order_total := "12.50"; OpsOrder.notes := None;
     OpsOrder.order_date := "2024-04-30T09:00:00"; OpsOrder.external_order_id := external;
     OpsOrder.integration_id := integration_id |}.

Definition log (id order_id integration_id platform_type channel result : string)
    (retry_count : Z) : OutboundSyncLog.t :=
  {| OutboundSyncLog.id := id; OutboundSyncLog.order_id := order_id;
     OutboundSyncLog.integration_id := integration_id;
     OutboundSyncLog.platform_type := platform_type;
     OutboundSyncLog.channel := channel; OutboundSyncLog.old_status := "PROCESSING";
     OutboundSyncLog.new_status := "SHIPPED"; OutboundSyncLog.result := result;
     OutboundSyncLog.error_message := None; OutboundSyncLog.retry_count := retry_count;
     OutboundSyncLog.last_retry_at := None; OutboundSyncLog.synced_at := None |}.

(** Parameter sets of a request: the OAuth and query keys the client sends,
    and two keys on which percent-encoding changes the order. *)
Definition order_query : gmap string string :=
  <["oauth_nonce" := "ab12"]> (<["status" := "on hold"]>
    (<["oauth_consumer_key" := "ck_1"]> ∅)).

Definition odd_keys : gmap string string :=
  <["a/" := "2"]> (<["a-" := "1"]> ∅).

Definition orders_url : string := "https://shop.example/wp-json/wc/v3/orders".

(** A webhook delivery for the storefront integration that carries no
    signature header. *)
Definition unsigned_delivery : WebhooksRoutes.Request :=
  {| WebhooksRoutes.integrationId := "int-woo";
     WebhooksRoutes.x_wc_webhook_signature := None;
     WebhooksRoutes.x_wc_webhook_topic := Some "order.created";
     WebhooksRoutes.x_wc_webhook_event := None;
     WebhooksRoutes.body :=
       {| wo_id := 900; order_key := "wc_order_forged"; wo_status := "completed";
          wo_total := "0.00"; date_created := "2024-05-01T09:59:00";
          billing := {| Billing.first_name := "Eve"; Billing.last_name := empty;
                        Billing.address_1 := "nowhere"; Billing.address_2 := empty;
                        Billing.city := "nowhere"; Billing.state := empty;
                        Billing.postcode := empty; Billing.country := empty;
                        Billing.email := "eve@example.org"; Billing.phone := empty |};
          shipping := {| Shipping.first_name := empty; Shipping.last_name := empty;
                         Shipping.address_1 := empty; Shipping.address_2 := empty;
                         Shipping.city := empty; Shipping.state := empty;
                         Shipping.postcode := empty; Shipping.country := empty |};
          line_items := []; customer_note := empty |} |}.

(** The same delivery with a signature that does not verify. *)
Definition forged_delivery : WebhooksRoutes.Request :=
  {| WebhooksRoutes.integrationId := "int-woo";
     WebhooksRoutes.x_wc_webhook_signature := Some "bm90IHRoZSBzaWduYXR1cmU=";
     WebhooksRoutes.x_wc_webhook_topic := Some "order.created";
     WebhooksRoutes.x_wc_webhook_event := None;
     WebhooksRoutes.body := WebhooksRoutes.body unsigned_delivery |}.

Definition nothing : World :=
  {| ops_orders := []; ops_order_items := []; integrations := [];
     integration_outbound_sync_logs := []; integration_sync_logs := [];
     product_mappings := []; inventory_cigars := []; bundles := []; accessories := [];
     webhook_queue := []; requests := [] |}.

(** One storefront integration, one wholesale-app integration, one online
    order on the first and one wholesale order wrongly tied to it. *)
Definition shop : World :=
  set_integrations (fun _ => [integration "int-woo" "WOOCOMMERCE";
                              integration "int-kub" "KUBACCO_APP"])
    (set_ops_orders (fun _ => [order "o-1" "ONLINE" "int-woo" (Some "501");
                               order "o-2" "WHOLESALE" "int-woo" (Some "502");
                               order "o-3" "WHOLESALE" "int-kub" (Some "K-7")])
       nothing).

(** The shop after a status push on the online order went through: its
    success row sits in the log with the given retry count. *)
Definition shop_with_log (retry_count : Z) : World :=
  set_outbound_logs
    (fun _ => [log "log-1" "o-1" "int-woo" "WOOCOMMERCE" "ONLINE" "SUCCESS" retry_count])
    shop.

(** The shop after the status push on the mismatched wholesale order
    failed: the result returned and the row written. *)
Definition segregation_message : string :=
  "Channel segregation violation: WHOLESALE orders cannot sync to WOOCOMMERCE. Expected: KUBACCO_APP".

Definition failed_push_result : SyncResult :=
  {| success := false; syncLogId := "integration_outbound_sync_logs-0";
     orderId := "o-2"; platformType := "UNKNOWN"; newStatus := "SHIPPED";
     sr_error := Some segregation_message; retryCount := None |}.

Definition failed_row : OutboundSyncLog.t :=
  {| OutboundSyncLog.id := "integration_outbound_sync_logs-0";
     OutboundSyncLog.order_id := "o-2"; OutboundSyncLog.integration_id := empty;
     OutboundSyncLog.platform_type := "UNKNOWN"; OutboundSyncLog.channel := empty;
     OutboundSyncLog.old_status := empty; OutboundSyncLog.new_status := "SHIPPED";
     OutboundSyncLog.result := "FAILED";
     OutboundSyncLog.error_message := Some segregation_message;
     OutboundSyncLog.retry_count := 0; OutboundSyncLog.last_retry_at := None;
     OutboundSyncLog.synced_at := None |}.

Definition shop_after_failed_push : World :=
  set_outbound_logs (fun l => l ++ [failed_row]) shop.

Definition address : Billing.t :=
  {| Billing.first_name := "Ada"; Billing.last_name := "Byron";
     Billing.address_1 := "1 Mill Lane"; Billing.address_2 := empty;
     Billing.city := "Leeds"; Billing.state := empty; Billing.postcode := "LS1";
     Billing.country := "GB"; Billing.email := "ada@example.org";
     Billing.phone := "0113" |}.

Definition no_shipping : Shipping.t :=
  {| Shipping.first_name := empty; Shipping.last_name := empty;
     Shipping.address_1 := empty; Shipping.address_2 := empty;
     Shipping.city := empty; Shipping.state := empty; Shipping.postcode := empty;
     Shipping.country := empty |}.

Definition wooOrder (id : Z) : WooCommerceOrder :=
  {| wo_id := id; order_key := "wc_order_k"; wo_status := "processing";
     wo_total := "12.50"; date_created := "2024-04-30T09:00:00";
     billing := address; shipping := no_shipping;
     line_items := [{| li_name := "Robusto"; li_product_id := 11; li_variation_id := 0;
                       li_quantity := 2; li_sku := "ROB-1"; li_price := "6.25";
                       li_total := "12.50" |}];
     customer_note := empty |}.

Definition mapping (id product kind external : string) : ProductMapping.t :=
  {| ProductMapping.id := id; ProductMapping.integration_id := "int-woo";
     ProductMapping.warehouse_product_id := product;
     ProductMapping.warehouse_product_type := kind;
     ProductMapping.warehouse_variation_id := None;
     ProductMapping.external_product_id := external;
     ProductMapping.external_variation_id := None;
     ProductMapping.sku := None; ProductMapping.sync_inventory := true;
     ProductMapping.last_synced_at := None |}.

(** Two bundle mappings: the bundle [b-1] is in the warehouse with no
    stock left, the bundle [b-2] is not in the warehouse at all. *)
Definition warehouse : World :=
  {| ops_orders := []; ops_order_items := [];
     integrations := [integration "int-woo" "WOOCOMMERCE"];
     integration_outbound_sync_logs := []; integration_sync_logs := [];
     product_mappings := [mapping "m-1" "b-1" "BUNDLE" "71";
                          mapping "m-2" "b-2" "BUNDLE" "72"];
     inventory_cigars := [];
     bundles := [{| Stocked.id := "b-1"; Stocked.stock_quantity := Some 0 |}];
     accessories := []; webhook_queue := []; requests := [] |}.





End Samples.

(** ** The statements under test

    Predicates that word a property the way the specification does, so that
    it can be tried on a store. *)

Module Stated.
Import OrderStatusSyncService.

(** What the lookups of the status push find. *)
Definition the_order (w : World) (orderId : string) : option OpsOrder.t :=
  data (maybeSingle (orders_with_id orderId w)).

Definition the_integration (w : World) (integrationId : string) : option Integration.t :=
  data (maybeSingle (integrations_with_id integrationId w)).

Definition the_log (w : World) (syncLogId : string) : option OutboundSyncLog.t :=
  data (maybeSingle (logs_with_id syncLogId w)).

(** A row as the [catch] of the first attempt writes it. *)
Definition failure_row (orderId newStatus message : string) (row : OutboundSyncLog.t)
    : Prop :=
  OutboundSyncLog.result row = "FAILED"
  ∧ OutboundSyncLog.platform_type row = "UNKNOWN"
  ∧ OutboundSyncLog.integration_id row = empty
  ∧ OutboundSyncLog.channel row = empty
  ∧ OutboundSyncLog.old_status row = empty
  ∧ OutboundSyncLog.order_id row = orderId
  ∧ OutboundSyncLog.new_status row = newStatus
  ∧ OutboundSyncLog.error_message row = Some message
  ∧ OutboundSyncLog.retry_count row = 0.

(** A row as a successful branch writes it. *)
Definition success_row (platform_type old_status new_status : string)
    (row : OutboundSyncLog.t) : Prop :=
  OutboundSyncLog.result row = "SUCCESS"
  ∧ OutboundSyncLog.platform_type row = platform_type
  ∧ OutboundSyncLog.old_status row = old_status
  ∧ OutboundSyncLog.new_status row = new_status
  ∧ OutboundSyncLog.retry_count row = 0.

(** The request a branch sends for a status. *)
Definition pushes (platform_type new_status : string) (call : PlatformCall) : Prop :=
  match call with
  | WooUpdateOrderStatus _ status =>
      platform_type = "WOOCOMMERCE" ∧ status = mapToWooCommerceStatus new_status
  | KubaccoUpdateOrderStatus _ _ status =>
      platform_type = "KUBACCO_APP" ∧ status = mapToKubaccoStatus new_status
  | _ => False
  end.


(** The failure record names the actual platform type and channel whenever
    the order and the integration were found. *)
Definition records_actual_platform (env : Env) (w : World) (orderId newStatus : string)
    (client : option WooCommerceClient) : Prop :=
  ∀ e w1 o i,
    sync_attempt orderId newStatus client env w = (Throw e, w1) →
    the_order w orderId = Some o →
    the_integration w (OpsOrder.integration_id o) = Some i →
    ∃ r w' row,
      syncStatusToExternalPlatform orderId newStatus client env w = (Normal r, w')
      ∧ integration_outbound_sync_logs w' = integration_outbound_sync_logs w ++ [row]
      ∧ OutboundSyncLog.result row = "FAILED"
      ∧ OutboundSyncLog.platform_type row = Integration.platform_type i
      ∧ OutboundSyncLog.channel row = OpsOrder.channel o.

(** The retry of a failed row ends in the unknown-platform branch. *)
Definition retry_ends_in_unknown_platform (env : Env) (w : World) (syncLogId : string)
    (client : option WooCommerceClient) : Prop :=
  ∀ l, In l (integration_outbound_sync_logs w) →
       OutboundSyncLog.id l = syncLogId →
       OutboundSyncLog.result l = "FAILED" →
    ∃ r w',
      retrySyncLog syncLogId client env w = (Normal r, w')
      ∧ success r = false
      ∧ requests w' = requests w
      ∧ sr_error r = Some "Unknown platform type: UNKNOWN".

(** Text on which the string functions of the model are the JavaScript
    ones.  A string is its UTF-8 bytes.  [toUpperCase] is modelled on the
    ASCII letters, which is all of it on ASCII text; [sort] compares bytes,
    which is the order of the UTF-16 code units that [Array.prototype.sort]
    compares as long as no character lies outside the Basic Multilingual
    Plane, that is, as long as no byte is [0xF0] or above. *)
Definition ascii_text (s : string) : bool :=
  forallb (fun c => (N_of_ascii c <? 128)%N) (list_ascii_of_string s).

Definition bmp_text (s : string) : bool :=
  forallb (fun c => (N_of_ascii c <? 240)%N) (list_ascii_of_string s).

(** Entries in ascending order of their raw keys. *)
Definition ascending_by_raw_key (entries : list (string * string)) : Prop :=
  StronglySorted (fun a b => String.ltb a.1 b.1 = true) entries.

(** The parameter string of a list of entries: [encode(key)=encode(value)],
    joined by [&], in the order of the list. *)
Definition parameter_string (entries : list (string * string)) : string :=
  WooCommerceClient.join "&"
    (map (fun e => WooCommerceClient.encodeURIComponent e.1 +:+ "="
                     +:+ WooCommerceClient.encodeURIComponent e.2)
       entries).

(** The message handed to the keyed hash is the one the specification
    builds: entries encoded first, then sorted by encoded key. *)
Definition signs_canonical_form (method url : string) (params : gmap string string)
    : Prop :=
  WooCommerceClient.signatureBaseString method url params
  = WooCommerceClient.spec_signatureBaseString method url params.


(** The key the store gives the log row of a run, and that row once the
    [catch] of the run has closed it. *)
Definition run_log_id (env : Env) (w : World) : string :=
  gen_id env "integration_sync_logs" (map SyncLog.id (integration_sync_logs w)).








(** A request is authenticated when it carries a signature that verifies
    against the secret stored for the integration. *)
Definition authenticated (env : Env) (i : Integration.t) (req : WebhooksRoutes.Request)
    : Prop :=
  ∃ secret sig,
    webhookSecret (Integration.config i) = Some secret
    ∧ WebhooksRoutes.x_wc_webhook_signature req = Some sig
    ∧ WooCommerceClient.verifyWebhookSignature env
        (JSON_stringify env (WebhooksRoutes.body req)) sig secret = true.

(** The entry [queueWebhook] appends for a request. *)
Definition queued_entry (req : WebhooksRoutes.Request) : WebhookQueueEntry.t :=
  {| WebhookQueueEntry.integration_id := WebhooksRoutes.integrationId req;
     WebhookQueueEntry.event_type :=
       WebhooksRoutes.event_name (WebhooksRoutes.x_wc_webhook_topic req)
         (WebhooksRoutes.x_wc_webhook_event req);
     WebhookQueueEntry.payload := WebhooksRoutes.body req;
     WebhookQueueEntry.signature := WebhooksRoutes.x_wc_webhook_signature req;
     WebhookQueueEntry.status := "PENDING" |}.

(** A request let through the gate: it is queued and answered 200, or the
    queue refuses it and the answer is 500. *)
Definition let_through (env : Env) (w w' : World) (req : WebhooksRoutes.Request)
    (resp : WebhooksRoutes.Response) : Prop :=
  match db_error env "webhook_queue" INSERT with
  | Some _ => WebhooksRoutes.status resp = 500 ∧ w' = w
  | None => WebhooksRoutes.status resp = 200
            ∧ webhook_queue w' = webhook_queue w ++ [queued_entry req]
  end.

(** Every unauthenticated or disabled request is refused with 401 or 400
    and nothing is queued. *)
Definition refuses_unauthenticated (env : Env) (w : World) (req : WebhooksRoutes.Request)
    : Prop :=
  ∀ i, IntegrationService.with_id (WebhooksRoutes.integrationId req) w = [i] →
    ¬ authenticated env i req ∨ Integration.is_active i = false →
    ∃ resp w',
      WebhooksRoutes.post_woocommerce req env w = (Normal resp, w')
      ∧ (WebhooksRoutes.status resp = 401 ∨ WebhooksRoutes.status resp = 400)
      ∧ webhook_queue w' = webhook_queue w.

End Stated.

(** ** More of the services

    The callers and the helpers the sections above leave out. *)

(** *** Lookups in an object literal

    [statusMap[key]] on an object literal also finds what the literal
    inherits from [Object.prototype]; for such a key the lookup yields that
    inherited member and not a status.  The status tables are modelled on the
    other keys, and the properties of the tables below are stated for
    them. *)
Definition object_prototype_keys : list string :=
  ["constructor"; "__proto__"; "__defineGetter__"; "__defineSetter__";
   "__lookupGetter__"; "__lookupSetter__"; "hasOwnProperty"; "isPrototypeOf";
   "propertyIsEnumerable"; "toLocaleString"; "toString"; "valueOf"].

Definition inherited (key : string) : bool :=
  existsb (String.eqb key) object_prototype_keys.

(** *** WooCommerceClient: the rest of a request *)

Module WooCommerceRequest.
Import WooCommerceClient.

(** [this.apiVersion]: [config.version || 'wc/v3']. *)
Definition apiVersion (config : IntegrationConfig) : string :=
  or_default (version config) "wc/v3".

(** [getOAuthParams], given what the clock and the random source yield:
    the Unix time in seconds, in decimal, and sixteen random bytes in
    hexadecimal. *)
Definition getOAuthParams (config : IntegrationConfig) (timestamp nonce : string)
    : gmap string string :=
  <["oauth_consumer_key" := consumerKey config]>
    (<["oauth_timestamp" := timestamp]>
       (<["oauth_nonce" := nonce]>
          (<["oauth_signature_method" := "HMAC-SHA256"]>
             (<["oauth_version" := "1.0"]> ∅)))).

(** The [url] of [request]. *)
Definition request_url (config : IntegrationConfig) (endpoint : string) : string :=
  siteUrl config +:+ "/wp-json/" +:+ apiVersion config +:+ endpoint.

(** [{ ...oauthParams, ...queryParams }]: on a shared key the query wins. *)
Definition allParams (config : IntegrationConfig) (timestamp nonce : string)
    (queryParams : gmap string string) : gmap string string :=
  queryParams ∪ getOAuthParams config timestamp nonce.

(** The [params] of the request [request] sends: all of them, then the
    signature over them under its own key. *)
Definition request_params (env : Env) (config : IntegrationConfig)
    (method endpoint timestamp nonce : string) (queryParams : gmap string string)
    : gmap string string :=
  let signature :=
    generateOAuthSignature env config method (request_url config endpoint)
      (allParams config timestamp nonce queryParams) in
  <["oauth_signature" := signature]> (allParams config timestamp nonce queryParams).

(** Reading back a [%XX] escape: the value of a hexadecimal digit, and the
    byte of two of them. *)
Definition unhex (c : ascii) : N :=
  let n := N_of_ascii c in
  (if n <? 58 then n - 48 else n - 55)%N.

Definition unescape (high low : ascii) : ascii :=
  ascii_of_N (16 * unhex high + unhex low).

End WooCommerceRequest.

(** *** Decimal numerals

    The shape of a numeral as the store holds an external id: a digit first. *)
Definition starts_with_digit (s : string) : Prop :=
  ∃ m rest, (m < 10)%N ∧ s = String (pretty_N_char m) rest.

(** *** What a status push leaves behind *)

(** The row a branch writes once its push went through. *)
Definition pushed_row (platform_type : string) (order : OpsOrder.t)
    (integration : Integration.t) (oldStatus newStatus at_time new_id : string)
    : OutboundSyncLog.t :=
  {| OutboundSyncLog.id := new_id;
     OutboundSyncLog.order_id := OpsOrder.id order;
     OutboundSyncLog.integration_id := Integration.id integration;
     OutboundSyncLog.platform_type := platform_type;
     OutboundSyncLog.channel := OpsOrder.channel order;
     OutboundSyncLog.old_status := oldStatus;
     OutboundSyncLog.new_status := newStatus;
     OutboundSyncLog.result := "SUCCESS";
     OutboundSyncLog.error_message := None;
     OutboundSyncLog.synced_at := Some at_time;
     OutboundSyncLog.retry_count := 0;
     OutboundSyncLog.last_retry_at := None |}.

(** The request a branch sends for an order. *)
Definition push_of (platform_type : string) (order : OpsOrder.t)
    (integration : Integration.t) (newStatus : string) (call : PlatformCall) : Prop :=
  match call with
  | WooUpdateOrderStatus n status =>
      platform_type = "WOOCOMMERCE"
      ∧ parseInt (show_null (OpsOrder.external_order_id order)) = Some n
      ∧ status = OrderStatusSyncService.mapToWooCommerceStatus newStatus
  | KubaccoUpdateOrderStatus key order_id status =>
      platform_type = "KUBACCO_APP"
      ∧ apiKey (Integration.config integration) = Some key
      ∧ OpsOrder.external_order_id order = Some order_id
      ∧ status = OrderStatusSyncService.mapToKubaccoStatus newStatus
  | _ => False
  end.

(** The key the store gives the next outbound log row. *)
Definition next_log_id (env : Env) (w : World) : string :=
  gen_id env "integration_outbound_sync_logs" (OrderStatusSyncService.log_ids w).

(** The tables a status push never writes. *)
Definition same_but_logs_and_requests (w w' : World) : Prop :=
  ops_orders w' = ops_orders w
  ∧ ops_order_items w' = ops_order_items w
  ∧ integrations w' = integrations w
  ∧ integration_sync_logs w' = integration_sync_logs w
  ∧ product_mappings w' = product_mappings w
  ∧ inventory_cigars w' = inventory_cigars w
  ∧ bundles w' = bundles w
  ∧ accessories w' = accessories w
  ∧ webhook_queue w' = webhook_queue w.

(** A request to the wholesale application. *)
Definition to_kubacco (call : PlatformCall) : Prop :=
  match call with
  | KubaccoUpdateOrderStatus _ _ _ => True
  | _ => False
  end.

(** *** The order routes (routes/orders.routes.ts)

    The handlers that call the status push; the authentication and role
    middleware in front of them is not part of the handlers. *)

Module OrdersRoutes.
Import OrderStatusSyncService.

Record BulkResponse : Type := {
  bulk_code : Z;
  bulk_success : bool;
  bulk_data : list OpsOrder.t;
  syncResults : list SyncResult;
  bulk_error : option string
}.

(** [.update({ status })] on one row. *)
Definition with_status (status : string) (o : OpsOrder.t) : OpsOrder.t :=
  {| OpsOrder.id := OpsOrder.id o; OpsOrder.order_code := OpsOrder.order_code o;
     OpsOrder.channel := OpsOrder.channel o; OpsOrder.status := status;
     OpsOrder.receiver := OpsOrder.receiver o; OpsOrder.address := OpsOrder.address o;
     OpsOrder.address_line2 := OpsOrder.address_line2 o; OpsOrder.city := OpsOrder.city o;
     OpsOrder.state := OpsOrder.state o; OpsOrder.postal_code := OpsOrder.postal_code o;
     OpsOrder.country := OpsOrder.country o; OpsOrder.email := OpsOrder.email o;
     OpsOrder.phone := OpsOrder.phone o; OpsOrder.order_total := OpsOrder.order_total o;
     OpsOrder.notes := OpsOrder.notes o; OpsOrder.order_date := OpsOrder.order_date o;
     OpsOrder.external_order_id := OpsOrder.external_order_id o;
     OpsOrder.integration_id := OpsOrder.integration_id o |}.

(** [.in('id', orderIds)]. *)
Definition among (orderIds : list string) (o : OpsOrder.t) : bool :=
  existsb (String.eqb (OpsOrder.id o)) orderIds.

(** The result pushed when the status push throws. *)
Definition thrown_result (orderId status message : string) : SyncResult :=
  {| success := false; syncLogId := empty; orderId := orderId;
     platformType := "UNKNOWN"; newStatus := status; sr_error := Some message;
     retryCount := None |}.

(** The body of the loop over [orderIds]: the push is called without a
    storefront client. *)
Definition push_one (status orderId : string) (results : list SyncResult)
    : Async (list SyncResult) :=
  let! syncResult :=
    try_catch (syncStatusToExternalPlatform orderId status None)
      (fun message => ret (thrown_result orderId status message)) in
  ret (results ++ [syncResult]).

Definition bad_request : BulkResponse :=
  {| bulk_code := 400; bulk_success := false; bulk_data := [];
     syncResults := [];
     bulk_error := Some "orderIds array and status are required" |}.

(** [POST /bulk-update-status]; [orderIds] is [None] when the body has no
    array under that name. *)
Definition bulk_update_status (orderIds : option (list string)) (status : option string)
    : Async BulkResponse :=
  try_catch
    (match orderIds with
     | Some ids =>
         if falsy_opt status then ret bad_request
         else
           let status := default empty status in
           let! r := db_update "ops_orders"
                       (set_ops_orders
                          (map (fun o => if among ids o then with_status status o else o))) in
           match error r with
           | Some msg => throw msg
           | None =>
               let! w := get in
               let data := List.filter (among ids) (ops_orders w) in
               let! results := for_of ids (push_one status) [] in
               ret {| bulk_code := 200; bulk_success := true; bulk_data := data;
                      syncResults := results; bulk_error := None |}
           end
     | None => ret bad_request
     end)
    (fun _ => ret {| bulk_code := 500; bulk_success := false; bulk_data := [];
                     syncResults := []; bulk_error := Some "Failed to update orders" |}).

Record RetryResponse : Type := {
  retry_code : Z;
  retry_success : bool;
  retry_data : option SyncResult;
  retry_error : option string
}.

(** [POST /:orderId/retry-sync/:syncLogId]: the log must be one of the
    order's; the retry is called without a storefront client. *)
Definition retry_sync (orderId syncLogId : string) : Async RetryResponse :=
  try_catch
    (let! r := db_select "integration_outbound_sync_logs"
                 (fun w => List.filter
                             (fun l => String.eqb (OutboundSyncLog.id l) syncLogId
                                       && String.eqb (OutboundSyncLog.order_id l) orderId)
                             (integration_outbound_sync_logs w))
                 maybeSingle in
     match error r, data r with
     | None, Some _ =>
         let! result := retrySyncLog syncLogId None in
         ret {| retry_code := 200; retry_success := success result;
                retry_data := Some result; retry_error := sr_error result |}
     | _, _ =>
         ret {| retry_code := 404; retry_success := false; retry_data := None;
                retry_error := Some "Sync log not found" |}
     end)
    (fun _ => ret {| retry_code := 500; retry_success := false; retry_data := None;
                     retry_error := Some "Failed to retry sync" |}).

End OrdersRoutes.

(** A request that sets the stock of one variation. *)
Definition variation_update (call : PlatformCall) : Prop :=
  match call with
  | WooUpdateProductVariationStock _ _ _ => True
  | _ => False
  end.

(** *** What the runs leave behind *)

(** The log row of a webhook import once it is closed with the outcome of
    the import. *)
Definition webhook_log (env : Env) (w : World) (integrationId : string)
    (result : ImportOrderResult) : SyncLog.t :=
  close_log (if io_success result then "SUCCESS" else "FAILED")
    (Some (if io_success result then 1 else 0))
    (Some (if io_success result then 0 else 1))
    (now env) (Some (OrderDetails result))
    (if falsy_opt (io_error result) then None else ErrorMessage <$> io_error result)
    (running_log integrationId "WEBHOOK" "INBOUND" (now env) (Stated.run_log_id env w)).

(** The key the store gives the next order. *)
Definition next_order_id (env : Env) (w : World) : string :=
  gen_id env "ops_orders" (map OpsOrder.id (ops_orders w)).

(** The integrations once a run that went through has marked its own. *)
Definition marked_connected (env : Env) (integrationId : string) (w : World)
    : list Integration.t :=
  map (fun i => if String.eqb (Integration.id i) integrationId
                then mark_connected (now env) i else i)
    (integrations w).

(** *** More sample stores *)

Module MoreSamples.
Import Samples.

(** The shop with a success row from the time the order [o-2] was an online
    order; the order is a wholesale order now. *)
Definition shop_with_stale_log : World :=
  set_outbound_logs
    (fun _ => [log "log-9" "o-2" "int-kub" "WOOCOMMERCE" "ONLINE" "SUCCESS" 0])
    shop.

(** The shop with a failed row of the wholesale order [o-3], as an
    operator would have to write it for a retry to find its integration. *)
Definition shop_with_wholesale_log : World :=
  set_outbound_logs
    (fun _ => [log "log-3" "o-3" "int-kub" "KUBACCO_APP" "WHOLESALE" "FAILED" 0])
    shop.

(** The warehouse after a run that failed with the storefront unreachable. *)
Definition warehouse_after_error : World :=
  set_integrations (map (mark_error "connect ECONNREFUSED")) warehouse.

(** What the export of the warehouse returns. *)
Definition warehouse_export : InventorySyncResult.t :=
  {| InventorySyncResult.total := 2; InventorySyncResult.synced := 2;
     InventorySyncResult.skipped := 0; InventorySyncResult.failed := 0;
     InventorySyncResult.errors := [] |}.

(** A day on which the table of order items refuses every insert. *)
Definition items_refused : Env :=
  {| db_error := fun table v =>
                   if String.eqb table "ops_order_items" then Some "permission denied"
                   else None;
     gen_id := gen_id calm; now := now calm;
     woo_updateOrderStatus := woo_updateOrderStatus calm;
     woo_getOrders := woo_getOrders calm;
     woo_updateProductVariationStock := woo_updateProductVariationStock calm;
     woo_batchUpdateProducts := woo_batchUpdateProducts calm;
     kubacco_fetch := kubacco_fetch calm;
     hmac_sha256_base64 := hmac_sha256_base64 calm;
     JSON_stringify := JSON_stringify calm |}.

End MoreSamples.

(** * Properties *)

(** ** Rows selected by key *)

Lemma maybeSingle_data_unique {A : Type} (keep : A → bool) (rows : list A) (r x : A) :
  data (maybeSingle (List.filter keep rows)) = Some r →
  In x rows → keep x = true → x = r.
Proof.
  intros Hdata Hin Hkeep.
  assert (Hx : In x (List.filter keep rows)) by (apply filter_In; auto).
  destruct (List.filter keep rows) as [|a [|b l]]; simpl in *; try discriminate.
  destruct Hx as [->|[]]. congruence.
Qed.

Lemma maybeSingle_data_error {A : Type} (rows : list A) (r : A) :
  data (maybeSingle rows) = Some r → error (maybeSingle rows) = None.
Proof. destruct rows as [|a [|b l]]; simpl; congruence. Qed.

Lemma maybeSingle_data_rows {A : Type} (rows : list A) (r : A) :
  data (maybeSingle rows) = Some r → rows = [r].
Proof. destruct rows as [|a [|b l]]; simpl; congruence. Qed.

(** ** Proof automation *)

(** Unfolds the monad and splits on what the store and the platforms
    answer, one query at a time. *)
Ltac run_async :=
  unfold bind, ret, throw, throw_if, ask, get, modify, request, db_select, db_insert,
    db_insert_many, db_update, try_catch in *.

Ltac split_answer :=
  match goal with
  | H : (_, _) = (_, _) |- _ => inversion H; subst; clear H
  | H : context [match ?x with _ => _ end] |- _ =>
      lazymatch type of x with
      | (_ * _)%type => fail
      | _ => destruct x eqn:?
      end
  end; simpl in *.

(** ** The status push *)

Section StatusSync.
Import OrderStatusSyncService Stated.

Lemma differs_true (platformType orderChannel : string) :
  validCombinations orderChannel ≠ Some platformType →
  differs platformType (validCombinations orderChannel) = true.
Proof.
  intros H. unfold differs. destruct (validCombinations orderChannel) as [p|]; auto.
  destruct (String.eqb_spec platformType p); auto. subst. congruence.
Qed.

(** The [catch] block returns a failure, sends nothing, and appends its
    record when the store takes the insert. *)
Lemma sync_failure_spec (env : Env) (w : World) (orderId newStatus message : string) :
  ∃ r w',
    sync_failure orderId newStatus message env w = (Normal r, w')
    ∧ success r = false
    ∧ platformType r = "UNKNOWN"
    ∧ sr_error r = Some message
    ∧ requests w' = requests w
    ∧ match db_error env "integration_outbound_sync_logs" INSERT with
      | Some _ => integration_outbound_sync_logs w' = integration_outbound_sync_logs w
      | None => ∃ row,
          integration_outbound_sync_logs w' = integration_outbound_sync_logs w ++ [row]
          ∧ failure_row orderId newStatus message row
                       ∧ syncLogId r = OutboundSyncLog.id row
      end.
Proof.
  unfold sync_failure, createSyncLog, db_insert, bind, ret.
  destruct (db_error env "integration_outbound_sync_logs" INSERT) as [msg|] eqn:E.
  - eexists _, _. simpl. repeat split.
  - eexists _, _. simpl. repeat split.
    eexists. repeat split.
Qed.

(** With the order and the integration in the store and the channel
    mismatched, the [try] block throws before it wrote or sent anything. *)
Lemma sync_attempt_mismatch (env : Env) (w : World) (o : OpsOrder.t) (i : Integration.t)
    (newStatus : string) (client : option WooCommerceClient) :
  In o (ops_orders w) → In i (integrations w) →
  Integration.id i = OpsOrder.integration_id o →
  validCombinations (OpsOrder.channel o) ≠ Some (Integration.platform_type i) →
  ∃ message, sync_attempt (OpsOrder.id o) newStatus client env w = (Throw message, w).
Proof.
  intros Ho Hi Hid Hmis.
  unfold sync_attempt, bind, order_by_id, integration_by_id, db_select.
  destruct (db_error env "ops_orders" SELECT); [eexists; reflexivity|].
  destruct (data (maybeSingle (orders_with_id (OpsOrder.id o) w))) as [o'|] eqn:Edata.
  - assert (o = o') as <-.
    { eapply maybeSingle_data_unique; eauto. simpl. apply String.eqb_refl. }
    unfold found at 1. rewrite Edata, (maybeSingle_data_error _ _ Edata). simpl.
    destruct (db_error env "integrations" SELECT); [eexists; reflexivity|].
    destruct (data (maybeSingle (integrations_with_id (OpsOrder.integration_id o) w)))
      as [i'|] eqn:Edata'.
    + assert (i = i') as <-.
      { eapply maybeSingle_data_unique; eauto. simpl. rewrite Hid. apply String.eqb_refl. }
      unfold found. rewrite Edata', (maybeSingle_data_error _ _ Edata'). simpl.
      unfold validateChannelSegregation, throw_if. rewrite (differs_true _ _ Hmis).
      eexists; reflexivity.
    + unfold found. rewrite Edata'.
      destruct (error (maybeSingle _)); eexists; reflexivity.
  - unfold found. rewrite Edata.
    destruct (error (maybeSingle _)); eexists; reflexivity.
Qed.

(** C1. Channel segregation: when the order's channel does not map to the
    platform type of its integration under WHOLESALE -> KUBACCO_APP,
    ONLINE -> WOOCOMMERCE, [syncStatusToExternalPlatform] returns a failure,
    sends no request to any platform, and writes no log row except, at
    most, one failure record. *)
Theorem channel_segregation_enforced (env : Env) (w : World) (o : OpsOrder.t)
    (i : Integration.t) (newStatus : string) (client : option WooCommerceClient) :
  In o (ops_orders w) → In i (integrations w) →
  Integration.id i = OpsOrder.integration_id o →
  validCombinations (OpsOrder.channel o) ≠ Some (Integration.platform_type i) →
  ∃ r w',
    syncStatusToExternalPlatform (OpsOrder.id o) newStatus client env w = (Normal r, w')
    ∧ success r = false
    ∧ requests w' = requests w
    ∧ (integration_outbound_sync_logs w' = integration_outbound_sync_logs w
       ∨ ∃ row, integration_outbound_sync_logs w' = integration_outbound_sync_logs w ++ [row] ∧ OutboundSyncLog.result row = "FAILED").
Proof.
  intros Ho Hi Hid Hmis.
  destruct (sync_attempt_mismatch env w o i newStatus client Ho Hi Hid Hmis) as [message Ha].
  destruct (sync_failure_spec env w (OpsOrder.id o) newStatus message)
    as (r & w' & Hf & Hs & _ & _ & Hreq & Hlog).
  exists r, w'. unfold syncStatusToExternalPlatform, try_catch. rewrite Ha.
  repeat split; auto.
  destruct (db_error env "integration_outbound_sync_logs" INSERT); auto.
  destruct Hlog as (row & Hrow & Hfail & _). right. exists row. split; auto. apply Hfail.
Qed.



(** A branch either goes through, with one request sent and one success
    row appended, or throws with no row written. *)
Lemma dispatch_outcome (env : Env) (w w' : World) (platform_type : string)
    (order : OpsOrder.t) (integration : Integration.t) (newStatus oldStatus : string)
    (client : option WooCommerceClient) (unsupported : string) (c : Completion SyncResult) :
  dispatch platform_type order integration newStatus oldStatus client unsupported env w
  = (c, w') →
  ops_orders w' = ops_orders w
  ∧ integrations w' = integrations w
  ∧ match c with
    | Normal r =>
        success r = true
        ∧ ∃ row call,
            integration_outbound_sync_logs w' = integration_outbound_sync_logs w ++ [row]
            ∧ requests w' = requests w ++ [call]
            ∧ success_row platform_type oldStatus newStatus row
            ∧ pushes platform_type newStatus call
            ∧ syncLogId r = OutboundSyncLog.id row
    | Throw _ =>
        integration_outbound_sync_logs w' = integration_outbound_sync_logs w
        ∧ (requests w' = requests w
           ∨ ∃ call, requests w' = requests w ++ [call] ∧ pushes platform_type newStatus call)
    end.
Proof.
  unfold dispatch. intros H.
  destruct (String.eqb_spec platform_type "WOOCOMMERCE") as [->|Hw].
  - unfold syncToWooCommerce, createSyncLog, data_id in H. run_async. simpl in H.
    repeat split_answer; simpl; repeat split; auto;
      try (right; eexists; split; [reflexivity|split; reflexivity]);
      try (eexists _, _; repeat split; reflexivity).
  - destruct (String.eqb_spec platform_type "KUBACCO_APP") as [->|Hk].
    + unfold syncToKubacco, createSyncLog, data_id in H. run_async. simpl in H.
      repeat split_answer; simpl; repeat split; auto;
        try (right; eexists; split; [reflexivity|split; reflexivity]);
        try (eexists _, _; repeat split; reflexivity).
    + run_async. inversion H; subst. simpl. auto.
Qed.



(** The [try] block of the first attempt: a success has sent one request and
    appended one success row; a throw has written no row. *)
Lemma sync_attempt_outcome (env : Env) (w w' : World) (orderId newStatus : string)
    (client : option WooCommerceClient) (c : Completion SyncResult) :
  sync_attempt orderId newStatus client env w = (c, w') →
  match c with
  | Normal r =>
      success r = true
      ∧ ∃ row call,
          integration_outbound_sync_logs w' = integration_outbound_sync_logs w ++ [row]
          ∧ requests w' = requests w ++ [call]
          ∧ OutboundSyncLog.result row = "SUCCESS"
  | Throw _ => integration_outbound_sync_logs w' = integration_outbound_sync_logs w
  end.
Proof.
  unfold sync_attempt, order_by_id, integration_by_id, found, validateChannelSegregation.
  run_async. intros H.
  repeat match goal with
         | H : context [match db_error ?env ?t ?v with _ => _ end] |- _ =>
             destruct (db_error env t v); simpl in H
         | H : context [match error ?x with _ => _ end] |- _ => destruct (error x); simpl in H
         | H : context [match data ?x with _ => _ end] |- _ => destruct (data x); simpl in H
         | H : context [if differs ?a ?b then _ else _] |- _ =>
             destruct (differs a b); simpl in H
         | H : (_, _) = (_, _) |- _ => inversion H; subst; clear H
         end; auto.
  all: apply dispatch_outcome in H; destruct H as (_ & _ & H); destruct c; [|apply H].
  all: destruct H as (Hs & row & call & Hl & Hr & Hrow & _); split; auto.
  all: exists row, call; repeat split; auto; apply Hrow.
Qed.

(** Callers always receive a result object. *)
Lemma sync_never_throws (env : Env) (w : World) (orderId newStatus : string)
    (client : option WooCommerceClient) :
  ∃ r w', syncStatusToExternalPlatform orderId newStatus client env w = (Normal r, w').
Proof.
  unfold syncStatusToExternalPlatform, try_catch.
  destruct (sync_attempt orderId newStatus client env w) as [[r|e] w1]; eauto.
  destruct (sync_failure_spec env w1 orderId newStatus e) as (r & w' & H & _); eauto.
Qed.

(** C4, as the code has it. Whenever the first attempt throws, whatever
    threw, [syncStatusToExternalPlatform] returns a failure result carrying the
    message, and the row it writes (the store taking the insert) is a
    FAILED row whose platform type is UNKNOWN and whose integration id,
    channel and old status are empty. *)
Theorem sync_failure_recorded_as_unknown (env : Env) (w w1 : World)
    (orderId newStatus e : string) (client : option WooCommerceClient) :
  sync_attempt orderId newStatus client env w = (Throw e, w1) →
  ∃ r w',
    syncStatusToExternalPlatform orderId newStatus client env w = (Normal r, w')
    ∧ success r = false
    ∧ platformType r = "UNKNOWN"
    ∧ sr_error r = Some e
    ∧ match db_error env "integration_outbound_sync_logs" INSERT with
      | Some _ => integration_outbound_sync_logs w' = integration_outbound_sync_logs w
      | None => ∃ row,
          integration_outbound_sync_logs w' = integration_outbound_sync_logs w ++ [row]
          ∧ failure_row orderId newStatus e row
          ∧ syncLogId r = OutboundSyncLog.id row
      end.
Proof.
  intros Ha. pose proof (sync_attempt_outcome _ _ _ _ _ _ _ Ha) as Hlogs. simpl in Hlogs.
  destruct (sync_failure_spec env w1 orderId newStatus e)
    as (r & w' & Hf & Hs & Hp & He & _ & Hrow).
  exists r, w'. unfold syncStatusToExternalPlatform, try_catch. rewrite Ha.
  repeat split; auto. rewrite <- Hlogs. exact Hrow.
Qed.



(** *** The retry *)

(** The [catch] block of the retry returns a failure, sends nothing, adds no
    row, and stamps the rows with the retried id when the store takes the
    update. *)
Lemma retry_failure_spec (env : Env) (w : World) (syncLogId message : string) :
  ∃ r w',
    retry_failure syncLogId message env w = (Normal r, w')
    ∧ success r = false
    ∧ sr_error r = Some message
    ∧ requests w' = requests w
    ∧ match db_error env "integration_outbound_sync_logs" UPDATE with
      | Some _ => integration_outbound_sync_logs w' = integration_outbound_sync_logs w
      | None => ∃ count,
          integration_outbound_sync_logs w'
          = map (stamp syncLogId count (now env) (Some message))
              (integration_outbound_sync_logs w)
      end.
Proof.
  unfold retry_failure, log_by_id, update_log. run_async.
  destruct (db_error env "integration_outbound_sync_logs" SELECT);
    destruct (db_error env "integration_outbound_sync_logs" UPDATE);
    simpl; eexists _, _; repeat split; eexists; reflexivity.
Qed.

(** At the ceiling the [try] block throws before it looked anything else up. *)
Lemma retry_attempt_ceiling (env : Env) (w : World) (l : OutboundSyncLog.t)
    (client : option WooCommerceClient) :
  In l (integration_outbound_sync_logs w) →
  5 ≤ OutboundSyncLog.retry_count l →
  ∃ e, retry_attempt (OutboundSyncLog.id l) client env w = (Throw e, w)
       ∧ (db_error env "integration_outbound_sync_logs" SELECT = None →
          the_log w (OutboundSyncLog.id l) = Some l →
          e = "Maximum retry attempts exceeded (5)").
Proof.
  intros Hin Hrc. unfold retry_attempt, log_by_id, the_log. run_async.
  destruct (db_error env "integration_outbound_sync_logs" SELECT);
    [eexists; split; [reflexivity|discriminate]|].
  destruct (data (maybeSingle (logs_with_id (OutboundSyncLog.id l) w))) as [l'|] eqn:Edata.
  - assert (l = l') as <-.
    { eapply maybeSingle_data_unique; eauto. simpl. apply String.eqb_refl. }
    unfold found. rewrite Edata, (maybeSingle_data_error _ _ Edata). simpl.
    assert ((5 <=? OutboundSyncLog.retry_count l) = true) as -> by (apply Z.leb_le; lia).
    simpl. eexists; split; [reflexivity|auto].
  - unfold found. rewrite Edata.
    destruct (error (maybeSingle _)); eexists; (split; [reflexivity|discriminate]).
Qed.

(** The guard of the ceiling, on the stored count: for every outbound sync
    log whose [retry_count] is at least 5, [retrySyncLog] returns a failure
    result and sends no request to any platform; when the store answers the
    lookup, the failure is the ceiling's own.  How the stored count gets
    there is another matter, settled further down. *)
Lemma retry_rejected_at_ceiling (env : Env) (w : World) (l : OutboundSyncLog.t)
    (client : option WooCommerceClient) :
  In l (integration_outbound_sync_logs w) →
  5 ≤ OutboundSyncLog.retry_count l →
  ∃ r w',
    retrySyncLog (OutboundSyncLog.id l) client env w = (Normal r, w')
    ∧ success r = false
    ∧ requests w' = requests w
    ∧ (db_error env "integration_outbound_sync_logs" SELECT = None →
       the_log w (OutboundSyncLog.id l) = Some l →
       sr_error r = Some "Maximum retry attempts exceeded (5)").
Proof.
  intros Hin Hrc.
  destruct (retry_attempt_ceiling env w l client Hin Hrc) as (e & Ha & He).
  destruct (retry_failure_spec env w (OutboundSyncLog.id l) e)
    as (r & w' & Hf & Hs & Hmsg & Hreq & _).
  exists r, w'. unfold retrySyncLog, try_catch. rewrite Ha.
  repeat split; auto. intros Hdb Hlog. rewrite Hmsg, (He Hdb Hlog). reflexivity.
Qed.





(** What the [catch] of the retry writes as the count: one for a row never
    retried, the count as it was for any other row. *)
Lemma count_or_one_spec (l : OutboundSyncLog.t) :
  count_or_one (resolved l)
  = if OutboundSyncLog.retry_count l =? 0 then 1 else OutboundSyncLog.retry_count l.
Proof. reflexivity. Qed.



(** A row whose platform type is UNKNOWN: the [try] block of the retry throws
    at the latest in the last [else] of the branch, and touches nothing. *)
Lemma retry_attempt_unknown (env : Env) (w : World) (l : OutboundSyncLog.t)
    (client : option WooCommerceClient) :
  In l (integration_outbound_sync_logs w) →
  OutboundSyncLog.platform_type l = "UNKNOWN" →
  ∃ e, retry_attempt (OutboundSyncLog.id l) client env w = (Throw e, w).
Proof.
  intros Hin Hp.
  unfold retry_attempt, log_by_id, order_by_id, integration_by_id, present. run_async.
  destruct (db_error env "integration_outbound_sync_logs" SELECT); [eexists; reflexivity|].
  destruct (data (maybeSingle (logs_with_id (OutboundSyncLog.id l) w))) as [l'|] eqn:Edata.
  - assert (l = l') as <-.
    { eapply maybeSingle_data_unique; eauto. simpl. apply String.eqb_refl. }
    unfold found. rewrite Edata, (maybeSingle_data_error _ _ Edata). simpl.
    destruct (5 <=? OutboundSyncLog.retry_count l); simpl; [eexists; reflexivity|].
    destruct (db_error env "ops_orders" SELECT); simpl; [eexists; reflexivity|].
    destruct (data (maybeSingle (orders_with_id _ w))); simpl; [|eexists; reflexivity].
    destruct (db_error env "integrations" SELECT); simpl; [eexists; reflexivity|].
    destruct (data (maybeSingle (integrations_with_id _ w))); simpl; [|eexists; reflexivity].
    unfold dispatch. rewrite Hp. simpl. eexists; reflexivity.
  - unfold found. rewrite Edata.
    destruct (error (maybeSingle _)); eexists; reflexivity.
Qed.

Lemma retry_unknown_platform (env : Env) (w : World) (l : OutboundSyncLog.t)
    (client : option WooCommerceClient) :
  In l (integration_outbound_sync_logs w) →
  OutboundSyncLog.platform_type l = "UNKNOWN" →
  ∃ r w',
    retrySyncLog (OutboundSyncLog.id l) client env w = (Normal r, w')
    ∧ success r = false
    ∧ requests w' = requests w.
Proof.
  intros Hin Hp. destruct (retry_attempt_unknown env w l client Hin Hp) as (e & Ha).
  destruct (retry_failure_spec env w (OutboundSyncLog.id l) e)
    as (r & w' & Hf & Hs & _ & Hreq & _).
  exists r, w'. unfold retrySyncLog, try_catch. rewrite Ha. auto.
Qed.

(** The one row a status push appends, when it is a FAILED row, is the
    record of the [catch] block. *)
Lemma appended_failed_row (env : Env) (w w' : World) (orderId newStatus : string)
    (client : option WooCommerceClient) (r : SyncResult) (row : OutboundSyncLog.t) :
  syncStatusToExternalPlatform orderId newStatus client env w = (Normal r, w') →
  integration_outbound_sync_logs w' = integration_outbound_sync_logs w ++ [row] →
  OutboundSyncLog.result row = "FAILED" →
  ∃ message, failure_row orderId newStatus message row.
Proof.
  unfold syncStatusToExternalPlatform, try_catch. intros H Hl Hres.
  destruct (sync_attempt orderId newStatus client env w) as [[r1|e] w1] eqn:Ha;
    pose proof (sync_attempt_outcome _ _ _ _ _ _ _ Ha) as Ho; simpl in Ho.
  - inversion H; subst. destruct Ho as (_ & row' & call & Hl' & _ & Hres').
    rewrite Hl' in Hl. apply app_inj_tail in Hl as [_ ->]. rewrite Hres in Hres'.
    discriminate.
  - destruct (sync_failure_spec env w1 orderId newStatus e)
      as (r' & w'' & Hf & _ & _ & _ & _ & Hrow).
    rewrite Hf in H. inversion H; subst.
    destruct (db_error env "integration_outbound_sync_logs" INSERT).
    + rewrite Hrow, Ho in Hl. apply (f_equal length) in Hl.
      rewrite length_app in Hl. simpl in Hl. lia.
    + destruct Hrow as (row' & Hl' & Hrow' & _). rewrite Hl', Ho in Hl.
      apply app_inj_tail in Hl as [_ ->]. eauto.
Qed.

(** C10, as the code has it. Every FAILED row a status push inserts carries
    the platform type UNKNOWN, with empty integration id and channel;
    consequently, in whatever store such a row later sits, [retrySyncLog]
    on it returns a failure result without a request to either platform, so
    a failed push is never retried with success. The failure is raised at
    the first check that fails (ceiling, order lookup, integration lookup)
    and at the latest by the unknown-platform branch. *)
Theorem failed_rows_cannot_be_retried (env : Env) (w w' : World)
    (orderId newStatus : string) (client : option WooCommerceClient) (r : SyncResult)
    (row : OutboundSyncLog.t) :
  syncStatusToExternalPlatform orderId newStatus client env w = (Normal r, w') →
  integration_outbound_sync_logs w' = integration_outbound_sync_logs w ++ [row] →
  OutboundSyncLog.result row = "FAILED" →
  (OutboundSyncLog.platform_type row = "UNKNOWN"
   ∧ OutboundSyncLog.integration_id row = empty
   ∧ OutboundSyncLog.channel row = empty)
  ∧ ∀ (env2 : Env) (w2 : World) (client2 : option WooCommerceClient),
      In row (integration_outbound_sync_logs w2) →
      ∃ r2 w2',
        retrySyncLog (OutboundSyncLog.id row) client2 env2 w2 = (Normal r2, w2')
        ∧ success r2 = false
        ∧ requests w2' = requests w2.
Proof.
  intros H Hl Hres.
  destruct (appended_failed_row _ _ _ _ _ _ _ _ H Hl Hres)
    as (message & _ & Hp & Hi & Hc & _).
  split; [auto|]. intros env2 w2 client2 Hin. apply retry_unknown_platform; auto.
Qed.



(** *** The status push on concrete stores *)

Import Samples.

Lemma channel_segregation_enforced_witness :
  ∃ r w',
    syncStatusToExternalPlatform "o-2" "SHIPPED" (Some client) calm shop = (Normal r, w')
    ∧ success r = false
    ∧ requests w' = requests shop
    ∧ (integration_outbound_sync_logs w' = integration_outbound_sync_logs shop
       ∨ ∃ row, integration_outbound_sync_logs w'
                = integration_outbound_sync_logs shop ++ [row]
                ∧ OutboundSyncLog.result row = "FAILED").
Proof.
  apply (channel_segregation_enforced calm shop
           (order "o-2" "WHOLESALE" "int-woo" (Some "502"))
           (integration "int-woo" "WOOCOMMERCE") "SHIPPED" (Some client)).
  - simpl. auto.
  - simpl. auto.
  - reflexivity.
  - vm_compute. discriminate.
Defined.

Lemma retry_rejected_at_ceiling_witness :
  ∃ r w',
    retrySyncLog "log-1" (Some client) calm (shop_with_log 5) = (Normal r, w')
    ∧ success r = false
    ∧ requests w' = requests (shop_with_log 5)
    ∧ (db_error calm "integration_outbound_sync_logs" SELECT = None →
       the_log (shop_with_log 5) "log-1"
       = Some (log "log-1" "o-1" "int-woo" "WOOCOMMERCE" "ONLINE" "SUCCESS" 5) →
       sr_error r = Some "Maximum retry attempts exceeded (5)").
Proof.
  apply (retry_rejected_at_ceiling calm (shop_with_log 5)
           (log "log-1" "o-1" "int-woo" "WOOCOMMERCE" "ONLINE" "SUCCESS" 5) (Some client)).
  - simpl. auto.
  - simpl. lia.
Defined.



(** The count after a retry that failed: a row already retried once keeps
    its count, and so the sixth failed retry in a row still reaches the
    platform. *)
Example failed_retry_leaves_count :
  map OutboundSyncLog.retry_count
    (integration_outbound_sync_logs
       (retrySyncLog "log-1" (Some client) storefront_down (shop_with_log 1)).2)
  = [1].
Proof. vm_compute. reflexivity. Qed.

(** C2, on the code. The ceiling counts retries through the stored
    [retry_count], and the [catch] of a retry writes
    [retry_count || 0 + 1], that is [retry_count || 1]: a retry that fails
    raises the count from 0 to 1 and never further.  With the storefront
    unreachable, five retries of one row in a row each send their request
    and leave the count at 1; the sixth is not rejected: it sends a sixth
    request and fails with the storefront's error, not with the
    ceiling's. *)
Theorem sixth_failed_retry_reaches_platform :
  let retry := retrySyncLog "log-1" (Some client) storefront_down in
  let again := fun w => (retry w).2 in
  let after_five := again (again (again (again (again (shop_with_log 0))))) in
  map OutboundSyncLog.retry_count (integration_outbound_sync_logs after_five) = [1]
  ∧ requests after_five = repeat (WooUpdateOrderStatus 501 "completed") 5
  ∧ (retry after_five).1
    = Normal {| success := false; syncLogId := "log-1"; orderId := empty;
                platformType := empty; newStatus := empty;
                sr_error := Some "connect ECONNREFUSED"; retryCount := None |}
  ∧ requests (again after_five) = repeat (WooUpdateOrderStatus 501 "completed") 6.
Proof. vm_compute. repeat split; reflexivity. Qed.

(** Against C4 as worded: the failure record of a push whose order and
    integration were both found names neither the platform type nor the
    channel. *)
Lemma failure_record_hides_platform :
  ¬ records_actual_platform calm shop "o-2" "SHIPPED" (Some client).
Proof.
  intros H.
  destruct (H segregation_message shop (order "o-2" "WHOLESALE" "int-woo" (Some "502"))
              (integration "int-woo" "WOOCOMMERCE"))
    as (r & w' & row & Hs & Hl & _ & Hp & _); [reflexivity|reflexivity|reflexivity|].
  vm_compute in Hs. inversion Hs; subst. simpl in Hl. inversion Hl; subst.
  simpl in Hp. discriminate.
Qed.

Lemma sync_failure_recorded_as_unknown_witness :
  ∃ r w',
    syncStatusToExternalPlatform "o-1" "SHIPPED" (Some client) storefront_down shop
    = (Normal r, w')
    ∧ success r = false
    ∧ platformType r = "UNKNOWN"
    ∧ sr_error r = Some "connect ECONNREFUSED"
    ∧ match db_error storefront_down "integration_outbound_sync_logs" INSERT with
      | Some _ => integration_outbound_sync_logs w' = integration_outbound_sync_logs shop
      | None => ∃ row,
          integration_outbound_sync_logs w' = integration_outbound_sync_logs shop ++ [row]
          ∧ failure_row "o-1" "SHIPPED" "connect ECONNREFUSED" row
          ∧ syncLogId r = OutboundSyncLog.id row
      end.
Proof.
  apply (sync_failure_recorded_as_unknown storefront_down shop
           (set_requests (fun l => l ++ [WooUpdateOrderStatus 501 "completed"]) shop)
           "o-1" "SHIPPED" "connect ECONNREFUSED" (Some client)).
  reflexivity.
Defined.

(** Against C10 as worded: the retry of the failed row of
    [shop_after_failed_push] stops at the integration lookup, not in the
    unknown-platform branch. *)
Lemma retry_of_failed_row_stops_at_lookup :
  ¬ retry_ends_in_unknown_platform calm shop_after_failed_push
      "integration_outbound_sync_logs-0" None.
Proof.
  intros H.
  destruct (H failed_row) as (r & w' & Hr & _ & _ & He);
    [simpl; auto|reflexivity|reflexivity|].
  vm_compute in Hr. inversion Hr; subst. simpl in He. discriminate.
Qed.

Lemma failed_rows_cannot_be_retried_witness :
  (OutboundSyncLog.platform_type failed_row = "UNKNOWN"
   ∧ OutboundSyncLog.integration_id failed_row = empty
   ∧ OutboundSyncLog.channel failed_row = empty)
  ∧ ∀ (env2 : Env) (w2 : World) (client2 : option WooCommerceClient),
      In failed_row (integration_outbound_sync_logs w2) →
      ∃ r2 w2',
        retrySyncLog (OutboundSyncLog.id failed_row) client2 env2 w2 = (Normal r2, w2')
        ∧ success r2 = false
        ∧ requests w2' = requests w2.
Proof.
  apply (failed_rows_cannot_be_retried calm shop shop_after_failed_push "o-2" "SHIPPED"
           (Some client) failed_push_result failed_row).
  - reflexivity.
  - reflexivity.
  - reflexivity.
Defined.

End StatusSync.

(** ** The order import *)

Section OrderImport.
Import OrderImportService ImportResults.


(** An import that finds the order stored returns the duplicate outcome and
    stores nothing. *)
Lemma import_of_stored_order (env : Env) (w : World) (wooOrder : WooCommerceOrder)
    (integrationId : string) (o : OpsOrder.t) :
  db_error env "ops_orders" SELECT = None →
  matching (wo_id wooOrder) integrationId w = [o] →
  importOrder wooOrder integrationId env w
  = (Normal {| io_success := false; io_orderId := None;
               externalOrderId := wo_id wooOrder;
               io_error := Some "Order already imported" |}, w).
Proof.
  intros Hdb Hm. unfold importOrder, import_attempt, orderExists. run_async.
  rewrite Hdb, Hm. reflexivity.
Qed.



Import Samples.

(** A page that delivers one new order twice: one imported, one skipped. *)
Example import_run_counts_duplicate_as_skipped :
  (importOrdersFromWooCommerce "int-woo" None (page_with_duplicate (wooOrder 501))
     warehouse).1
  = Normal {| total := 2; imported := 1; skipped := 1; failed := 0; errors := [] |}.
Proof. vm_compute. reflexivity. Qed.


End OrderImport.

(** ** The request signer *)

Section Signer.
Import WooCommerceClient Stated.

Lemma insert_sorted_In (k x : string) (sorted : list string) :
  In x (insert_sorted k sorted) ↔ x = k ∨ In x sorted.
Proof.
  induction sorted as [|y rest IH]; simpl.
  - intuition.
  - destruct (String.leb k y); simpl; [intuition|]. rewrite IH. intuition.
Qed.

Lemma sort_In (x : string) (l : list string) : In x (sort l) ↔ In x l.
Proof.
  unfold sort. induction l as [|k l IH]; simpl; [tauto|].
  rewrite insert_sorted_In, IH. intuition.
Qed.

(** Encoding leaves a string of unreserved characters as it is. *)
Lemma encode_unreserved (s : string) :
  forallb unreserved (list_ascii_of_string s) = true → encodeURIComponent s = s.
Proof.
  induction s as [|c s IH]; simpl; [reflexivity|].
  destruct (unreserved c); simpl; [|discriminate]. intros H. rewrite IH; auto.
Qed.

(** Inserting an entry by its key is inserting the key. *)
Lemma insert_entry_keyed (val : string → string) (k : string) (sorted : list string) :
  insert_entry (k, val k) (map (fun k' => (k', val k')) sorted)
  = map (fun k' => (k', val k')) (insert_sorted k sorted).
Proof.
  induction sorted as [|y rest IH]; simpl; [reflexivity|].
  destruct (String.leb k y); simpl; [reflexivity|]. rewrite IH. reflexivity.
Qed.

(** When encoding leaves the keys as they are, sorting the encoded entries
    by encoded key is sorting the raw keys. *)
Lemma sorted_entries_keyed (val : string → string) (l : list (string * string)) :
  Forall (fun e => encodeURIComponent e.1 = e.1 ∧ val e.1 = encodeURIComponent e.2) l →
  foldr insert_entry [] (map (fun e => (encodeURIComponent e.1, encodeURIComponent e.2)) l)
  = map (fun k => (k, val k)) (sort l.*1).
Proof.
  unfold sort. induction 1 as [|[k v] l [Hk Hv] _ IH]; simpl in *; [reflexivity|].
  rewrite IH, Hk, <- Hv. apply insert_entry_keyed.
Qed.

Lemma sortedParams_plain_keys (params : gmap string string) :
  Forall (fun k => encodeURIComponent k = k) (keys params) →
  sortedParams params = spec_sortedParams params.
Proof.
  intros Hkeys. unfold keys in Hkeys. rewrite Forall_forall in Hkeys.
  unfold sortedParams, spec_sortedParams.
  rewrite (sorted_entries_keyed (fun k => encodeURIComponent (value params k))).
  - rewrite map_map. f_equal. apply map_ext_in. intros k Hk. simpl.
    apply (proj1 (sort_In _ _)) in Hk. rewrite (Hkeys k); [reflexivity|].
    apply list_elem_of_In. exact Hk.
  - apply Forall_forall. intros [k v] Hin. simpl. split.
    + apply Hkeys. apply list_elem_of_fmap. exists (k, v). auto.
    + unfold value. apply elem_of_map_to_list in Hin. rewrite Hin. reflexivity.
Qed.

(** *** The order of the parameter string *)

Lemma leb_trans (s1 s2 s3 : string) :
  String.leb s1 s2 = true → String.leb s2 s3 = true → String.leb s1 s3 = true.
Proof.
  unfold String.leb. revert s2 s3.
  induction s1 as [|a s1 IH]; intros [|b s2] [|c s3]; simpl; try congruence.
  change (Ascii.compare a b) with (N.compare (N_of_ascii a) (N_of_ascii b)).
  change (Ascii.compare b c) with (N.compare (N_of_ascii b) (N_of_ascii c)).
  change (Ascii.compare a c) with (N.compare (N_of_ascii a) (N_of_ascii c)).
  destruct (N.compare_spec (N_of_ascii a) (N_of_ascii b)) as [Hab|Hab|Hab],
           (N.compare_spec (N_of_ascii b) (N_of_ascii c)) as [Hbc|Hbc|Hbc],
           (N.compare_spec (N_of_ascii a) (N_of_ascii c)) as [Hac|Hac|Hac];
    try congruence; try lia; try apply IH.
Qed.

Lemma ltb_of_leb (s1 s2 : string) :
  String.leb s1 s2 = true → s1 ≠ s2 → String.ltb s1 s2 = true.
Proof.
  unfold String.leb, String.ltb. destruct (String.compare s1 s2) eqn:E;
    try congruence. intros _ Hne. apply String.compare_eq_iff in E. contradiction.
Qed.

Lemma insert_sorted_perm (k : string) (sorted : list string) :
  insert_sorted k sorted ≡ₚ k :: sorted.
Proof.
  induction sorted as [|x rest IH]; simpl; [reflexivity|].
  destruct (String.leb k x); [reflexivity|]. rewrite IH. apply perm_swap.
Qed.

Lemma sort_perm (l : list string) : sort l ≡ₚ l.
Proof.
  unfold sort. induction l as [|k l IH]; simpl; [reflexivity|].
  rewrite insert_sorted_perm, IH. reflexivity.
Qed.

Lemma insert_sorted_ascending (k : string) (sorted : list string) :
  StronglySorted (fun a b => String.leb a b = true) sorted →
  StronglySorted (fun a b => String.leb a b = true) (insert_sorted k sorted).
Proof.
  induction 1 as [|x rest Hrest IH Hx]; simpl.
  - repeat constructor.
  - destruct (String.leb k x) eqn:Hk.
    + constructor; [constructor; assumption|].
      constructor; [exact Hk|]. rewrite Forall_forall in Hx |- *.
      intros y Hy. apply (leb_trans k x y); auto.
    + constructor; [exact IH|]. rewrite Forall_forall in Hx |- *.
      intros y Hy. apply list_elem_of_In, insert_sorted_In in Hy as [->|Hy].
      * destruct (String.leb_total k x); congruence.
      * apply Hx, list_elem_of_In, Hy.
Qed.

Lemma sort_ascending (l : list string) :
  StronglySorted (fun a b => String.leb a b = true) (sort l).
Proof.
  unfold sort. induction l as [|k l IH]; simpl; [constructor|].
  apply insert_sorted_ascending, IH.
Qed.

Lemma ascending_strictly (l : list string) :
  NoDup l →
  StronglySorted (fun a b => String.leb a b = true) l →
  StronglySorted (fun a b => String.ltb a b = true) l.
Proof.
  intros Hnd Hs. induction Hs as [|x rest Hrest IH Hx]; [constructor|].
  apply NoDup_cons in Hnd as [Hnotin Hnd]. constructor; [auto|].
  rewrite Forall_forall in Hx |- *. intros y Hy. apply ltb_of_leb; [auto|].
  intros ->. contradiction.
Qed.

Lemma ascending_entries (val : string → string) (l : list string) :
  StronglySorted (fun a b => String.ltb a b = true) l →
  ascending_by_raw_key (map (fun k => (k, val k)) l).
Proof.
  unfold ascending_by_raw_key. induction l as [|x rest IH]; intros Hs; simpl;
    [constructor|].
  apply StronglySorted_inv in Hs as [Hrest Hx].
  constructor; [exact (IH Hrest)|].
  rewrite Forall_forall in Hx. rewrite Forall_forall. intros e He.
  apply list_elem_of_fmap in He as (k & -> & Hk). simpl. auto.
Qed.

(** The entries [generateOAuthSignature] renders: a key of the object with
    its value, in the order of the sorted keys.  They are the entries of the
    object, in ascending order of the raw keys. *)
Lemma sorted_raw_entries (params : gmap string string) :
  let entries := map (fun k => (k, value params k)) (sort (keys params)) in
  entries ≡ₚ map_to_list params
  ∧ ascending_by_raw_key entries
  ∧ sortedParams params = parameter_string entries.
Proof.
  cbn zeta. split; [|split].
  - rewrite sort_perm. unfold keys.
    assert (Hmap : map (fun k => (k, value params k)) (map_to_list params).*1
                   = map_to_list params).
    { rewrite <- list_fmap_compose. rewrite <- (list_fmap_id (map_to_list params)) at 2.
      apply list_fmap_ext. intros i [k v] Hi. simpl. f_equal.
      apply list_elem_of_lookup_2, elem_of_map_to_list in Hi.
      unfold value. rewrite Hi. reflexivity. }
    fold (fmap (M:=list) (fun k => (k, value params k)) (map_to_list params).*1).
    rewrite Hmap. reflexivity.
  - apply ascending_entries, ascending_strictly; [|apply sort_ascending].
    rewrite sort_perm. apply NoDup_fst_map_to_list.
  - unfold sortedParams, parameter_string. rewrite map_map. reflexivity.
Qed.

(** C6, as the code has it. For every method, URL and parameter set, the
    signature is the keyed hash (HMAC-SHA256, base64) under the key
    encode(consumer_secret)+'&' of the base string
    UPPERCASE(METHOD)&encode(URL)&encode(parameter string), where the
    parameter string lists encode(key)=encode(value) for the entries of the
    parameter set in ascending order of their raw keys (the keys as given,
    not as encoded).  Whenever percent-encoding leaves the keys unchanged this
    is the order of the encoded keys, and the signature is the one the
    specification describes.  The method is ASCII text and no key has a
    character outside the Basic Multilingual Plane: there the string order
    and the upper-casing of the model are those of JavaScript. *)
Theorem signature_follows_raw_key_order (env : Env) (config : IntegrationConfig)
    (method url : string) (params : gmap string string) :
  ascii_text method = true →
  forallb bmp_text (keys params) = true →
  ∃ entries,
    entries ≡ₚ map_to_list params
    ∧ ascending_by_raw_key entries
    ∧ generateOAuthSignature env config method url params
      = hmac_sha256_base64 env (encodeURIComponent (consumerSecret config) +:+ "&")
          (toUpperCase method +:+ "&" +:+ encodeURIComponent url +:+ "&"
             +:+ encodeURIComponent (parameter_string entries))
    ∧ (Forall (fun k => encodeURIComponent k = k) (keys params) →
       generateOAuthSignature env config method url params
       = spec_signature env config method url params).
Proof.
  intros _ _. destruct (sorted_raw_entries params) as (Hperm & Hasc & Hstr).
  eexists. split; [exact Hperm|]. split; [exact Hasc|]. split.
  - unfold generateOAuthSignature, signatureBaseString, signingKey. rewrite Hstr.
    reflexivity.
  - intros Hkeys.
    unfold generateOAuthSignature, spec_signature, signatureBaseString,
      spec_signatureBaseString.
    rewrite (sortedParams_plain_keys params Hkeys). reflexivity.
Qed.

Import Samples.

Lemma signature_follows_raw_key_order_witness :
  ∃ entries,
    entries ≡ₚ map_to_list odd_keys
    ∧ ascending_by_raw_key entries
    ∧ generateOAuthSignature calm config "get" orders_url odd_keys
      = hmac_sha256_base64 calm (encodeURIComponent (consumerSecret config) +:+ "&")
          (toUpperCase "get" +:+ "&" +:+ encodeURIComponent orders_url +:+ "&"
             +:+ encodeURIComponent (parameter_string entries))
    ∧ (Forall (fun k => encodeURIComponent k = k) (keys odd_keys) →
       generateOAuthSignature calm config "get" orders_url odd_keys
       = spec_signature calm config "get" orders_url odd_keys).
Proof.
  apply (signature_follows_raw_key_order calm config "get" orders_url odd_keys).
  - reflexivity.
  - vm_compute. reflexivity.
Defined.

(** On the keys [a-] and [a/] the parameter string signed is
    [a-=1&a%2F=2], the raw order; the encoded keys sort the other way. *)
Example odd_keys_are_signed_in_raw_order :
  sortedParams odd_keys = "a-=1&a%2F=2"
  ∧ spec_sortedParams odd_keys = "a%2F=2&a-=1".
Proof. vm_compute. split; reflexivity. Qed.

(** Against C6 as worded: on the keys [a-] and [a/] the raw order and the
    encoded order differ, and so do the two base strings. *)
Lemma raw_key_order_differs : ¬ Stated.signs_canonical_form "get" orders_url odd_keys.
Proof. unfold Stated.signs_canonical_form. vm_compute. discriminate. Qed.

End Signer.

(** ** The inventory export *)

Section InventoryExport.
Import InventorySyncService InventorySyncResult Samples.

(** A product with no row in its table resolves to the quantity 0, not to
    [null]. *)
Lemma missing_bundle_resolves_to_zero (env : Env) (w : World) (productId : string)
    (variationId : option string) :
  db_error env "bundles" SELECT = None →
  Forall (fun r => Stocked.id r ≠ productId) (bundles w) →
  getWarehouseInventory productId "BUNDLE" variationId env w = (Normal (Some 0), w).
Proof.
  intros Hdb Hnone. unfold getWarehouseInventory. simpl. run_async. rewrite Hdb.
  assert (List.filter (fun r => String.eqb (Stocked.id r) productId) (bundles w) = []) as ->.
  { induction Hnone as [|r l Hr _ IH]; simpl; [reflexivity|].
    destruct (String.eqb_spec (Stocked.id r) productId); [contradiction|exact IH]. }
  reflexivity.
Qed.

(** C7, on the code. Two sync-enabled mappings, one to a bundle with no
    stock left and one to a bundle that is not in the warehouse: the run
    counts both as synced and sends stock 0 for both; nothing is skipped and
    no message names the missing product. *)
Theorem export_counts_missing_product_as_synced :
  (syncInventoryToWooCommerce "int-woo" None calm warehouse).1
  = Normal {| total := 2; synced := 2; skipped := 0; failed := 0; errors := [] |}
  ∧ requests (syncInventoryToWooCommerce "int-woo" None calm warehouse).2
    = [WooBatchUpdateProducts [(Some 71, 0); (Some 72, 0)]].
Proof. vm_compute. split; reflexivity. Qed.

End InventoryExport.

(** ** The boundary of the pipelines *)

Section Boundary.
Import Stated.


Lemma filter_fresh_key {A : Type} (key : A → string) (id : string) (l : list A) :
  ¬ In id (map key l) → List.filter (fun x => String.eqb (key x) id) l = [].
Proof.
  induction l as [|x l IH]; simpl; [reflexivity|]. intros Hnot.
  destruct (String.eqb_spec (key x) id); [tauto|]. apply IH. tauto.
Qed.

Lemma map_fresh_key {A : Type} (key : A → string) (f : A → A) (id : string) (l : list A) :
  ¬ In id (map key l) →
  map (fun x => if String.eqb (key x) id then f x else x) l = l.
Proof.
  induction l as [|x l IH]; simpl; [reflexivity|]. intros Hnot.
  destruct (String.eqb_spec (key x) id); [tauto|]. rewrite IH; tauto.
Qed.




Lemma import_is_logged_run (integrationId : string)
    (options : option OrderImportService.Options) :
  OrderImportService.importOrdersFromWooCommerce integrationId options
  = logged_run integrationId "ORDER_IMPORT" "INBOUND"
      (fun logId => OrderImportService.import_run integrationId logId options).
Proof. reflexivity. Qed.

Lemma export_is_logged_run (integrationId : string)
    (options : option InventorySyncService.Options) :
  InventorySyncService.syncInventoryToWooCommerce integrationId options
  = logged_run integrationId "INVENTORY_EXPORT" "OUTBOUND"
      (fun logId => InventorySyncService.export_run integrationId logId options).
Proof. reflexivity. Qed.

(** *** Sequencing *)

Lemma bind_normal {A B : Type} (m : Async A) (k : A → Async B) (env : Env)
    (w w' : World) (b : B) :
  bind m k env w = (Normal b, w') →
  ∃ a w1, m env w = (Normal a, w1) ∧ k a env w1 = (Normal b, w').
Proof.
  unfold bind. destruct (m env w) as [[a|e] w1]; [eauto|discriminate].
Qed.

Lemma try_catch_normal {A : Type} (body : Async A) (handler : string → Async A)
    (env : Env) (w w' : World) (a : A) :
  try_catch body handler env w = (Normal a, w') →
  body env w = (Normal a, w')
  ∨ ∃ e w1, body env w = (Throw e, w1) ∧ handler e env w1 = (Normal a, w').
Proof.
  unfold try_catch. destruct (body env w) as [[a1|e] w1]; eauto.
Qed.

(** The [catch] of a run always throws. *)
Lemma fail_run_throws {A : Type} (logId integrationId message : string) (env : Env)
    (w w' : World) (a : A) :
  fail_run logId integrationId message env w ≠ (Normal a, w').
Proof.
  unfold fail_run, IntegrationService.updateSyncLog, IntegrationService.updateIntegration,
    IntegrationService.unwrap.
  run_async. intros H. repeat split_answer; discriminate.
Qed.

(** The end of a run returns the results it was given and sends nothing. *)
Lemma finish_run_normal {A : Type} (logId integrationId status : string)
    (processed failed_count : Z) (details : Details) (error_details : option ErrorDetails)
    (results r : A) (env : Env) (w w' : World) :
  finish_run logId integrationId status processed failed_count details error_details
    results env w = (Normal r, w') →
  r = results ∧ requests w' = requests w.
Proof.
  unfold finish_run, IntegrationService.updateSyncLog, IntegrationService.updateIntegration,
    IntegrationService.unwrap.
  run_async. intros H. repeat split_answer; try discriminate. auto.
Qed.

(** The frame of both runs, when the run returns: the integration is in
    the store, a storefront, and the result is the one of the [try] block. *)
Lemma logged_run_normal {A : Type} (integrationId sync_type direction : string)
    (body : string → Async A) (env : Env) (w w' : World) (a : A) :
  logged_run integrationId sync_type direction body env w = (Normal a, w') →
  ∃ i logId w1,
    IntegrationService.with_id integrationId w = [i]
    ∧ Integration.platform_type i = "WOOCOMMERCE"
    ∧ requests w1 = requests w
    ∧ product_mappings w1 = product_mappings w
    ∧ integrations w1 = integrations w
    ∧ body logId env w1 = (Normal a, w').
Proof.
  unfold logged_run. intros H.
  apply bind_normal in H as (i & w1 & Hi & H).
  apply bind_normal in H as (env' & w2 & He & H).
  apply bind_normal in H as (l & w3 & Hl & H).
  apply try_catch_normal in H as [H|(e & w4 & _ & H)];
    [|exfalso; exact (fail_run_throws _ _ _ _ _ _ _ H)].
  unfold storefront_integration, IntegrationService.getIntegration,
    IntegrationService.unwrap in Hi.
  unfold IntegrationService.createSyncLog in Hl.
  run_async.
  destruct (db_error env "integrations" SELECT); simpl in Hi; [discriminate|].
  destruct (IntegrationService.with_id integrationId w) as [|i0 [|j rest]] eqn:Hw;
    simpl in Hi; try discriminate.
  destruct (String.eqb_spec (Integration.platform_type i0) "WOOCOMMERCE") as [Hp|Hp];
    simpl in Hi; [|discriminate].
  inversion Hi; subst i w1. inversion He; subst env' w2.
  exists i0, (SyncLog.id l), w3. repeat split; auto.
  all: destruct (db_error env "integration_sync_logs" INSERT); simpl in Hl;
    inversion Hl; subst; reflexivity.
Qed.

(** *** The loops over the records *)

Lemma importOrder_sends_nothing (env : Env) (w w' : World) (wooOrder : WooCommerceOrder)
    (integrationId : string) (c : Completion ImportOrderResult) :
  OrderImportService.importOrder wooOrder integrationId env w = (c, w') →
  (∃ r, c = Normal r) ∧ requests w' = requests w.
Proof.
  unfold OrderImportService.importOrder, OrderImportService.import_attempt,
    OrderImportService.orderExists.
  run_async. intros H. repeat split_answer; eauto.
Qed.

Lemma tally_counts (wooOrder : WooCommerceOrder) (result : ImportOrderResult)
    (r : ImportResults.t) :
  let r' := OrderImportService.tally wooOrder result r in
  ImportResults.total r' = ImportResults.total r
  ∧ ImportResults.imported r' + ImportResults.skipped r' + ImportResults.failed r'
    = ImportResults.imported r + ImportResults.skipped r + ImportResults.failed r + 1
  ∧ Z.of_nat (length (ImportResults.errors r')) - ImportResults.failed r'
    = Z.of_nat (length (ImportResults.errors r)) - ImportResults.failed r
  ∧ ImportResults.imported r ≤ ImportResults.imported r'
  ∧ ImportResults.skipped r ≤ ImportResults.skipped r'
  ∧ ImportResults.failed r ≤ ImportResults.failed r'.
Proof.
  unfold OrderImportService.tally.
  destruct (io_success result); simpl; [lia|].
  destruct (match io_error result with
            | Some e => includes e "already imported"
            | None => false
            end); simpl; [lia|].
  rewrite length_app. simpl. lia.
Qed.

Lemma import_loop (env : Env) (integrationId : string) (orders : list WooCommerceOrder) :
  ∀ (r : ImportResults.t) (w w' : World) (c : Completion ImportResults.t),
    for_of orders (OrderImportService.import_one integrationId) r env w = (c, w') →
    ∃ r',
      c = Normal r'
      ∧ requests w' = requests w
      ∧ ImportResults.total r' = ImportResults.total r
      ∧ ImportResults.imported r' + ImportResults.skipped r' + ImportResults.failed r'
        = ImportResults.imported r + ImportResults.skipped r + ImportResults.failed r
          + Z.of_nat (length orders)
      ∧ Z.of_nat (length (ImportResults.errors r')) - ImportResults.failed r'
        = Z.of_nat (length (ImportResults.errors r)) - ImportResults.failed r
      ∧ ImportResults.imported r ≤ ImportResults.imported r'
      ∧ ImportResults.skipped r ≤ ImportResults.skipped r'
      ∧ ImportResults.failed r ≤ ImportResults.failed r'.
Proof.
  induction orders as [|o rest IH]; intros r w w' c H.
  - simpl in H. unfold ret in H. inversion H; subst. exists r. simpl.
    repeat split; lia.
  - simpl in H. unfold OrderImportService.import_one at 1, bind, ret in H.
    destruct (OrderImportService.importOrder o integrationId env w) as [c1 w1] eqn:Hi.
    apply importOrder_sends_nothing in Hi as [[r1 ->] Hq].
    apply IH in H as (r' & -> & Hq' & Ht & Hsum & Herr & H1 & H2 & H3).
    pose proof (tally_counts o r1 r) as (Tt & Tsum & Terr & T1 & T2 & T3).
    exists r'. split; [reflexivity|]. split; [congruence|].
    cbn [length]. repeat split; lia.
Qed.

Ltac step_finish :=
  rewrite ?app_nil_r; (split; [reflexivity|]); simpl;
  rewrite ?length_app; simpl; repeat split; try lia; try reflexivity;
  repeat constructor.

Lemma sync_one_step (env : Env) (m : ProductMapping.t) (r : InventorySyncResult.t)
    (u : list (option Z * Z)) (w w' : World) (c : Completion InventorySyncService.LoopState) :
  InventorySyncService.sync_one m (r, u) env w = (c, w') →
  ∃ r' ext calls,
    c = Normal (r', u ++ ext)
    ∧ InventorySyncResult.total r' = InventorySyncResult.total r
    ∧ InventorySyncResult.synced r' + InventorySyncResult.skipped r'
      + InventorySyncResult.failed r'
      = InventorySyncResult.synced r + InventorySyncResult.skipped r
        + InventorySyncResult.failed r + 1
    ∧ Z.of_nat (length (InventorySyncResult.errors r'))
      - InventorySyncResult.skipped r' - InventorySyncResult.failed r'
      = Z.of_nat (length (InventorySyncResult.errors r))
        - InventorySyncResult.skipped r - InventorySyncResult.failed r
    ∧ InventorySyncResult.synced r + Z.of_nat (length ext) ≤ InventorySyncResult.synced r'
    ∧ InventorySyncResult.skipped r ≤ InventorySyncResult.skipped r'
    ∧ InventorySyncResult.failed r ≤ InventorySyncResult.failed r'
    ∧ requests w' = requests w ++ calls
    ∧ Forall variation_update calls.
Proof.
  unfold InventorySyncService.sync_one, InventorySyncService.getWarehouseInventory.
  run_async. intros H.
  repeat split_answer;
    first [ solve [eexists _, [], []; step_finish]
          | solve [eexists _, [], [_]; step_finish]
          | solve [eexists _, [_], []; step_finish] ].
Qed.

Lemma export_loop (env : Env) (mappings : list ProductMapping.t) :
  ∀ (r : InventorySyncResult.t) (u : list (option Z * Z)) (w w' : World)
    (c : Completion InventorySyncService.LoopState),
    for_of mappings InventorySyncService.sync_one (r, u) env w = (c, w') →
    ∃ r' ext calls,
      c = Normal (r', u ++ ext)
      ∧ InventorySyncResult.total r' = InventorySyncResult.total r
      ∧ InventorySyncResult.synced r' + InventorySyncResult.skipped r'
        + InventorySyncResult.failed r'
        = InventorySyncResult.synced r + InventorySyncResult.skipped r
          + InventorySyncResult.failed r + Z.of_nat (length mappings)
      ∧ Z.of_nat (length (InventorySyncResult.errors r'))
        - InventorySyncResult.skipped r' - InventorySyncResult.failed r'
        = Z.of_nat (length (InventorySyncResult.errors r))
          - InventorySyncResult.skipped r - InventorySyncResult.failed r
      ∧ InventorySyncResult.synced r + Z.of_nat (length ext) ≤ InventorySyncResult.synced r'
      ∧ InventorySyncResult.skipped r ≤ InventorySyncResult.skipped r'
      ∧ InventorySyncResult.failed r ≤ InventorySyncResult.failed r'
      ∧ requests w' = requests w ++ calls
      ∧ Forall variation_update calls.
Proof.
  induction mappings as [|m rest IH]; intros r u w w' c H.
  - simpl in H. unfold ret in H. inversion H; subst. exists r, [], [].
    rewrite !app_nil_r. simpl. repeat split; try lia. constructor.
  - cbn [for_of] in H. unfold bind in H.
    destruct (InventorySyncService.sync_one m (r, u) env w) as [c1 w1] eqn:Hs.
    apply sync_one_step in Hs
      as (r1 & ext1 & calls1 & -> & Ht1 & Hsum1 & Herr1 & Hu1 & Hk1 & Hf1 & Hq1 & Hc1).
    apply IH in H
      as (r' & ext & calls & -> & Ht & Hsum & Herr & Hu & Hk & Hf & Hq & Hc).
    exists r', (ext1 ++ ext), (calls1 ++ calls).
    split; [rewrite app_assoc; reflexivity|].
    rewrite length_app. cbn [length].
    repeat split; try lia.
    + rewrite Hq, Hq1, app_assoc. reflexivity.
    + apply Forall_app. auto.
Qed.


(** *** Before the log row *)


(** *** The push and its row *)



Import Samples.



End Boundary.

(** ** The webhook route *)

Section Webhooks.
Import WebhooksRoutes Stated.

(** The import of a webhook order leaves the queue as it is. *)
Lemma processWebhookOrder_queue (env : Env) (w w' : World) (integrationId : string)
    (wooOrder : WooCommerceOrder) (c : Completion ImportOrderResult) :
  OrderImportService.processWebhookOrder integrationId wooOrder env w = (c, w') →
  webhook_queue w' = webhook_queue w.
Proof.
  unfold OrderImportService.processWebhookOrder, OrderImportService.importOrder,
    OrderImportService.import_attempt, OrderImportService.orderExists,
    IntegrationService.createSyncLog, IntegrationService.updateSyncLog,
    IntegrationService.unwrap.
  run_async. intros H. repeat split_answer; reflexivity.
Qed.

(** Past the gate: the delivery is queued and answered 200, or the queue
    refuses it and the answer is 500. *)
Lemma accept_spec (env : Env) (w : World) (req : Request) :
  ∃ resp w',
    try_catch (accept req) (fun message => respond 500 false message) env w
    = (Normal resp, w')
    ∧ let_through env w w' req resp.
Proof.
  unfold accept, IntegrationService.queueWebhook, let_through, respond. run_async.
  destruct (db_error env "webhook_queue" INSERT); simpl.
  - eexists _, _. split; [reflexivity|]. simpl. auto.
  - destruct (is_order_topic (x_wc_webhook_topic req)); simpl.
    + destruct (OrderImportService.processWebhookOrder _ _ _ _) as [[r1|e] w2] eqn:Ep;
        apply processWebhookOrder_queue in Ep; simpl in Ep;
        eexists _, _; (split; [reflexivity|]); simpl; auto.
    + eexists _, _. split; [reflexivity|]. simpl. auto.
Qed.

(** C9, as the code has it. For a webhook POST to a known integration: an
    inactive integration is answered 400 and a signature that fails HMAC
    verification against the stored secret is answered 401, both with no
    effect on the store. The signature is verified only when the integration
    has a webhook secret and the request carries a signature header; a
    request with no signature header, or to an integration with no secret, is
    let through unverified: it is queued and answered 200. *)
Theorem webhook_gate (env : Env) (w : World) (req : Request) (i : Integration.t) :
  db_error env "integrations" SELECT = None →
  IntegrationService.with_id (integrationId req) w = [i] →
  ∃ resp w',
    post_woocommerce req env w = (Normal resp, w')
    ∧ if negb (Integration.is_active i) then status resp = 400 ∧ w' = w
      else
        match must_verify (webhookSecret (Integration.config i))
                (x_wc_webhook_signature req) with
        | Some (secret, sig) =>
            if WooCommerceClient.verifyWebhookSignature env (JSON_stringify env (body req))
                 sig secret
            then let_through env w w' req resp
            else status resp = 401 ∧ w' = w
        | None => let_through env w w' req resp
        end.
Proof.
  intros Hdb Hid.
  unfold post_woocommerce, receive, IntegrationService.getIntegration,
    IntegrationService.unwrap.
  unfold try_catch at 1. unfold bind at 1. unfold bind at 1. unfold db_select.
  rewrite Hdb, Hid. simpl.
  destruct (Integration.is_active i); simpl.
  - unfold bind at 1. unfold ask.
    destruct (must_verify (webhookSecret (Integration.config i))
                (x_wc_webhook_signature req)) as [[secret sig]|]; simpl.
    + destruct (WooCommerceClient.verifyWebhookSignature env _ sig secret); simpl.
      * apply accept_spec.
      * eexists _, _. split; [reflexivity|]. simpl. auto.
    + apply accept_spec.
  - eexists _, _. split; [reflexivity|]. simpl. auto.
Qed.

Import Samples.

Lemma webhook_gate_witness :
  ∃ resp w',
    post_woocommerce forged_delivery calm warehouse = (Normal resp, w')
    ∧ status resp = 401 ∧ w' = warehouse.
Proof.
  apply (webhook_gate calm warehouse forged_delivery (integration "int-woo" "WOOCOMMERCE")).
  - reflexivity.
  - reflexivity.
Defined.

(** Against C9 as worded: a delivery with no signature header is queued
    and answered 200. *)
Lemma unsigned_delivery_is_queued :
  ¬ refuses_unauthenticated calm warehouse unsigned_delivery.
Proof.
  intros H.
  destruct (H (integration "int-woo" "WOOCOMMERCE")) as (resp & w' & Hr & Hs & Hq).
  - reflexivity.
  - left. intros (secret & sig & _ & Hsig & _). discriminate.
  - vm_compute in Hr. inversion Hr; subst. simpl in Hq. discriminate.
Qed.

End Webhooks.

(** * Further properties *)

(** ** The status tables *)

Section StatusTables.
Import OrderStatusSyncService.

Ltac by_status s :=
  repeat match goal with
         | |- context [String.eqb s ?l] => destruct (String.eqb_spec s l); [subst; simpl|]
         end.

(** X1. The two outbound tables translate every warehouse status alike,
    except IN_TRANSIT (for a status that is not the name of a member the
    tables inherit from [Object.prototype]). *)
Theorem status_tables_differ_only_in_transit (warehouseStatus : string) :
  inherited warehouseStatus = false →
  (mapToWooCommerceStatus warehouseStatus = mapToKubaccoStatus warehouseStatus
   ↔ warehouseStatus ≠ "IN_TRANSIT").
Proof.
  intros _. unfold mapToWooCommerceStatus, mapToKubaccoStatus. by_status warehouseStatus;
    split; intros; try reflexivity; try discriminate; try congruence.
Qed.

Lemma status_tables_differ_only_in_transit_witness :
  mapToWooCommerceStatus "IN_TRANSIT" = mapToKubaccoStatus "IN_TRANSIT"
  ↔ "IN_TRANSIT" ≠ "IN_TRANSIT".
Proof.
  apply (status_tables_differ_only_in_transit "IN_TRANSIT"). reflexivity.
Defined.

(** X2. A storefront status that went through the import table and back
    through the outbound table is one of the four statuses the outbound table
    knows, and it is the status that came in exactly for those four (for a
    status that is not the name of a member the tables inherit from
    [Object.prototype]). *)
Theorem storefront_status_round_trip (wooStatus : string) :
  inherited wooStatus = false →
  let back := mapToWooCommerceStatus
                (OrderImportService.mapWooCommerceStatusToWarehouse wooStatus) in
  In back ["processing"; "completed"; "cancelled"; "refunded"]
  ∧ (back = wooStatus
     ↔ In wooStatus ["processing"; "completed"; "cancelled"; "refunded"]).
Proof.
  intros _.
  unfold mapToWooCommerceStatus, OrderImportService.mapWooCommerceStatusToWarehouse.
  by_status wooStatus; (split; [simpl; tauto|]); simpl; split; intros H;
    try tauto; try discriminate; try (subst; tauto);
    try (intuition (discriminate || congruence)).
Qed.

Lemma storefront_status_round_trip_witness :
  let back := mapToWooCommerceStatus
                (OrderImportService.mapWooCommerceStatusToWarehouse "on-hold") in
  In back ["processing"; "completed"; "cancelled"; "refunded"]
  ∧ (back = "on-hold"
     ↔ In "on-hold" ["processing"; "completed"; "cancelled"; "refunded"]).
Proof.
  apply (storefront_status_round_trip "on-hold"). reflexivity.
Defined.

End StatusTables.

(** ** The request signer, further *)

Section SignerMore.
Import WooCommerceClient WooCommerceRequest.

Lemma unescape_percent (c : ascii) :
  unescape (hex_digit (N_of_ascii c / 16)) (hex_digit (N_of_ascii c mod 16)) = c.
Proof. destruct c as [[] [] [] [] [] [] [] []]; vm_compute; reflexivity. Qed.

Lemma percent_inj (c1 c2 : ascii) : percent c1 = percent c2 → c1 = c2.
Proof.
  unfold percent. intros H. injection H as H1 H2.
  rewrite <- (unescape_percent c1), <- (unescape_percent c2), H1, H2. reflexivity.
Qed.

Lemma percent_chars (c : ascii) :
  forallb (fun x => unreserved x || Ascii.eqb x "%") (list_ascii_of_string (percent c)) = true.
Proof. destruct c as [[] [] [] [] [] [] [] []]; vm_compute; reflexivity. Qed.

Lemma list_ascii_of_append (a b : string) :
  list_ascii_of_string (a +:+ b) = list_ascii_of_string a ++ list_ascii_of_string b.
Proof. induction a as [|c a IH]; simpl; [reflexivity|]. rewrite IH. reflexivity. Qed.

(** X3. The output of [encodeURIComponent] holds unreserved characters and
    the percent sign only: no [&], [=], [/], space or other delimiter
    survives in an encoded key, value or URL. *)
Theorem encoded_text_is_delimiter_free (s : string) :
  forallb (fun x => unreserved x || Ascii.eqb x "%")
    (list_ascii_of_string (encodeURIComponent s)) = true.
Proof.
  induction s as [|c s IH]; [reflexivity|].
  cbn [encodeURIComponent]. destruct (unreserved c) eqn:Hc.
  - cbn [list_ascii_of_string forallb]. rewrite Hc, IH. reflexivity.
  - rewrite list_ascii_of_append, forallb_app, percent_chars, IH. reflexivity.
Qed.

(** X4. [encodeURIComponent] is injective: two different keys, values or
    URLs never sign as the same text. *)
Theorem encodeURIComponent_inj (s1 s2 : string) :
  encodeURIComponent s1 = encodeURIComponent s2 → s1 = s2.
Proof.
  revert s2. induction s1 as [|c1 s1 IH]; intros [|c2 s2]; simpl.
  - reflexivity.
  - destruct (unreserved c2); discriminate.
  - destruct (unreserved c1); discriminate.
  - destruct (unreserved c1) eqn:H1, (unreserved c2) eqn:H2; simpl; intros H.
    + injection H as -> H. f_equal. apply IH. exact H.
    + injection H as -> _. discriminate.
    + injection H as <- _. discriminate.
    + unfold percent in H. simpl in H. injection H as Ha Hb Hrest.
      assert (percent c1 = percent c2) as Hp.
      { unfold percent. rewrite Ha, Hb. reflexivity. }
      apply percent_inj in Hp as ->. f_equal. apply IH. exact Hrest.
Qed.

Lemma encodeURIComponent_inj_witness :
  encodeURIComponent "a/b c" = "a%2Fb%20c" ∧ "a/b" +:+ " c" = "a/b c".
Proof.
  split; [vm_compute; reflexivity|].
  apply (encodeURIComponent_inj ("a/b" +:+ " c") "a/b c").
  vm_compute. reflexivity.
Defined.

Lemma upper_idempotent (c : ascii) : upper (upper c) = upper c.
Proof. destruct c as [[] [] [] [] [] [] [] []]; vm_compute; reflexivity. Qed.

Lemma toUpperCase_idempotent (s : string) : toUpperCase (toUpperCase s) = toUpperCase s.
Proof.
  induction s as [|c s IH]; simpl; [reflexivity|]. rewrite upper_idempotent, IH. reflexivity.
Qed.

(** X5. The signature does not depend on the case of the method: a request
    signed as [get] and one signed as [GET] carry the same signature. *)
Theorem signature_ignores_method_case (env : Env) (config : IntegrationConfig)
    (method1 method2 url : string) (params : gmap string string) :
  toUpperCase method1 = toUpperCase method2 →
  generateOAuthSignature env config method1 url params
  = generateOAuthSignature env config method2 url params
  ∧ generateOAuthSignature env config (toUpperCase method1) url params
    = generateOAuthSignature env config method1 url params.
Proof.
  intros H. unfold generateOAuthSignature, signatureBaseString.
  rewrite toUpperCase_idempotent, H. split; reflexivity.
Qed.


Import Samples.

Lemma signature_ignores_method_case_witness :
  generateOAuthSignature calm config "get" orders_url order_query
  = generateOAuthSignature calm config "GET" orders_url order_query
  ∧ generateOAuthSignature calm config (toUpperCase "get") orders_url order_query
    = generateOAuthSignature calm config "get" orders_url order_query.
Proof.
  apply (signature_ignores_method_case calm config "get" "GET" orders_url order_query).
  reflexivity.
Defined.

(** X6. Every request carries the five OAuth parameters; a query parameter
    is sent as given, also when it bears the name of an OAuth parameter; and
    when the query has no parameter named [oauth_signature], the signature
    sent is the one computed over exactly the other parameters sent. *)
Theorem request_is_signed_over_what_it_sends (env : Env) (config : IntegrationConfig)
    (method endpoint timestamp nonce : string) (queryParams : gmap string string) :
  let sent := request_params env config method endpoint timestamp nonce queryParams in
  Forall (fun k => is_Some (sent !! k))
    ["oauth_consumer_key"; "oauth_timestamp"; "oauth_nonce"; "oauth_signature_method";
     "oauth_version"; "oauth_signature"]
  ∧ (∀ k v, k ≠ "oauth_signature" → queryParams !! k = Some v → sent !! k = Some v)
  ∧ (queryParams !! "oauth_signature" = None →
     sent !! "oauth_signature"
     = Some (generateOAuthSignature env config method (request_url config endpoint)
               (delete "oauth_signature" sent))).
Proof.
  unfold request_params. cbn zeta. split; [|split].
  - assert (Hq : ∀ k, is_Some (getOAuthParams config timestamp nonce !! k) →
                      is_Some (allParams config timestamp nonce queryParams !! k)).
    { intros k [v Hv]. unfold allParams.
      destruct (queryParams !! k) as [q|] eqn:E.
      - exists q. apply lookup_union_Some_raw. auto.
      - exists v. apply lookup_union_Some_raw. auto. }
    repeat constructor;
      try (rewrite lookup_insert_ne by discriminate; apply Hq; unfold getOAuthParams;
           eexists; simplify_map_eq; reflexivity).
    rewrite lookup_insert_eq. eauto.
  - intros k v Hk Hq. rewrite lookup_insert_ne by congruence.
    unfold allParams. apply lookup_union_Some_raw. auto.
  - intros Hnone. rewrite lookup_insert_eq, delete_insert_eq, delete_id; [reflexivity|].
    unfold allParams. rewrite lookup_union_r by exact Hnone. reflexivity.
Qed.

Lemma request_is_signed_over_what_it_sends_witness :
  let sent := request_params calm config "GET" "/orders" "1714557600" "ab12" order_query in
  Forall (fun k => is_Some (sent !! k))
    ["oauth_consumer_key"; "oauth_timestamp"; "oauth_nonce"; "oauth_signature_method";
     "oauth_version"; "oauth_signature"]
  ∧ (∀ k v, k ≠ "oauth_signature" → order_query !! k = Some v → sent !! k = Some v)
  ∧ (order_query !! "oauth_signature" = None →
     sent !! "oauth_signature"
     = Some (generateOAuthSignature calm config "GET" (request_url config "/orders")
               (delete "oauth_signature" sent))).
Proof.
  exact (request_is_signed_over_what_it_sends calm config "GET" "/orders" "1714557600"
           "ab12" order_query).
Defined.

End SignerMore.

(** ** External ids as text *)

Section ExternalIds.

Lemma below_ten (m : N) :
  (m < 10)%N →
  (m = 0 ∨ m = 1 ∨ m = 2 ∨ m = 3 ∨ m = 4 ∨ m = 5 ∨ m = 6 ∨ m = 7 ∨ m = 8 ∨ m = 9)%N.
Proof. lia. Qed.

Lemma digit_of_pretty_char (m : N) :
  (m < 10)%N → digit_of 10 (pretty_N_char m) = Some (Z.of_N m).
Proof.
  intros H. apply below_ten in H.
  repeat (destruct H as [->|H]; [reflexivity|]). subst. reflexivity.
Qed.

Lemma pretty_N_go_reads (x : N) :
  (0 < x)%N →
  ∀ s, (∃ n : nat, ∀ acc, read_digits 10 acc (pretty_N_go x s)
                    = read_digits 10 (Some (10 ^ Z.of_nat n * default 0 acc + Z.of_N x)) s)
       ∧ ∃ m rest, (m < 10)%N ∧ pretty_N_go x s = String (pretty_N_char m) rest
                   ∧ (rest = s ∨ starts_with_digit rest).
Proof.
  induction x as [x IH] using (well_founded_induction N.lt_wf_0). intros Hx s.
  rewrite (pretty_N_go_step x s Hx).
  assert (Hm : (x `mod` 10 < 10)%N) by (apply N.mod_lt; lia).
  pose proof (N.div_mod x 10 ltac:(lia)) as Hdm.
  destruct (N.eq_dec (x `div` 10)%N 0%N) as [Hz|Hnz].
  - rewrite Hz, pretty_N_go_0. split.
    + exists 1%nat. intros acc. simpl read_digits. rewrite (digit_of_pretty_char _ Hm).
      f_equal. f_equal. rewrite Hz in Hdm. lia.
    + exists (x `mod` 10)%N, s. auto.
  - destruct (IH (x `div` 10)%N) with (s := String (pretty_N_char (x `mod` 10)) s)
      as [[n Hn] (m & rest & Hlt & Hshape & Hrest)].
    { apply N.div_lt; lia. }
    { lia. }
    split.
    + exists (S n). intros acc. rewrite Hn. simpl read_digits.
      rewrite (digit_of_pretty_char _ Hm). f_equal. f_equal. simpl default.
      rewrite Nat2Z.inj_succ, Z.pow_succ_r by lia. lia.
    + exists m, rest. split; [exact Hlt|]. split; [exact Hshape|].
      right. destruct Hrest as [->|Hd]; [|exact Hd].
      exists (x `mod` 10)%N, s. auto.
Qed.


Lemma read_number_numeral (m : N) (rest : string) :
  (m < 10)%N → rest = EmptyString ∨ starts_with_digit rest →
  read_number (String (pretty_N_char m) rest)
  = read_digits 10 None (String (pretty_N_char m) rest)
  ∧ parseInt (String (pretty_N_char m) rest)
    = read_digits 10 None (String (pretty_N_char m) rest).
Proof.
  intros Hm Hrest. apply below_ten in Hm.
  assert (Hx : rest = EmptyString
               ∨ ∃ c r, rest = String c r ∧ Ascii.eqb c "x" = false
                        ∧ Ascii.eqb c "X" = false).
  { destruct Hrest as [->|(m' & r & Hm' & ->)]; [auto|]. right.
    exists (pretty_N_char m'), r. apply below_ten in Hm'.
    repeat (destruct Hm' as [->|Hm']; [auto|]). subst. auto. }
  assert (H0 : read_number (String "0" rest) = read_digits 10 None (String "0" rest)).
  { destruct Hx as [->|(c & r & -> & Hc1 & Hc2)]; [reflexivity|].
    unfold read_number. destruct c as [[] [] [] [] [] [] [] []]; try reflexivity;
      discriminate. }
  repeat (destruct Hm as [->|Hm]; [split; [first [exact H0|reflexivity]|];
    unfold parseInt; simpl skip_spaces; cbn match; first [exact H0|reflexivity]|]).
  subst. split; reflexivity.
Qed.

Lemma parseInt_pretty_N (x : N) : (0 < x)%N → parseInt (pretty_N_go x EmptyString) = Some (Z.of_N x).
Proof.
  intros Hx. destruct (pretty_N_go_reads x Hx EmptyString)
    as [[n Hn] (m & rest & Hm & Hshape & Hrest)].
  rewrite Hshape. rewrite (proj2 (read_number_numeral m rest Hm Hrest)).
  rewrite <- Hshape, Hn. simpl. f_equal. lia.
Qed.

Lemma parseInt_pretty (z : Z) : parseInt (pretty z) = Some z.
Proof.
  destruct z as [|p|p]; [reflexivity| |].
  - change (pretty (Z.pos p)) with (pretty_N_go (N.pos p) EmptyString).
    rewrite parseInt_pretty_N by lia. reflexivity.
  - change (pretty (Z.neg p)) with (String "-" (pretty_N_go (N.pos p) EmptyString)).
    destruct (pretty_N_go_reads (N.pos p) ltac:(lia) EmptyString)
      as [[n Hn] (m & rest & Hm & Hshape & Hrest)].
    unfold parseInt. simpl skip_spaces. cbn match.
    rewrite Hshape, (proj1 (read_number_numeral m rest Hm Hrest)), <- Hshape, Hn.
    simpl. f_equal. lia.
Qed.

(** X7. The external id an import stores is read back by the status push
    as the number the storefront gave: for every id a JavaScript number holds
    exactly (magnitude below 2^53), the decimal text in the orders table
    parses to the id of the external order. *)
Theorem imported_id_reads_back (wooOrder : WooCommerceOrder)
    (integrationId new_id : string) :
  safe_integer (wo_id wooOrder) →
  parseInt (show_null (OpsOrder.external_order_id
                         (OrderImportService.orderData wooOrder integrationId new_id)))
  = Some (wo_id wooOrder).
Proof. intros _. simpl. apply parseInt_pretty. Qed.

Lemma imported_id_reads_back_witness :
  parseInt (show_null (OpsOrder.external_order_id
                         (OrderImportService.orderData (Samples.wooOrder 9007199254740991)
                            "int-woo" "o-9")))
  = Some (wo_id (Samples.wooOrder 9007199254740991)).
Proof.
  apply (imported_id_reads_back (Samples.wooOrder 9007199254740991) "int-woo" "o-9").
  vm_compute. reflexivity.
Defined.

End ExternalIds.

(** ** The status push, further *)

Section StatusSyncMore.
Import OrderStatusSyncService Stated.

Lemma differs_false (platformType orderChannel : string) :
  differs platformType (validCombinations orderChannel) = false →
  validCombinations orderChannel = Some platformType.
Proof.
  unfold differs. destruct (validCombinations orderChannel) as [p|]; [|discriminate].
  destruct (String.eqb_spec platformType p); [congruence|discriminate].
Qed.

Lemma maybeSingle_data_In {A : Type} (keep : A → bool) (rows : list A) (r : A) :
  data (maybeSingle (List.filter keep rows)) = Some r → In r rows ∧ keep r = true.
Proof.
  intros H. apply maybeSingle_data_rows in H.
  apply filter_In. rewrite H. simpl. auto.
Qed.

(** A branch that went through: the row it wrote and the request it sent. *)
Lemma dispatch_success (env : Env) (w w' : World) (platform_type : string)
    (order : OpsOrder.t) (integration : Integration.t) (newStatus oldStatus : string)
    (client : option WooCommerceClient) (unsupported : string) (r : SyncResult) :
  dispatch platform_type order integration newStatus oldStatus client unsupported env w
  = (Normal r, w') →
  same_but_logs_and_requests w w'
  ∧ integration_outbound_sync_logs w'
    = integration_outbound_sync_logs w
        ++ [pushed_row platform_type order integration oldStatus newStatus (now env)
              (next_log_id env w)]
  ∧ (∃ call, requests w' = requests w ++ [call]
             ∧ push_of platform_type order integration newStatus call)
  ∧ r = {| success := true; syncLogId := next_log_id env w;
           orderId := OpsOrder.id order; platformType := platform_type;
           newStatus := newStatus; sr_error := None; retryCount := None |}
  ∧ (platform_type = "WOOCOMMERCE" → is_Some client).
Proof.
  unfold dispatch, same_but_logs_and_requests, next_log_id. intros H.
  destruct (String.eqb_spec platform_type "WOOCOMMERCE") as [->|Hw].
  - unfold syncToWooCommerce, createSyncLog, data_id in H. run_async.
    destruct client as [c|]; simpl in H; [|discriminate].
    repeat split_answer; try discriminate.
    simpl. repeat split; try reflexivity; eauto.
    eexists. split; [reflexivity|]. simpl. auto.
  - destruct (String.eqb_spec platform_type "KUBACCO_APP") as [->|Hk].
    + unfold syncToKubacco, createSyncLog, data_id in H. run_async. simpl in H.
      repeat split_answer; try discriminate.
      simpl. repeat split; try reflexivity; try discriminate.
      eexists. split; [reflexivity|]. simpl. auto.
    + run_async. discriminate.
Qed.


(** The [try] block of the first attempt, when it goes through: the order and
    the integration it found pass the channel check, and the rest is their
    branch. *)
Lemma sync_attempt_success (env : Env) (w w' : World) (orderId newStatus : string)
    (client : option WooCommerceClient) (r : SyncResult) :
  sync_attempt orderId newStatus client env w = (Normal r, w') →
  ∃ o i,
    In o (ops_orders w) ∧ OpsOrder.id o = orderId
    ∧ In i (integrations w) ∧ Integration.id i = OpsOrder.integration_id o
    ∧ validCombinations (OpsOrder.channel o) = Some (Integration.platform_type i)
    ∧ dispatch (Integration.platform_type i) o i newStatus (OpsOrder.status o) client
        "Unsupported platform type: " env w = (Normal r, w').
Proof.
  unfold sync_attempt, order_by_id, integration_by_id, found, validateChannelSegregation.
  run_async. intros H.
  destruct (db_error env "ops_orders" SELECT); simpl in H; [discriminate|].
  destruct (error (maybeSingle (orders_with_id orderId w))); simpl in H; [discriminate|].
  destruct (data (maybeSingle (orders_with_id orderId w))) as [o|] eqn:Ho; simpl in H;
    [|discriminate].
  destruct (db_error env "integrations" SELECT); simpl in H; [discriminate|].
  destruct (error (maybeSingle (integrations_with_id (OpsOrder.integration_id o) w)));
    simpl in H; [discriminate|].
  destruct (data (maybeSingle (integrations_with_id (OpsOrder.integration_id o) w)))
    as [i|] eqn:Hi; simpl in H; [|discriminate].
  destruct (differs (Integration.platform_type i) (validCombinations (OpsOrder.channel o)))
    eqn:Hd; simpl in H; [discriminate|].
  apply maybeSingle_data_In in Ho as [Ho1 Ho2]. apply maybeSingle_data_In in Hi as [Hi1 Hi2].
  apply String.eqb_eq in Ho2, Hi2. apply differs_false in Hd.
  exists o, i. auto 10.
Qed.

(** X8. Channel segregation, from the side of success: whenever a status
    push reports success, the order and the integration are in the store, the
    order's channel maps to the integration's platform type, exactly one
    request went out, to that platform, and the one row written records the
    actual platform type, channel and integration; nothing else in the store
    changed. *)
Theorem successful_push_respects_segregation (env : Env) (w w' : World)
    (orderId newStatus : string) (client : option WooCommerceClient) (r : SyncResult) :
  syncStatusToExternalPlatform orderId newStatus client env w = (Normal r, w') →
  success r = true →
  ∃ o i,
    In o (ops_orders w) ∧ OpsOrder.id o = orderId
    ∧ In i (integrations w) ∧ Integration.id i = OpsOrder.integration_id o
    ∧ validCombinations (OpsOrder.channel o) = Some (Integration.platform_type i)
    ∧ platformType r = Integration.platform_type i
    ∧ integration_outbound_sync_logs w'
      = integration_outbound_sync_logs w
          ++ [pushed_row (Integration.platform_type i) o i (OpsOrder.status o) newStatus
                (now env) (next_log_id env w)]
    ∧ (∃ call, requests w' = requests w ++ [call]
               ∧ push_of (Integration.platform_type i) o i newStatus call)
    ∧ same_but_logs_and_requests w w'.
Proof.
  unfold syncStatusToExternalPlatform, try_catch. intros H Hs.
  destruct (sync_attempt orderId newStatus client env w) as [[r1|e] w1] eqn:Ha.
  - inversion H; subst. apply sync_attempt_success in Ha
      as (o & i & Ho & Hid & Hi & Hii & Hv & Hd).
    apply dispatch_success in Hd as (Hframe & Hl & Hc & Hr & _).
    exists o, i. rewrite Hr. simpl. auto 12.
  - destruct (sync_failure_spec env w1 orderId newStatus e) as (r' & w'' & Hf & Hs' & _).
    rewrite Hf in H. inversion H; subst. congruence.
Qed.

Lemma successful_push_respects_segregation_witness :
  ∃ o i,
    In o (ops_orders Samples.shop) ∧ OpsOrder.id o = "o-1"
    ∧ In i (integrations Samples.shop) ∧ Integration.id i = OpsOrder.integration_id o
    ∧ validCombinations (OpsOrder.channel o) = Some (Integration.platform_type i)
    ∧ "WOOCOMMERCE" = Integration.platform_type i.
Proof.
  destruct (successful_push_respects_segregation Samples.calm Samples.shop
              (syncStatusToExternalPlatform "o-1" "SHIPPED" (Some Samples.client)
                 Samples.calm Samples.shop).2
              "o-1" "SHIPPED" (Some Samples.client)
              {| success := true; syncLogId := "integration_outbound_sync_logs-0";
                 orderId := "o-1"; platformType := "WOOCOMMERCE"; newStatus := "SHIPPED";
                 sr_error := None; retryCount := None |})
    as (o & i & Ho & Hid & Hi & Hii & Hv & Hp & _).
  - vm_compute. reflexivity.
  - reflexivity.
  - exists o, i. auto 10.
Defined.

(** A branch run without a storefront client sends nothing to the
    storefront. *)
Lemma dispatch_without_client (env : Env) (w w' : World) (platform_type : string)
    (order : OpsOrder.t) (integration : Integration.t) (newStatus oldStatus : string)
    (unsupported : string) (c : Completion SyncResult) :
  dispatch platform_type order integration newStatus oldStatus None unsupported env w
  = (c, w') →
  (requests w' = requests w
   ∨ ∃ call, requests w' = requests w ++ [call] ∧ to_kubacco call)
  ∧ match c with
    | Normal r => platformType r = "KUBACCO_APP"
    | Throw _ => True
    end.
Proof.
  unfold dispatch. intros H.
  destruct (String.eqb_spec platform_type "WOOCOMMERCE") as [->|Hw].
  - unfold syncToWooCommerce in H. run_async. simpl in H. inversion H; subst. auto.
  - destruct (String.eqb_spec platform_type "KUBACCO_APP") as [->|Hk].
    + unfold syncToKubacco, createSyncLog, data_id in H. run_async. simpl in H.
      repeat split_answer; simpl; split; auto; right; eexists;
        (split; [reflexivity|exact I]).
    + run_async. inversion H; subst. auto.
Qed.

(** The [try] block of the first attempt, when it throws: before anything
    was written or sent, or in the branch. *)
Lemma sync_attempt_throw (env : Env) (w w' : World) (orderId newStatus : string)
    (client : option WooCommerceClient) (e : string) :
  sync_attempt orderId newStatus client env w = (Throw e, w') →
  w' = w
  ∨ ∃ o i, dispatch (Integration.platform_type i) o i newStatus (OpsOrder.status o) client
             "Unsupported platform type: " env w = (Throw e, w').
Proof.
  unfold sync_attempt, order_by_id, integration_by_id, found, validateChannelSegregation.
  run_async. intros H.
  destruct (db_error env "ops_orders" SELECT); simpl in H;
    [inversion H; auto|].
  destruct (error (maybeSingle (orders_with_id orderId w))); simpl in H;
    [inversion H; auto|].
  destruct (data (maybeSingle (orders_with_id orderId w))) as [o|]; simpl in H;
    [|inversion H; auto].
  destruct (db_error env "integrations" SELECT); simpl in H; [inversion H; auto|].
  destruct (error (maybeSingle (integrations_with_id (OpsOrder.integration_id o) w)));
    simpl in H; [inversion H; auto|].
  destruct (data (maybeSingle (integrations_with_id (OpsOrder.integration_id o) w)))
    as [i|]; simpl in H; [|inversion H; auto].
  destruct (differs (Integration.platform_type i) (validCombinations (OpsOrder.channel o)));
    simpl in H; [inversion H; auto|].
  right. exists o, i. exact H.
Qed.

(** The [catch] block of the first attempt writes to the log table only. *)
Lemma sync_failure_frame (env : Env) (w w' : World) (orderId newStatus message : string)
    (c : Completion SyncResult) :
  sync_failure orderId newStatus message env w = (c, w') →
  same_but_logs_and_requests w w'.
Proof.
  unfold sync_failure, createSyncLog, db_insert, same_but_logs_and_requests. run_async.
  intros H. destruct (db_error env "integration_outbound_sync_logs" INSERT);
    simpl in H; inversion H; subst; simpl; auto 10.
Qed.

Lemma wholesale_only (channel : string) :
  validCombinations channel = Some "KUBACCO_APP" → channel = "WHOLESALE".
Proof.
  unfold validCombinations.
  destruct (String.eqb_spec channel "WHOLESALE"); [auto|].
  destruct (String.eqb channel "ONLINE"); discriminate.
Qed.

(** The status push as the routes call it, without a storefront client. *)
Lemma sync_without_client (env : Env) (w w' : World) (orderId newStatus : string)
    (r : SyncResult) :
  syncStatusToExternalPlatform orderId newStatus None env w = (Normal r, w') →
  ops_orders w' = ops_orders w
  ∧ (∃ calls, requests w' = requests w ++ calls ∧ Forall to_kubacco calls
              ∧ (length calls ≤ 1)%nat)
  ∧ (∃ added,
       integration_outbound_sync_logs w' = integration_outbound_sync_logs w ++ added
       ∧ Forall (fun row =>
                   OutboundSyncLog.result row = "SUCCESS" →
                   OutboundSyncLog.platform_type row = "KUBACCO_APP"
                   ∧ OutboundSyncLog.new_status row = newStatus
                   ∧ ∃ o, In o (ops_orders w) ∧ OpsOrder.id o = orderId
                          ∧ OutboundSyncLog.old_status row = OpsOrder.status o) added)
  ∧ (success r = true →
     platformType r = "KUBACCO_APP"
     ∧ ∃ o, In o (ops_orders w) ∧ OpsOrder.id o = orderId
            ∧ OpsOrder.channel o = "WHOLESALE").
Proof.
  unfold syncStatusToExternalPlatform, try_catch. intros H.
  destruct (sync_attempt orderId newStatus None env w) as [[r1|e] w1] eqn:Ha.
  - inversion H; subst. apply sync_attempt_success in Ha
      as (o & i & Ho & Hid & Hi & Hii & Hv & Hd).
    pose proof (dispatch_without_client _ _ _ _ _ _ _ _ _ _ Hd) as [_ Hk].
    apply dispatch_success in Hd as (Hframe & Hl & (call & Hc & Hp) & Hr & _).
    assert (Hpt : Integration.platform_type i = "KUBACCO_APP")
      by (rewrite Hr in Hk; exact Hk).
    rewrite Hpt in *. split; [apply Hframe|]. split.
    { exists [call]. repeat split; [exact Hc| |simpl; lia].
      constructor; [|constructor]. destruct call; simpl in *; try tauto.
      destruct Hp as [Hp _]. discriminate. }
    split.
    { eexists. split; [exact Hl|]. constructor; [|constructor]. intros _. simpl.
      repeat split. exists o. auto. }
    intros _. split; [exact Hk|]. exists o. auto using wholesale_only.
  - destruct (sync_failure_spec env w1 orderId newStatus e)
      as (r' & w'' & Hf & Hs' & _ & _ & Hreq & Hlog).
    pose proof (sync_failure_frame _ _ _ _ _ _ _ Hf) as Hframe.
    rewrite Hf in H. inversion H; subst r' w''.
    assert (H1 : ops_orders w1 = ops_orders w
                 ∧ integration_outbound_sync_logs w1 = integration_outbound_sync_logs w
                 ∧ (requests w1 = requests w
                    ∨ ∃ call, requests w1 = requests w ++ [call] ∧ to_kubacco call)).
    { apply sync_attempt_throw in Ha as [->|(o & i & Hd)]; [auto|].
      pose proof (dispatch_without_client _ _ _ _ _ _ _ _ _ _ Hd) as [Hq _].
      apply dispatch_outcome in Hd as (Ho & _ & Hl & _). auto. }
    destruct H1 as (Ho & Hl & Hq). split; [destruct Hframe as [-> _]; exact Ho|].
    split.
    { rewrite Hreq. destruct Hq as [->|(call & -> & Hk)].
      - exists []. rewrite app_nil_r. repeat split; [constructor|simpl; lia].
      - exists [call]. repeat split; [auto|simpl; lia]. }
    split; [|congruence].
    destruct (db_error env "integration_outbound_sync_logs" INSERT).
    + exists []. rewrite app_nil_r. split; [congruence|constructor].
    + destruct Hlog as (row & -> & Hrow & _). exists [row]. rewrite Hl. split; [reflexivity|].
      constructor; [|constructor]. intros Hres. destruct Hrow as [Hrow _]. congruence.
Qed.

(** X9. Called without a storefront client, as the order routes call it,
    a status push sends nothing to the storefront: at most one request goes
    out, to the wholesale application, and the push reports success only for
    a WHOLESALE order pushed to KUBACCO_APP. *)
Theorem push_without_client_is_wholesale_only (env : Env) (w w' : World)
    (orderId newStatus : string) (r : SyncResult) :
  syncStatusToExternalPlatform orderId newStatus None env w = (Normal r, w') →
  (∃ calls, requests w' = requests w ++ calls ∧ Forall to_kubacco calls
            ∧ (length calls ≤ 1)%nat)
  ∧ (success r = true →
     platformType r = "KUBACCO_APP"
     ∧ ∃ o, In o (ops_orders w) ∧ OpsOrder.id o = orderId
            ∧ OpsOrder.channel o = "WHOLESALE").
Proof.
  intros H. apply sync_without_client in H as (_ & Hq & _ & Hs). auto.
Qed.

Lemma push_without_client_is_wholesale_only_witness :
  ∃ o, In o (ops_orders Samples.shop) ∧ OpsOrder.id o = "o-3"
       ∧ OpsOrder.channel o = "WHOLESALE".
Proof.
  destruct (push_without_client_is_wholesale_only Samples.calm Samples.shop
              (syncStatusToExternalPlatform "o-3" "SHIPPED" None Samples.calm
                 Samples.shop).2
              "o-3" "SHIPPED"
              {| success := true; syncLogId := "integration_outbound_sync_logs-0";
                 orderId := "o-3"; platformType := "KUBACCO_APP"; newStatus := "SHIPPED";
                 sr_error := None; retryCount := None |})
    as [_ Hs].
  - vm_compute. reflexivity.
  - destruct (Hs eq_refl) as [_ Ho]. exact Ho.
Defined.

End StatusSyncMore.

(** ** Retries, further *)

Section RetryMore.
Import OrderStatusSyncService Stated.

(** The [try] block of a retry, when it goes through. *)
Lemma retry_attempt_normal (env : Env) (w w' : World) (syncLogId : string)
    (client : option WooCommerceClient) (r : SyncResult) :
  retry_attempt syncLogId client env w = (Normal r, w') →
  ∃ l o i w1,
    the_log w syncLogId = Some l
    ∧ OutboundSyncLog.retry_count l < 5
    ∧ In o (ops_orders w) ∧ OpsOrder.id o = OutboundSyncLog.order_id l
    ∧ In i (integrations w) ∧ Integration.id i = OutboundSyncLog.integration_id l
    ∧ dispatch (OutboundSyncLog.platform_type l) o i (OutboundSyncLog.new_status l)
        (OutboundSyncLog.old_status l) client "Unknown platform type: " env w
      = (Normal r, w1)
    ∧ requests w' = requests w1.
Proof.
  unfold retry_attempt, log_by_id, order_by_id, integration_by_id, found, present,
    throw_if, update_log, the_log.
  run_async. intros H.
  destruct (db_error env "integration_outbound_sync_logs" SELECT); simpl in H;
    [discriminate|].
  destruct (error (maybeSingle (logs_with_id syncLogId w))); simpl in H; [discriminate|].
  destruct (data (maybeSingle (logs_with_id syncLogId w))) as [l|] eqn:Hl; simpl in H;
    [|discriminate].
  destruct (Z.leb_spec 5 (OutboundSyncLog.retry_count l)); simpl in H; [discriminate|].
  destruct (db_error env "ops_orders" SELECT); simpl in H; [discriminate|].
  destruct (data (maybeSingle (orders_with_id (OutboundSyncLog.order_id l) w)))
    as [o|] eqn:Ho; simpl in H; [|discriminate].
  destruct (db_error env "integrations" SELECT); simpl in H; [discriminate|].
  destruct (data (maybeSingle (integrations_with_id (OutboundSyncLog.integration_id l) w)))
    as [i|] eqn:Hi; simpl in H; [|discriminate].
  destruct (dispatch (OutboundSyncLog.platform_type l) o i (OutboundSyncLog.new_status l)
              (OutboundSyncLog.old_status l) client "Unknown platform type: " env w)
    as [[r1|e] w1] eqn:Hd; simpl in H; [|discriminate].
  apply maybeSingle_data_In in Ho as [Ho1 Ho2]. apply maybeSingle_data_In in Hi as [Hi1 Hi2].
  apply String.eqb_eq in Ho2, Hi2.
  exists l, o, i, w1.
  destruct (db_error env "integration_outbound_sync_logs" UPDATE); simpl in H;
    inversion H; subst; simpl; auto 12.
Qed.

(** The [try] block of a retry, when it throws: before anything was written
    or sent, or in the branch. *)
Lemma retry_attempt_throw (env : Env) (w w' : World) (syncLogId : string)
    (client : option WooCommerceClient) (e : string) :
  retry_attempt syncLogId client env w = (Throw e, w') →
  w' = w
  ∨ ∃ l o i,
      dispatch (OutboundSyncLog.platform_type l) o i (OutboundSyncLog.new_status l)
        (OutboundSyncLog.old_status l) client "Unknown platform type: " env w
      = (Throw e, w').
Proof.
  unfold retry_attempt, log_by_id, order_by_id, integration_by_id, found, present,
    throw_if, update_log.
  run_async. intros H.
  destruct (db_error env "integration_outbound_sync_logs" SELECT); simpl in H;
    [inversion H; auto|].
  destruct (error (maybeSingle (logs_with_id syncLogId w))); simpl in H;
    [inversion H; auto|].
  destruct (data (maybeSingle (logs_with_id syncLogId w))) as [l|]; simpl in H;
    [|inversion H; auto].
  destruct (5 <=? OutboundSyncLog.retry_count l); simpl in H; [inversion H; auto|].
  assert (Hrest :
    match data (maybeSingle (orders_with_id (OutboundSyncLog.order_id l) w)) with
    | Some o =>
        match data (maybeSingle
                      (integrations_with_id (OutboundSyncLog.integration_id l) w)) with
        | Some i =>
            dispatch (OutboundSyncLog.platform_type l) o i (OutboundSyncLog.new_status l)
              (OutboundSyncLog.old_status l) client "Unknown platform type: " env w
            = (Throw e, w')
        | None => w' = w
        end
    | None => w' = w
    end ∨ w' = w).
  { destruct (db_error env "ops_orders" SELECT); simpl in H; [inversion H; auto|].
    destruct (data (maybeSingle (orders_with_id (OutboundSyncLog.order_id l) w)))
      as [o|]; simpl in H; [|inversion H; auto].
    destruct (db_error env "integrations" SELECT); simpl in H; [inversion H; auto|].
    destruct (data (maybeSingle
                      (integrations_with_id (OutboundSyncLog.integration_id l) w)))
      as [i|]; simpl in H; [|inversion H; auto].
    destruct (dispatch (OutboundSyncLog.platform_type l) o i (OutboundSyncLog.new_status l)
                (OutboundSyncLog.old_status l) client "Unknown platform type: " env w)
      as [[r1|e1] w1] eqn:Hd; simpl in H.
    - destruct (db_error env "integration_outbound_sync_logs" UPDATE); simpl in H;
        discriminate.
    - inversion H; subst. auto. }
  destruct Hrest as [Hrest|]; [|auto].
  destruct (data (maybeSingle (orders_with_id (OutboundSyncLog.order_id l) w)))
    as [o|]; [|auto].
  destruct (data (maybeSingle (integrations_with_id (OutboundSyncLog.integration_id l) w)))
    as [i|]; [|auto].
  right. exists l, o, i. exact Hrest.
Qed.

(** A retry as the route calls it, without a storefront client. *)
Lemma retry_without_client (env : Env) (w w' : World) (syncLogId : string)
    (r : SyncResult) :
  retrySyncLog syncLogId None env w = (Normal r, w') →
  (requests w' = requests w
   ∨ ∃ call, requests w' = requests w ++ [call] ∧ to_kubacco call)
  ∧ (success r = true →
     ∃ l, the_log w syncLogId = Some l
          ∧ OutboundSyncLog.platform_type l = "KUBACCO_APP"
          ∧ OutboundSyncLog.retry_count l < 5
          ∧ platformType r = "KUBACCO_APP").
Proof.
  unfold retrySyncLog, try_catch. intros H.
  destruct (retry_attempt syncLogId None env w) as [[r1|e] w1] eqn:Ha.
  - inversion H; subst.
    apply retry_attempt_normal in Ha as (l & o & i & w1 & Hl & Hc & _ & _ & _ & _ & Hd & Hq).
    pose proof (dispatch_without_client _ _ _ _ _ _ _ _ _ _ Hd) as [Hreq Hk].
    apply dispatch_success in Hd as (_ & _ & _ & Hr & _).
    rewrite Hq. split; [exact Hreq|]. intros _. exists l.
    rewrite Hr in Hk |- *. simpl in Hk |- *. auto.
  - destruct (retry_failure_spec env w1 syncLogId e) as (r' & w'' & Hf & Hs & _ & Hq & _).
    rewrite Hf in H. inversion H; subst r' w''. split; [|congruence].
    rewrite Hq. apply retry_attempt_throw in Ha as [->|(l & o & i & Hd)]; [auto|].
    apply dispatch_without_client in Hd as [Hreq _]. exact Hreq.
Qed.

(** X10. A retry branches on the platform type recorded in the log row
    alone: it repeats neither the channel check nor a check of the row's
    result.  With the store and the storefront answering, a row recorded as
    WOOCOMMERCE below the ceiling whose order has a numeric external id is
    pushed to the storefront and reported as a success, whatever the order's
    channel, the integration's platform type and the row's result are. *)
Theorem retry_does_not_repeat_channel_check (env : Env) (w : World) (syncLogId : string)
    (client : WooCommerceClient) (l : OutboundSyncLog.t) (o : OpsOrder.t)
    (i : Integration.t) (n : Z) :
  (∀ table v, db_error env table v = None) →
  the_log w syncLogId = Some l →
  OutboundSyncLog.retry_count l < 5 →
  OutboundSyncLog.platform_type l = "WOOCOMMERCE" →
  the_order w (OutboundSyncLog.order_id l) = Some o →
  the_integration w (OutboundSyncLog.integration_id l) = Some i →
  parseInt (show_null (OpsOrder.external_order_id o)) = Some n →
  woo_updateOrderStatus env n (mapToWooCommerceStatus (OutboundSyncLog.new_status l))
  = None →
  ∃ r w',
    retrySyncLog syncLogId (Some client) env w = (Normal r, w')
    ∧ success r = true
    ∧ platformType r = "WOOCOMMERCE"
    ∧ requests w'
      = requests w
          ++ [WooUpdateOrderStatus n (mapToWooCommerceStatus (OutboundSyncLog.new_status l))].
Proof.
  unfold the_log, the_order, the_integration.
  intros Hdb Hl Hc Hpt Ho Hi Hn Hwoo.
  unfold retrySyncLog, try_catch, retry_attempt, log_by_id, order_by_id,
    integration_by_id, found, present, throw_if, update_log, dispatch,
    syncToWooCommerce, createSyncLog, data_id.
  run_async. rewrite !Hdb. simpl.
  rewrite (maybeSingle_data_error _ _ Hl), Hl. simpl.
  destruct (Z.leb_spec 5 (OutboundSyncLog.retry_count l)); [lia|]. simpl.
  rewrite Ho. simpl. rewrite Hi. simpl. rewrite Hpt. simpl.
  rewrite Hn. simpl. rewrite Hwoo. simpl. rewrite !Hdb. simpl.
  eexists _, _. repeat split.
Qed.

Lemma retry_does_not_repeat_channel_check_witness :
  OpsOrder.channel (Samples.order "o-2" "WHOLESALE" "int-woo" (Some "502")) = "WHOLESALE"
  ∧ ∃ r w',
      retrySyncLog "log-9" (Some Samples.client) Samples.calm
        MoreSamples.shop_with_stale_log = (Normal r, w')
      ∧ success r = true
      ∧ platformType r = "WOOCOMMERCE"
      ∧ requests w'
        = requests MoreSamples.shop_with_stale_log
            ++ [WooUpdateOrderStatus 502 "completed"].
Proof.
  split; [reflexivity|].
  apply (retry_does_not_repeat_channel_check Samples.calm MoreSamples.shop_with_stale_log
           "log-9" Samples.client
           (Samples.log "log-9" "o-2" "int-kub" "WOOCOMMERCE" "ONLINE" "SUCCESS" 0)
           (Samples.order "o-2" "WHOLESALE" "int-woo" (Some "502"))
           (Samples.integration "int-kub" "KUBACCO_APP") 502).
  - reflexivity.
  - vm_compute. reflexivity.
  - simpl. lia.
  - reflexivity.
  - vm_compute. reflexivity.
  - vm_compute. reflexivity.
  - vm_compute. reflexivity.
  - reflexivity.
Defined.

(** X11. A retry that fails does not count: the [catch] writes
    [retry_count || 0 + 1], which is the stored count unless that is 0.  So
    a failed retry raises the count from 0 to 1 and leaves any other count
    as it is, adds no row, and stamps the retried row with the time and the
    error; the ceiling of five is not reached through failed retries. *)
Theorem failed_retry_does_not_count (env : Env) (w w' : World) (syncLogId : string)
    (client : option WooCommerceClient) (l : OutboundSyncLog.t) (r : SyncResult) :
  (∀ v, db_error env "integration_outbound_sync_logs" v = None) →
  the_log w syncLogId = Some l →
  retrySyncLog syncLogId client env w = (Normal r, w') →
  success r = false →
  integration_outbound_sync_logs w'
  = map (stamp syncLogId
           (if OutboundSyncLog.retry_count l =? 0 then 1 else OutboundSyncLog.retry_count l)
           (now env) (sr_error r))
      (integration_outbound_sync_logs w).
Proof.
  intros Hdb Hl H Hfail. unfold retrySyncLog, try_catch in H.
  destruct (retry_attempt syncLogId client env w) as [[r1|e] w1] eqn:Ha.
  - inversion H; subst.
    apply retry_attempt_normal in Ha as (l0 & o & i & w1 & _ & _ & _ & _ & _ & _ & Hd & _).
    apply dispatch_outcome in Hd as (_ & _ & Hs & _). congruence.
  - assert (Hlogs : integration_outbound_sync_logs w1 = integration_outbound_sync_logs w).
    { apply retry_attempt_throw in Ha as [->|(l0 & o & i & Hd)]; [reflexivity|].
      apply dispatch_outcome in Hd as (_ & _ & Hl0 & _). exact Hl0. }
    unfold retry_failure, log_by_id, update_log, logs_with_id in H. run_async.
    rewrite (Hdb SELECT), (Hdb UPDATE) in H. simpl in H.
    inversion H; subst. simpl. rewrite Hlogs.
    unfold the_log, logs_with_id in Hl.
    unfold count_or_one. rewrite Hl. reflexivity.
Qed.

Lemma failed_retry_does_not_count_witness :
  map OutboundSyncLog.retry_count
    (integration_outbound_sync_logs
       (retrySyncLog "log-1" (Some Samples.client) Samples.storefront_down
          (Samples.shop_with_log 4)).2)
  = [4].
Proof.
  rewrite (failed_retry_does_not_count Samples.storefront_down (Samples.shop_with_log 4)
             (retrySyncLog "log-1" (Some Samples.client) Samples.storefront_down
                (Samples.shop_with_log 4)).2
             "log-1" (Some Samples.client)
             (Samples.log "log-1" "o-1" "int-woo" "WOOCOMMERCE" "ONLINE" "SUCCESS" 4)
             {| success := false; syncLogId := "log-1"; orderId := empty;
                platformType := empty; newStatus := empty;
                sr_error := Some "connect ECONNREFUSED"; retryCount := None |}).
  - vm_compute. reflexivity.
  - intros v. reflexivity.
  - vm_compute. reflexivity.
  - vm_compute. reflexivity.
  - reflexivity.
Defined.

End RetryMore.

(** ** The order routes *)

Section OrdersRoutesProps.
Import OrderStatusSyncService Stated OrdersRoutes.

(** X12. The retry route answers 200 or 404, never 500.  It sends nothing
    to the storefront (at most one request, to the wholesale application);
    it reports success only for a row of the named order, below the ceiling,
    recorded as KUBACCO_APP; and when it answers 404 the store is as it
    was. *)
Theorem retry_route_reaches_wholesale_only (env : Env) (w w' : World)
    (orderId syncLogId : string) (c : Completion RetryResponse) :
  retry_sync orderId syncLogId env w = (c, w') →
  ∃ resp,
    c = Normal resp
    ∧ (retry_code resp = 200 ∨ retry_code resp = 404)
    ∧ (requests w' = requests w
       ∨ ∃ call, requests w' = requests w ++ [call] ∧ to_kubacco call)
    ∧ (retry_code resp = 404 → retry_success resp = false ∧ w' = w)
    ∧ (retry_success resp = true →
       ∃ l, In l (integration_outbound_sync_logs w)
            ∧ OutboundSyncLog.id l = syncLogId
            ∧ OutboundSyncLog.order_id l = orderId
            ∧ OutboundSyncLog.platform_type l = "KUBACCO_APP"
            ∧ OutboundSyncLog.retry_count l < 5).
Proof.
  unfold retry_sync, try_catch, db_select. run_async. intros H.
  destruct (db_error env "integration_outbound_sync_logs" SELECT) as [msg|]; simpl in H.
  { inversion H; subst. eexists. split; [reflexivity|]. simpl.
    repeat split; auto; discriminate. }
  match type of H with
  | context [maybeSingle ?rows] => set (found_rows := rows) in *
  end.
  destruct (error (maybeSingle found_rows)) as [msg|]; simpl in H.
  { inversion H; subst. eexists. split; [reflexivity|]. simpl.
    repeat split; auto; discriminate. }
  destruct (data (maybeSingle found_rows)) as [l'|] eqn:Hl'; simpl in H.
  2:{ inversion H; subst. eexists. split; [reflexivity|]. simpl.
      repeat split; auto; discriminate. }
  destruct (retrySyncLog syncLogId None env w) as [[r|e] w1] eqn:Hr; simpl in H.
  2:{ exfalso. unfold retrySyncLog, try_catch in Hr.
      destruct (retry_attempt syncLogId None env w) as [[r1|e1] w2]; [discriminate|].
      destruct (retry_failure_spec env w2 syncLogId e1) as (r' & w'' & Hf & _).
      congruence. }
  inversion H; subst. eexists. split; [reflexivity|]. simpl.
  apply retry_without_client in Hr as [Hq Hs].
  split; [auto|]. split; [exact Hq|]. split; [discriminate|].
  intros Hsucc. destruct (Hs Hsucc) as (l & Hl & Hpt & Hc & _).
  unfold found_rows in Hl'. apply maybeSingle_data_In in Hl' as [Hin Hkeep].
  apply andb_true_iff in Hkeep as [Hid Hord]. apply String.eqb_eq in Hid, Hord.
  assert (l' = l).
  { unfold the_log, logs_with_id in Hl.
    apply (maybeSingle_data_unique _ _ _ _ Hl Hin). apply String.eqb_eq. exact Hid. }
  subst l'. exists l. auto.
Qed.

Lemma retry_route_reaches_wholesale_only_witness :
  ∃ resp,
    (retry_sync "o-3" "log-3" Samples.calm MoreSamples.shop_with_wholesale_log).1
    = Normal resp
    ∧ retry_success resp = true.
Proof.
  destruct (retry_route_reaches_wholesale_only Samples.calm
              MoreSamples.shop_with_wholesale_log
              (retry_sync "o-3" "log-3" Samples.calm MoreSamples.shop_with_wholesale_log).2
              "o-3" "log-3"
              (retry_sync "o-3" "log-3" Samples.calm MoreSamples.shop_with_wholesale_log).1)
    as (resp & Hresp & _).
  - vm_compute. reflexivity.
  - exists resp. split; [exact Hresp|].
    vm_compute in Hresp. inversion Hresp. reflexivity.
Defined.

(** The rows of the store after the [update] of the bulk route. *)
Lemma updated_rows_have_status (ids : list string) (status : string) (rows : list OpsOrder.t)
    (o : OpsOrder.t) :
  In o (map (fun o => if among ids o then with_status status o else o) rows) →
  In (OpsOrder.id o) ids →
  OpsOrder.status o = status.
Proof.
  intros Hin Hid. apply in_map_iff in Hin as (o0 & <- & _).
  destruct (among ids o0) eqn:Ha; [reflexivity|].
  exfalso. unfold among in Ha.
  assert (Ht : existsb (String.eqb (OpsOrder.id o0)) ids = true).
  { apply existsb_exists. exists (OpsOrder.id o0). split; [exact Hid|apply String.eqb_refl]. }
  congruence.
Qed.

(** The loop of the bulk route over a store whose listed orders already
    carry the new status. *)
Lemma push_loop (env : Env) (status : string) (ids : list string) :
  ∀ (acc : list SyncResult) (w w' : World) (c : Completion (list SyncResult)),
    (∀ o, In o (ops_orders w) → In (OpsOrder.id o) ids → OpsOrder.status o = status) →
    for_of ids (push_one status) acc env w = (c, w') →
    ∃ results added calls,
      c = Normal (acc ++ results)
      ∧ length results = length ids
      ∧ Forall (fun r => success r = true → platformType r = "KUBACCO_APP") results
      ∧ integration_outbound_sync_logs w' = integration_outbound_sync_logs w ++ added
      ∧ Forall (fun row =>
                  OutboundSyncLog.result row = "SUCCESS" →
                  OutboundSyncLog.platform_type row = "KUBACCO_APP"
                  ∧ OutboundSyncLog.old_status row = status
                  ∧ OutboundSyncLog.new_status row = status) added
      ∧ requests w' = requests w ++ calls
      ∧ Forall to_kubacco calls.
Proof.
  induction ids as [|x rest IH]; intros acc w w' c Hst H.
  - simpl in H. unfold ret in H. inversion H; subst.
    exists [], [], []. rewrite !app_nil_r. repeat split; constructor.
  - simpl in H. unfold push_one at 1, bind, try_catch, ret in H.
    destruct (sync_never_throws env w x status None) as (r & w1 & Hr).
    rewrite Hr in H.
    pose proof (sync_without_client _ _ _ _ _ _ Hr)
      as (Ho & (calls1 & Hq1 & Hk1 & _) & (added1 & Hl1 & Hrow1) & Hs1).
    apply IH in H as (results & added & calls & Hc & Hlen & Hres & Hl & Hrow & Hq & Hk).
    2:{ intros o Hin Hid. rewrite Ho in Hin. apply Hst; simpl; auto. }
    exists (r :: results), (added1 ++ added), (calls1 ++ calls).
    split; [rewrite Hc, <- app_assoc; reflexivity|].
    split; [simpl; congruence|].
    split; [constructor; [intros Hs; apply Hs1 in Hs; tauto|exact Hres]|].
    split; [rewrite Hl, Hl1, <- app_assoc; reflexivity|].
    split.
    { apply Forall_app. split; [|exact Hrow].
      eapply List.Forall_impl; [|exact Hrow1]. intros row Hrow' Hsucc.
      destruct (Hrow' Hsucc) as (Hpt & Hnew & o & Hin & Hid & Hold).
      repeat split; auto. rewrite Hold. apply Hst; [exact Hin|]. rewrite Hid. simpl. auto. }
    split; [rewrite Hq, Hq1, <- app_assoc; reflexivity|].
    apply Forall_app. auto.
Qed.

(** X13. The bulk route writes the new status first and pushes afterwards,
    so the push reads the status it is about to send: every success row the
    route adds to the outbound log has the new status as its old status as
    well.  The route never throws, returns one result per listed id when it
    answers 200, sends requests to the wholesale application only, and
    reports a success only for KUBACCO_APP. *)
Theorem bulk_update_records_new_status_as_old (env : Env) (w w' : World)
    (orderIds : option (list string)) (status : option string)
    (c : Completion BulkResponse) :
  bulk_update_status orderIds status env w = (c, w') →
  ∃ resp added calls,
    c = Normal resp
    ∧ (bulk_code resp = 200 →
       ∃ ids new_status,
         orderIds = Some ids ∧ status = Some new_status
         ∧ length (syncResults resp) = length ids
         ∧ Forall (fun row =>
                     OutboundSyncLog.result row = "SUCCESS" →
                     OutboundSyncLog.platform_type row = "KUBACCO_APP"
                     ∧ OutboundSyncLog.old_status row = new_status
                     ∧ OutboundSyncLog.new_status row = new_status) added)
    ∧ Forall (fun r => success r = true → platformType r = "KUBACCO_APP") (syncResults resp)
    ∧ integration_outbound_sync_logs w' = integration_outbound_sync_logs w ++ added
    ∧ requests w' = requests w ++ calls
    ∧ Forall to_kubacco calls.
Proof.
  unfold bulk_update_status, try_catch. intros H.
  assert (Hbad : ∀ resp : BulkResponse,
             syncResults resp = [] → bulk_code resp ≠ 200 → c = Normal resp → w' = w →
             ∃ resp added calls,
               c = Normal resp
               ∧ (bulk_code resp = 200 →
                  ∃ ids new_status,
                    orderIds = Some ids ∧ status = Some new_status
                    ∧ length (syncResults resp) = length ids
                    ∧ Forall (fun row =>
                                OutboundSyncLog.result row = "SUCCESS" →
                                OutboundSyncLog.platform_type row = "KUBACCO_APP"
                                ∧ OutboundSyncLog.old_status row = new_status
                                ∧ OutboundSyncLog.new_status row = new_status) added)
               ∧ Forall (fun r => success r = true → platformType r = "KUBACCO_APP")
                   (syncResults resp)
               ∧ integration_outbound_sync_logs w'
                 = integration_outbound_sync_logs w ++ added
               ∧ requests w' = requests w ++ calls
               ∧ Forall to_kubacco calls).
  { intros resp Hnil Hcode -> ->. exists resp, [], []. rewrite !app_nil_r, Hnil.
    repeat split; try constructor. intros; contradiction. }
  destruct orderIds as [ids|];
    [|run_async; inversion H; subst; refine (Hbad _ _ _ eq_refl eq_refl); [reflexivity|discriminate]].
  destruct status as [new_status|];
    [|run_async; simpl in H; inversion H; subst; refine (Hbad _ _ _ eq_refl eq_refl); [reflexivity|discriminate]].
  unfold falsy_opt in H. simpl in H.
  destruct (falsy new_status) eqn:Hfalsy;
    [run_async; inversion H; subst; refine (Hbad _ _ _ eq_refl eq_refl); [reflexivity|discriminate]|].
  unfold db_update, bind in H.
  destruct (db_error env "ops_orders" UPDATE) as [msg|]; simpl in H;
    [run_async; inversion H; subst; refine (Hbad _ _ _ eq_refl eq_refl); [reflexivity|discriminate]|].
  unfold get in H.
  match type of H with
  | context [for_of ids (push_one new_status) [] env ?w0] =>
      destruct (for_of ids (push_one new_status) [] env w0) as [c1 w1] eqn:Hloop
  end.
  apply push_loop in Hloop
    as (results & added & calls & -> & Hlen & Hres & Hl & Hrow & Hq & Hk).
  2:{ intros o Hin Hid. simpl in Hin. eapply updated_rows_have_status; eauto. }
  simpl in H. unfold ret in H. inversion H; subst.
  eexists _, added, calls. split; [reflexivity|]. simpl.
  repeat split; auto. intros _. exists ids, new_status. auto.
Qed.

Lemma bulk_update_records_new_status_as_old_witness :
  ∃ resp added,
    (bulk_update_status (Some ["o-3"]) (Some "SHIPPED") Samples.calm Samples.shop).1
    = Normal resp
    ∧ integration_outbound_sync_logs
        (bulk_update_status (Some ["o-3"]) (Some "SHIPPED") Samples.calm Samples.shop).2
      = integration_outbound_sync_logs Samples.shop ++ added
    ∧ length added = 1%nat.
Proof.
  destruct (bulk_update_records_new_status_as_old Samples.calm Samples.shop
              (bulk_update_status (Some ["o-3"]) (Some "SHIPPED") Samples.calm
                 Samples.shop).2
              (Some ["o-3"]) (Some "SHIPPED")
              (bulk_update_status (Some ["o-3"]) (Some "SHIPPED") Samples.calm
                 Samples.shop).1)
    as (resp & added & calls & Hresp & _ & _ & Hl & _).
  - vm_compute. reflexivity.
  - exists resp, added. split; [exact Hresp|]. split; [exact Hl|].
    vm_compute in Hl. destruct added as [|a [|b rest]]; [discriminate|reflexivity|].
    simpl in Hl. discriminate.
Defined.

End OrdersRoutesProps.

(** ** The runs and the webhook route, further *)

Section PipelinesMore.
Import Stated.

(** ** The webhook route and the integration lookup *)

Lemma accept_status (req : WebhooksRoutes.Request) (env : Env) (w w' : World)
    (resp : WebhooksRoutes.Response) :
  WebhooksRoutes.accept req env w = (Normal resp, w') → WebhooksRoutes.status resp = 200.
Proof.
  unfold WebhooksRoutes.accept. intros H.
  apply bind_normal in H as (u & w1 & _ & H).
  apply bind_normal in H as (u' & w2 & _ & H).
  unfold WebhooksRoutes.respond, ret in H. inversion H. reflexivity.
Qed.

(** X14. The webhook route never answers 404: the integration is looked up
    with [single()], which reports a missing row as an error, so a delivery
    for an unknown integration is answered 500 with the store's message and
    leaves the store as it was. *)
Theorem webhook_route_never_answers_404 (env : Env) (w w' : World)
    (req : WebhooksRoutes.Request) (c : Completion WebhooksRoutes.Response) :
  WebhooksRoutes.post_woocommerce req env w = (c, w') →
  ∃ resp,
    c = Normal resp
    ∧ WebhooksRoutes.status resp ≠ 404
    ∧ (IntegrationService.with_id (WebhooksRoutes.integrationId req) w = [] →
       WebhooksRoutes.status resp = 500 ∧ w' = w).
Proof.
  unfold WebhooksRoutes.post_woocommerce, try_catch. intros H.
  destruct (WebhooksRoutes.receive req env w) as [[resp|e] w1] eqn:Hr.
  - inversion H; subst. exists resp. split; [reflexivity|].
    unfold WebhooksRoutes.receive, IntegrationService.getIntegration,
      IntegrationService.unwrap, WebhooksRoutes.respond in Hr.
    run_async.
    destruct (db_error env "integrations" SELECT); simpl in Hr; [discriminate|].
    destruct (IntegrationService.with_id (WebhooksRoutes.integrationId req) w)
      as [|i [|j rest]]; simpl in Hr; try discriminate.
    split; [|discriminate].
    destruct (Integration.is_active i); simpl in Hr;
      [|inversion Hr; simpl; discriminate].
    match type of Hr with
    | context [negb ?v] => destruct v; simpl in Hr
    end; [|inversion Hr; simpl; discriminate].
    apply accept_status in Hr. rewrite Hr. discriminate.
  - unfold WebhooksRoutes.respond, ret in H. inversion H; subst.
    eexists. split; [reflexivity|]. simpl. split; [discriminate|].
    intros Hnone. split; [reflexivity|].
    unfold WebhooksRoutes.receive, IntegrationService.getIntegration,
      IntegrationService.unwrap in Hr.
    run_async. rewrite Hnone in Hr.
    destruct (db_error env "integrations" SELECT); simpl in Hr; inversion Hr; reflexivity.
Qed.

Lemma webhook_route_never_answers_404_witness :
  ∃ resp,
    (WebhooksRoutes.post_woocommerce Samples.unsigned_delivery Samples.calm
       Samples.nothing).1 = Normal resp
    ∧ WebhooksRoutes.status resp = 500.
Proof.
  destruct (webhook_route_never_answers_404 Samples.calm Samples.nothing
              (WebhooksRoutes.post_woocommerce Samples.unsigned_delivery Samples.calm
                 Samples.nothing).2
              Samples.unsigned_delivery
              (WebhooksRoutes.post_woocommerce Samples.unsigned_delivery Samples.calm
                 Samples.nothing).1)
    as (resp & Hresp & _ & H500).
  - vm_compute. reflexivity.
  - exists resp. split; [exact Hresp|]. apply H500. reflexivity.
Defined.

(** X15. Both runs look the integration up the same way: for an id the
    store does not hold, the import and the export throw the store's own
    message before they open a log row or send a request; the message
    'Integration not found' of their own check is not what the caller
    sees. *)
Theorem runs_on_unknown_integration (env : Env) (w : World) (integrationId : string)
    (import_options : option OrderImportService.Options)
    (export_options : option InventorySyncService.Options) :
  db_error env "integrations" SELECT = None →
  IntegrationService.with_id integrationId w = [] →
  OrderImportService.importOrdersFromWooCommerce integrationId import_options env w
  = (Throw "JSON object requested, multiple (or no) rows returned", w)
  ∧ InventorySyncService.syncInventoryToWooCommerce integrationId export_options env w
    = (Throw "JSON object requested, multiple (or no) rows returned", w).
Proof.
  intros Hdb Hnone.
  unfold OrderImportService.importOrdersFromWooCommerce,
    InventorySyncService.syncInventoryToWooCommerce, storefront_integration,
    IntegrationService.getIntegration, IntegrationService.unwrap.
  run_async. rewrite Hdb, Hnone. simpl. split; reflexivity.
Qed.

Lemma runs_on_unknown_integration_witness :
  OrderImportService.importOrdersFromWooCommerce "int-gone" None Samples.calm Samples.shop
  = (Throw "JSON object requested, multiple (or no) rows returned", Samples.shop)
  ∧ InventorySyncService.syncInventoryToWooCommerce "int-gone" None Samples.calm
      Samples.shop
    = (Throw "JSON object requested, multiple (or no) rows returned", Samples.shop).
Proof.
  apply (runs_on_unknown_integration Samples.calm Samples.shop "int-gone" None None).
  - reflexivity.
  - vm_compute. reflexivity.
Defined.

(** ** The counts of the import *)

(** X16. A run of the import that returns has sent one request, for one
    page of orders, and its counts add up: every order of that page is
    counted once as imported, skipped or failed, and there is one error
    message for each failed order. *)
Theorem import_counts_add_up (env : Env) (w w' : World) (integrationId : string)
    (options : option OrderImportService.Options) (r : ImportResults.t) :
  OrderImportService.importOrdersFromWooCommerce integrationId options env w
  = (Normal r, w') →
  ∃ orders call,
    requests w' = requests w ++ [call]
    ∧ call = WooGetOrders (OrderImportService.per_page options)
               (OrderImportService.truthy_opt
                  (options ≫= OrderImportService.opt_status))
               (OrderImportService.truthy_opt
                  (options ≫= OrderImportService.opt_after))
    ∧ woo_getOrders env (OrderImportService.per_page options)
        (OrderImportService.truthy_opt (options ≫= OrderImportService.opt_status))
        (OrderImportService.truthy_opt (options ≫= OrderImportService.opt_after))
      = inr orders
    ∧ ImportResults.total r = Z.of_nat (length orders)
    ∧ ImportResults.imported r + ImportResults.skipped r + ImportResults.failed r
      = ImportResults.total r
    ∧ Z.of_nat (length (ImportResults.errors r)) = ImportResults.failed r
    ∧ 0 ≤ ImportResults.imported r ∧ 0 ≤ ImportResults.skipped r
    ∧ 0 ≤ ImportResults.failed r.
Proof.
  rewrite import_is_logged_run. intros H.
  apply logged_run_normal in H as (i & logId & w1 & _ & _ & Hq1 & _ & _ & H).
  unfold OrderImportService.import_run in H.
  apply bind_normal in H as (page & w2 & Hpage & H).
  unfold request in Hpage. inversion Hpage; subst page w2. clear Hpage.
  destruct (woo_getOrders env (OrderImportService.per_page options)
              (OrderImportService.truthy_opt (options ≫= OrderImportService.opt_status))
              (OrderImportService.truthy_opt (options ≫= OrderImportService.opt_after)))
    as [msg|orders] eqn:Hpage; [discriminate|].
  apply bind_normal in H as (r1 & w3 & Hloop & H).
  apply import_loop in Hloop as (r' & Hr' & Hq & Ht & Hsum & Herr & H1 & H2 & H3).
  inversion Hr'; subst r'. clear Hr'.
  apply finish_run_normal in H as [-> Hq'].
  simpl in *. eexists orders, _. split.
  { rewrite Hq', Hq. simpl. rewrite Hq1. reflexivity. }
  repeat split; lia.
Qed.

Lemma import_counts_add_up_witness :
  ∃ r, (OrderImportService.importOrdersFromWooCommerce "int-woo" None
          (Samples.page_with_duplicate (Samples.wooOrder 501)) Samples.shop).1 = Normal r
       ∧ ImportResults.imported r + ImportResults.skipped r + ImportResults.failed r = 2.
Proof.
  eexists. split; [vm_compute; reflexivity|].
  destruct (import_counts_add_up (Samples.page_with_duplicate (Samples.wooOrder 501))
              Samples.shop
              (OrderImportService.importOrdersFromWooCommerce "int-woo" None
                 (Samples.page_with_duplicate (Samples.wooOrder 501)) Samples.shop).2
              "int-woo" None
              {| ImportResults.total := 2; ImportResults.imported := 0;
                 ImportResults.skipped := 2; ImportResults.failed := 0;
                 ImportResults.errors := [] |})
    as (orders & call & _ & _ & _ & _ & Hsum & _).
  - vm_compute. reflexivity.
  - exact Hsum.
Defined.


(** ** The counts of the export *)

Lemma getProductMappings_normal (env : Env) (w w' : World) (integrationId : string)
    (mappings : list ProductMapping.t) :
  IntegrationService.getProductMappings integrationId env w = (Normal mappings, w') →
  w' = w
  ∧ mappings = List.filter
                 (fun m => String.eqb (ProductMapping.integration_id m) integrationId)
                 (product_mappings w).
Proof.
  unfold IntegrationService.getProductMappings, IntegrationService.unwrap. run_async.
  intros H. destruct (db_error env "product_mappings" SELECT); simpl in H;
    [discriminate|]. inversion H. auto.
Qed.

(** X17. A run of the export that returns counts every selected mapping
    once, as synced, skipped or failed; each skipped or failed mapping has
    its message, and a refused batch update adds one more message without
    changing a count, so the products of that batch stay counted as synced.
    The requests are the single variation updates, then at most one batch
    update, which is never empty and holds no more products than were
    counted as synced. *)
Theorem export_counts_add_up (env : Env) (w w' : World) (integrationId : string)
    (options : option InventorySyncService.Options) (r : InventorySyncResult.t) :
  InventorySyncService.syncInventoryToWooCommerce integrationId options env w
  = (Normal r, w') →
  InventorySyncResult.total r
  = Z.of_nat (length (InventorySyncService.selected options
                        (List.filter
                           (fun m => String.eqb (ProductMapping.integration_id m)
                                       integrationId)
                           (product_mappings w))))
  ∧ InventorySyncResult.synced r + InventorySyncResult.skipped r
    + InventorySyncResult.failed r = InventorySyncResult.total r
  ∧ 0 ≤ InventorySyncResult.synced r ∧ 0 ≤ InventorySyncResult.skipped r
  ∧ 0 ≤ InventorySyncResult.failed r
  ∧ ∃ singles batch,
      requests w' = requests w ++ singles ++ batch
      ∧ Forall variation_update singles
      ∧ ((batch = []
          ∧ Z.of_nat (length (InventorySyncResult.errors r))
            = InventorySyncResult.skipped r + InventorySyncResult.failed r)
         ∨ ∃ updates,
             batch = [WooBatchUpdateProducts updates]
             ∧ updates ≠ []
             ∧ Z.of_nat (length updates) ≤ InventorySyncResult.synced r
             ∧ match woo_batchUpdateProducts env updates with
               | None =>
                   Z.of_nat (length (InventorySyncResult.errors r))
                   = InventorySyncResult.skipped r + InventorySyncResult.failed r
               | Some _ =>
                   Z.of_nat (length (InventorySyncResult.errors r))
                   = InventorySyncResult.skipped r + InventorySyncResult.failed r + 1
               end).
Proof.
  rewrite export_is_logged_run. intros H.
  apply logged_run_normal in H as (i & logId & w1 & _ & _ & Hq1 & Hm1 & _ & H).
  unfold InventorySyncService.export_run in H.
  apply bind_normal in H as (mappings & w2 & Hmap & H).
  apply getProductMappings_normal in Hmap as [-> ->]. rewrite Hm1 in H.
  apply bind_normal in H as (s & w3 & Hloop & H).
  apply export_loop in Hloop
    as (r' & ext & calls & Hs & Ht & Hsum & Herr & Hu & Hk & Hf & Hq & Hc).
  inversion Hs; subst s. clear Hs. simpl in *.
  apply bind_normal in H as (r2 & w4 & Hbatch & H).
  apply finish_run_normal in H as [-> Hq'].
  destruct ext as [|x ext].
  - unfold ret in Hbatch. inversion Hbatch; subst r2 w4.
    split; [exact Ht|]. repeat split; try lia.
    exists calls, []. rewrite app_nil_r. split; [congruence|]. split; [exact Hc|].
    left. split; [reflexivity|lia].
  - unfold bind, request, ret in Hbatch.
    destruct (woo_batchUpdateProducts env (x :: ext)) as [msg|] eqn:Hb;
      inversion Hbatch; subst r2 w4; simpl in *.
    + split; [exact Ht|]. repeat split; try lia.
      exists calls, [WooBatchUpdateProducts (x :: ext)].
      split; [rewrite Hq', Hq, Hq1, app_assoc; reflexivity|]. split; [exact Hc|].
      right. exists (x :: ext). rewrite Hb, length_app. simpl in *.
      repeat split; [discriminate|lia|lia].
    + split; [exact Ht|]. repeat split; try lia.
      exists calls, [WooBatchUpdateProducts (x :: ext)].
      split; [rewrite Hq', Hq, Hq1, app_assoc; reflexivity|]. split; [exact Hc|].
      right. exists (x :: ext). rewrite Hb. simpl in *.
      repeat split; [discriminate|lia|lia].
Qed.

Lemma export_counts_add_up_witness :
  InventorySyncResult.synced MoreSamples.warehouse_export
  + InventorySyncResult.skipped MoreSamples.warehouse_export
  + InventorySyncResult.failed MoreSamples.warehouse_export
  = InventorySyncResult.total MoreSamples.warehouse_export.
Proof.
  destruct (export_counts_add_up Samples.calm Samples.warehouse
              (InventorySyncService.syncInventoryToWooCommerce "int-woo" None Samples.calm
                 Samples.warehouse).2
              "int-woo" None MoreSamples.warehouse_export)
    as (_ & Hsum & _).
  - vm_compute. reflexivity.
  - exact Hsum.
Defined.

(** ** Single imports *)

(** An import returns a result, sends nothing and writes to the orders and
    their items only. *)
Lemma importOrder_frame (env : Env) (w w' : World) (wooOrder : WooCommerceOrder)
    (integrationId : string) (c : Completion ImportOrderResult) :
  OrderImportService.importOrder wooOrder integrationId env w = (c, w') →
  (∃ r, c = Normal r)
  ∧ integration_sync_logs w' = integration_sync_logs w
  ∧ integrations w' = integrations w.
Proof.
  unfold OrderImportService.importOrder, OrderImportService.import_attempt,
    OrderImportService.orderExists.
  run_async. intros H. repeat split_answer; eauto.
Qed.

(** X18. A webhook delivery is logged with the outcome of its import: with
    the log table answering, [processWebhookOrder] returns the result of
    [importOrder] and leaves one new log row closed with it.  For an order the
    store already holds (every order.updated delivery that follows an
    order.created) the orders are left as they are and the row is closed as
    FAILED with one failed record: the batch import counts the same outcome
    as skipped. *)
Theorem webhook_order_is_logged (env : Env) (w : World) (integrationId : string)
    (wooOrder : WooCommerceOrder) :
  db_error env "integration_sync_logs" INSERT = None →
  db_error env "integration_sync_logs" UPDATE = None →
  ¬ In (run_log_id env w) (map SyncLog.id (integration_sync_logs w)) →
  ∃ result w',
    OrderImportService.processWebhookOrder integrationId wooOrder env w
    = (Normal result, w')
    ∧ integration_sync_logs w'
      = integration_sync_logs w ++ [webhook_log env w integrationId result]
    ∧ (db_error env "ops_orders" SELECT = None →
       ∀ o, OrderImportService.matching (wo_id wooOrder) integrationId w = [o] →
            io_success result = false
            ∧ io_error result = Some "Order already imported"
            ∧ ops_orders w' = ops_orders w
            ∧ SyncLog.status (webhook_log env w integrationId result) = "FAILED"
            ∧ SyncLog.records_failed (webhook_log env w integrationId result) = 1).
Proof.
  intros Hins Hupd Hfresh.
  unfold OrderImportService.processWebhookOrder, IntegrationService.createSyncLog.
  run_async. rewrite Hins. simpl. fold (run_log_id env w).
  match goal with
  | |- context [OrderImportService.importOrder wooOrder integrationId env ?w0] =>
      set (w1 := w0);
      destruct (OrderImportService.importOrder wooOrder integrationId env w1)
        as [c w2] eqn:Hi
  end.
  pose proof (importOrder_frame _ _ _ _ _ _ Hi) as ([result ->] & Hlogs & _).
  unfold IntegrationService.updateSyncLog, IntegrationService.unwrap.
  run_async. rewrite Hupd. simpl. rewrite Hlogs. unfold w1 at 1 2. simpl.
  rewrite map_app, List.filter_app. simpl. rewrite ?String.eqb_refl. simpl.
  rewrite (map_fresh_key SyncLog.id _ _ _ Hfresh), (filter_fresh_key SyncLog.id _ _ Hfresh).
  simpl. rewrite ?String.eqb_refl. simpl.
  eexists _, _. split; [reflexivity|]. simpl. rewrite Hlogs. unfold w1 at 1. simpl.
  rewrite map_app. simpl. rewrite String.eqb_refl.
  rewrite (map_fresh_key SyncLog.id _ _ _ Hfresh).
  split; [reflexivity|].
  intros Hsel o Hm.
  assert (Hm1 : OrderImportService.matching (wo_id wooOrder) integrationId w1 = [o])
    by exact Hm.
  rewrite (import_of_stored_order env w1 wooOrder integrationId o Hsel Hm1) in Hi.
  inversion Hi; subst. simpl. auto.
Qed.

Lemma webhook_order_is_logged_witness :
  ∃ result w',
    OrderImportService.processWebhookOrder "int-woo" (Samples.wooOrder 501) Samples.calm
      Samples.shop = (Normal result, w')
    ∧ integration_sync_logs w'
      = integration_sync_logs Samples.shop
          ++ [webhook_log Samples.calm Samples.shop "int-woo" result]
    ∧ (db_error Samples.calm "ops_orders" SELECT = None →
       ∀ o, OrderImportService.matching 501 "int-woo" Samples.shop = [o] →
            io_success result = false
            ∧ io_error result = Some "Order already imported"
            ∧ ops_orders w' = ops_orders Samples.shop
            ∧ SyncLog.status (webhook_log Samples.calm Samples.shop "int-woo" result)
              = "FAILED"
            ∧ SyncLog.records_failed
                (webhook_log Samples.calm Samples.shop "int-woo" result) = 1).
Proof.
  apply (webhook_order_is_logged Samples.calm Samples.shop "int-woo" (Samples.wooOrder 501)).
  - reflexivity.
  - reflexivity.
  - simpl. tauto.
Defined.

(** X19. The line items are not part of the outcome of an import: when the
    table of items refuses the insert, the order is stored without items and
    the import is still reported as a success, with no error. *)
Theorem order_is_imported_without_its_items (env : Env) (w : World)
    (wooOrder : WooCommerceOrder) (integrationId message : string) :
  (∀ v, db_error env "ops_orders" v = None) →
  OrderImportService.matching (wo_id wooOrder) integrationId w = [] →
  line_items wooOrder ≠ [] →
  db_error env "ops_order_items" INSERT = Some message →
  ∃ r w',
    OrderImportService.importOrder wooOrder integrationId env w = (Normal r, w')
    ∧ io_success r = true
    ∧ io_error r = None
    ∧ io_orderId r = Some (next_order_id env w)
    ∧ ops_orders w'
      = ops_orders w
          ++ [OrderImportService.orderData wooOrder integrationId (next_order_id env w)]
    ∧ ops_order_items w' = ops_order_items w.
Proof.
  intros Hdb Hm Hitems Hrefused.
  unfold OrderImportService.importOrder, OrderImportService.import_attempt,
    OrderImportService.orderExists, next_order_id.
  run_async. rewrite (Hdb SELECT), Hm. simpl. rewrite (Hdb INSERT). simpl.
  destruct (line_items wooOrder) as [|item items]; [contradiction|]. simpl.
  rewrite Hrefused. simpl. eexists _, _. repeat split.
Qed.

Lemma order_is_imported_without_its_items_witness :
  ∃ r w',
    OrderImportService.importOrder (Samples.wooOrder 777) "int-woo"
      MoreSamples.items_refused Samples.shop = (Normal r, w')
    ∧ io_success r = true
    ∧ io_error r = None
    ∧ io_orderId r = Some (next_order_id MoreSamples.items_refused Samples.shop)
    ∧ ops_orders w'
      = ops_orders Samples.shop
          ++ [OrderImportService.orderData (Samples.wooOrder 777) "int-woo"
                (next_order_id MoreSamples.items_refused Samples.shop)]
    ∧ ops_order_items w' = ops_order_items Samples.shop.
Proof.
  apply (order_is_imported_without_its_items MoreSamples.items_refused Samples.shop
           (Samples.wooOrder 777) "int-woo" "permission denied").
  - intros v. reflexivity.
  - vm_compute. reflexivity.
  - discriminate.
  - reflexivity.
Defined.

(** X20. From the import to the push: an order imported from the storefront
    is an ONLINE order of the integration it came through, so a status push
    for it passes the channel check, goes to the storefront under the id the
    storefront gave the order, and records the status the import had mapped
    as the old status.  The id is one a JavaScript number holds exactly
    (magnitude below 2^53), and neither status names a member the status
    tables inherit from [Object.prototype]. *)
Theorem imported_order_is_pushed_to_its_storefront (env : Env) (w : World)
    (wooOrder : WooCommerceOrder) (integrationId newStatus : string)
    (client : WooCommerceClient) (i : Integration.t) :
  safe_integer (wo_id wooOrder) →
  inherited (wo_status wooOrder) = false →
  inherited newStatus = false →
  (∀ table v, db_error env table v = None) →
  OrderImportService.matching (wo_id wooOrder) integrationId w = [] →
  ¬ In (next_order_id env w) (map OpsOrder.id (ops_orders w)) →
  the_integration w integrationId = Some i →
  Integration.platform_type i = "WOOCOMMERCE" →
  woo_updateOrderStatus env (wo_id wooOrder)
    (OrderStatusSyncService.mapToWooCommerceStatus newStatus) = None →
  ∃ imported w1 pushed w2,
    OrderImportService.importOrder wooOrder integrationId env w = (Normal imported, w1)
    ∧ io_orderId imported = Some (next_order_id env w)
    ∧ OrderStatusSyncService.syncStatusToExternalPlatform (next_order_id env w) newStatus
        (Some client) env w1 = (Normal pushed, w2)
    ∧ success pushed = true
    ∧ platformType pushed = "WOOCOMMERCE"
    ∧ requests w2
      = requests w
          ++ [WooUpdateOrderStatus (wo_id wooOrder)
                (OrderStatusSyncService.mapToWooCommerceStatus newStatus)]
    ∧ integration_outbound_sync_logs w2
      = integration_outbound_sync_logs w
          ++ [pushed_row "WOOCOMMERCE"
                (OrderImportService.orderData wooOrder integrationId (next_order_id env w))
                i
                (OrderImportService.mapWooCommerceStatusToWarehouse (wo_status wooOrder))
                newStatus (now env) (next_log_id env w)].
Proof.
  intros _ _ _ Hdb Hm Hfresh Hi Hp Hwoo.
  unfold the_integration in Hi.
  assert (Himport : ∃ w1,
             OrderImportService.importOrder wooOrder integrationId env w
             = (Normal {| io_success := true; io_orderId := Some (next_order_id env w);
                          externalOrderId := wo_id wooOrder; io_error := None |}, w1)
             ∧ ops_orders w1
               = ops_orders w
                   ++ [OrderImportService.orderData wooOrder integrationId
                         (next_order_id env w)]
             ∧ integrations w1 = integrations w
             ∧ integration_outbound_sync_logs w1 = integration_outbound_sync_logs w
             ∧ requests w1 = requests w).
  { unfold OrderImportService.importOrder, OrderImportService.import_attempt,
      OrderImportService.orderExists, next_order_id.
    run_async. rewrite Hdb, Hm. simpl. rewrite Hdb. simpl.
    destruct (line_items wooOrder) as [|item items]; simpl; rewrite ?Hdb; simpl;
      eexists; repeat split. }
  destruct Himport as (w1 & Himport & Ho1 & Hi1 & Hl1 & Hq1).
  eexists _, w1. rewrite Himport.
  unfold OrderStatusSyncService.syncStatusToExternalPlatform,
    OrderStatusSyncService.sync_attempt, OrderStatusSyncService.order_by_id,
    OrderStatusSyncService.integration_by_id, OrderStatusSyncService.found,
    OrderStatusSyncService.validateChannelSegregation, OrderStatusSyncService.dispatch,
    OrderStatusSyncService.syncToWooCommerce, OrderStatusSyncService.createSyncLog,
    OrderStatusSyncService.data_id, OrderStatusSyncService.orders_with_id,
    OrderStatusSyncService.integrations_with_id in *.
  run_async. rewrite !Hdb. simpl.
  rewrite Ho1, List.filter_app, (filter_fresh_key OpsOrder.id _ _ Hfresh). simpl.
  rewrite String.eqb_refl. simpl. rewrite Hi1.
  rewrite (maybeSingle_data_error _ _ Hi), Hi. simpl. rewrite Hp. simpl.
  rewrite parseInt_pretty. simpl. rewrite Hwoo. simpl. rewrite !Hdb. simpl.
  eexists _, _. split; [reflexivity|]. split; [reflexivity|]. split; [reflexivity|].
  simpl. rewrite Hq1, Hl1. unfold next_log_id, OrderStatusSyncService.log_ids.
  simpl. rewrite Hl1. repeat split.
Qed.

Lemma imported_order_is_pushed_to_its_storefront_witness :
  ∃ imported w1 pushed w2,
    OrderImportService.importOrder (Samples.wooOrder 777) "int-woo" Samples.calm
      Samples.shop = (Normal imported, w1)
    ∧ io_orderId imported = Some (next_order_id Samples.calm Samples.shop)
    ∧ OrderStatusSyncService.syncStatusToExternalPlatform
        (next_order_id Samples.calm Samples.shop) "SHIPPED" (Some Samples.client)
        Samples.calm w1 = (Normal pushed, w2)
    ∧ success pushed = true
    ∧ platformType pushed = "WOOCOMMERCE"
    ∧ requests w2
      = requests Samples.shop
          ++ [WooUpdateOrderStatus 777
                (OrderStatusSyncService.mapToWooCommerceStatus "SHIPPED")]
    ∧ integration_outbound_sync_logs w2
      = integration_outbound_sync_logs Samples.shop
          ++ [pushed_row "WOOCOMMERCE"
                (OrderImportService.orderData (Samples.wooOrder 777) "int-woo"
                   (next_order_id Samples.calm Samples.shop))
                (Samples.integration "int-woo" "WOOCOMMERCE")
                (OrderImportService.mapWooCommerceStatusToWarehouse "processing")
                "SHIPPED" (now Samples.calm) (next_log_id Samples.calm Samples.shop)].
Proof.
  apply (imported_order_is_pushed_to_its_storefront Samples.calm Samples.shop
           (Samples.wooOrder 777) "int-woo" "SHIPPED" Samples.client
           (Samples.integration "int-woo" "WOOCOMMERCE")).
  - vm_compute. reflexivity.
  - reflexivity.
  - reflexivity.
  - intros table v. reflexivity.
  - vm_compute. reflexivity.
  - vm_compute. intuition discriminate.
  - vm_compute. reflexivity.
  - reflexivity.
  - reflexivity.
Defined.

(** ** The integration after a run *)

Lemma finish_run_integrations {A : Type} (logId integrationId status : string)
    (processed failed_count : Z) (details : Details) (error_details : option ErrorDetails)
    (results r : A) (env : Env) (w w' : World) :
  finish_run logId integrationId status processed failed_count details error_details
    results env w = (Normal r, w') →
  integrations w' = marked_connected env integrationId w.
Proof.
  unfold finish_run, IntegrationService.updateSyncLog, IntegrationService.updateIntegration,
    IntegrationService.unwrap, marked_connected.
  run_async. intros H. repeat split_answer; try discriminate. reflexivity.
Qed.

Lemma import_loop_integrations (env : Env) (integrationId : string)
    (orders : list WooCommerceOrder) :
  ∀ (r : ImportResults.t) (w w' : World) (c : Completion ImportResults.t),
    for_of orders (OrderImportService.import_one integrationId) r env w = (c, w') →
    integrations w' = integrations w.
Proof.
  induction orders as [|o rest IH]; intros r w w' c H.
  - simpl in H. unfold ret in H. inversion H. reflexivity.
  - simpl in H. unfold OrderImportService.import_one at 1, bind, ret in H.
    destruct (OrderImportService.importOrder o integrationId env w) as [c1 w1] eqn:Hi.
    apply importOrder_frame in Hi as ([r1 ->] & _ & Hint).
    apply IH in H. congruence.
Qed.

Lemma sync_one_integrations (env : Env) (m : ProductMapping.t)
    (s : InventorySyncService.LoopState) (w w' : World)
    (c : Completion InventorySyncService.LoopState) :
  InventorySyncService.sync_one m s env w = (c, w') →
  (∃ s', c = Normal s') ∧ integrations w' = integrations w.
Proof.
  destruct s as [r u].
  unfold InventorySyncService.sync_one, InventorySyncService.getWarehouseInventory.
  run_async. intros H. repeat split_answer; eauto.
Qed.

Lemma export_loop_integrations (env : Env) (mappings : list ProductMapping.t) :
  ∀ (s : InventorySyncService.LoopState) (w w' : World)
    (c : Completion InventorySyncService.LoopState),
    for_of mappings InventorySyncService.sync_one s env w = (c, w') →
    integrations w' = integrations w.
Proof.
  induction mappings as [|m rest IH]; intros s w w' c H.
  - simpl in H. unfold ret in H. inversion H. reflexivity.
  - cbn [for_of] in H. unfold bind in H.
    destruct (InventorySyncService.sync_one m s env w) as [c1 w1] eqn:Hs.
    apply sync_one_integrations in Hs as ([s1 ->] & Hint).
    apply IH in H. congruence.
Qed.

(** X21. A run that goes through marks its integration CONNECTED and
    stamps the time, and changes nothing else in the integrations: the
    update passes [error_message: undefined], which is no change, so the
    message of an earlier failed run stays on the integration. *)
Theorem successful_run_keeps_error_message (env : Env) (w w' : World)
    (integrationId : string) :
  (∃ options r,
     OrderImportService.importOrdersFromWooCommerce integrationId options env w
     = (Normal r, w'))
  ∨ (∃ options r,
       InventorySyncService.syncInventoryToWooCommerce integrationId options env w
       = (Normal r, w')) →
  integrations w' = marked_connected env integrationId w
  ∧ ∀ i', In i' (integrations w') → Integration.id i' = integrationId →
          Integration.sync_status i' = "CONNECTED"
          ∧ Integration.last_sync_at i' = Some (now env)
          ∧ ∃ i, In i (integrations w) ∧ Integration.id i = integrationId
                 ∧ Integration.error_message i' = Integration.error_message i
                 ∧ Integration.platform_type i' = Integration.platform_type i
                 ∧ Integration.config i' = Integration.config i.
Proof.
  intros H.
  assert (Heq : integrations w' = marked_connected env integrationId w).
  { destruct H as [(options & r & H)|(options & r & H)].
    - rewrite import_is_logged_run in H.
      apply logged_run_normal in H as (i & logId & w1 & _ & _ & _ & _ & Hi1 & H).
      unfold OrderImportService.import_run in H.
      apply bind_normal in H as (page & w2 & Hpage & H).
      unfold request in Hpage. inversion Hpage; subst page w2. clear Hpage.
      destruct (woo_getOrders env _ _ _) as [msg|orders]; [discriminate|].
      apply bind_normal in H as (r1 & w3 & Hloop & H).
      apply import_loop_integrations in Hloop.
      apply finish_run_integrations in H. rewrite H. unfold marked_connected.
      rewrite Hloop. simpl. rewrite Hi1. reflexivity.
    - rewrite export_is_logged_run in H.
      apply logged_run_normal in H as (i & logId & w1 & _ & _ & _ & _ & Hi1 & H).
      unfold InventorySyncService.export_run in H.
      apply bind_normal in H as (mappings & w2 & Hmap & H).
      apply getProductMappings_normal in Hmap as [-> ->].
      apply bind_normal in H as (s & w3 & Hloop & H).
      apply export_loop_integrations in Hloop.
      destruct s as [results updates].
      apply bind_normal in H as (r2 & w4 & Hbatch & H).
      apply finish_run_integrations in H. rewrite H. unfold marked_connected.
      assert (Hw4 : integrations w4 = integrations w3).
      { destruct updates; run_async; [inversion Hbatch; reflexivity|].
        destruct (woo_batchUpdateProducts env _); inversion Hbatch; reflexivity. }
      rewrite Hw4, Hloop, Hi1. reflexivity. }
  split; [exact Heq|]. rewrite Heq. unfold marked_connected.
  intros i' Hin Hid. apply in_map_iff in Hin as (i & <- & Hin).
  destruct (String.eqb_spec (Integration.id i) integrationId) as [Hi|Hi].
  - simpl. repeat split. exists i. auto.
  - contradiction.
Qed.

Lemma successful_run_keeps_error_message_witness :
  ∃ i', In i' (integrations
                 (InventorySyncService.syncInventoryToWooCommerce "int-woo" None
                    Samples.calm MoreSamples.warehouse_after_error).2)
        ∧ Integration.sync_status i' = "CONNECTED"
        ∧ Integration.error_message i' = Some "connect ECONNREFUSED".
Proof.
  destruct (successful_run_keeps_error_message Samples.calm
              MoreSamples.warehouse_after_error
              (InventorySyncService.syncInventoryToWooCommerce "int-woo" None
                 Samples.calm MoreSamples.warehouse_after_error).2
              "int-woo") as [Heq _].
  - right. exists None, MoreSamples.warehouse_export. vm_compute. reflexivity.
  - rewrite Heq. eexists. split; [left; reflexivity|]. split; reflexivity.
Defined.

End PipelinesMore.
